(** * Warehouse inventory monitor and order extractor: a shallow embedding

    The development follows the Python sources module by module:

    - [PyStr], [PyDict], [Py]: the fragments of the Python runtime the
      program relies on (text as code points, insertion-ordered
      dictionaries, exceptions as an error result);
    - [Datetime]: the proleptic Gregorian calendar of [datetime];
    - [Regex]: a backtracking matcher for the fragment of [re] used by
      the sources;
    - [Json]: [json.dump] for the snapshot store;
    - [InventoryMonitor]: inventory_monitor.py;
    - [InventoryNotifier]: inventory_notifier.py;
    - [MonitorMain]: inventory_monitor_main.py;
    - [OrderDataExtractor], [OrderDocument]: data_extractor.py;
    - [WebScraper]: the parsers and the table scan of web_scraper.py;
    - [OrderMain]: main.py, with the sheet header of google_sheets.py.

    The theorems come after the definitions, grouped by component; the
    scenarios at the end instantiate them. *)

From Stdlib Require Import List ZArith NArith Lia Bool String Ascii.
From Stdlib Require Import Permutation Sorted DecimalString.
From Stdlib Require DecimalPos.
Import ListNotations.

Set Implicit Arguments.

(* ================================================================== *)
(** ** Python text *)

(** A Python [str] is a sequence of Unicode code points.  Literals are
    written as UTF-8 text and decoded by [utf8]. *)
Module PyStr.

Definition char := N.
Definition str := list char.

Fixpoint eqb (a b : str) : bool :=
  match a, b with
  | [], [] => true
  | x :: a', y :: b' => N.eqb x y && eqb a' b'
  | _, _ => false
  end.

(** Decoder state: [acc] is the code point read so far, [k] the number
    of continuation bytes still expected. *)
Fixpoint utf8_go (s : string) (acc : N) (k : nat) : str :=
  match s with
  | EmptyString => []
  | String a s' =>
      let b := N_of_ascii a in
      match k with
      | O =>
          if (b <? 128)%N then b :: utf8_go s' 0%N O
          else if (b <? 224)%N then utf8_go s' (b - 192)%N 1%nat
          else if (b <? 240)%N then utf8_go s' (b - 224)%N 2%nat
          else utf8_go s' (b - 240)%N 3%nat
      | S O => (acc * 64 + (b - 128))%N :: utf8_go s' 0%N O
      | S k' => utf8_go s' (acc * 64 + (b - 128))%N k'
      end
  end.

Definition utf8 (s : string) : str := utf8_go s 0%N O.

Arguments utf8 s%_string.

(** [str(n)] for a Python [int]. *)
Definition of_int (z : Z) : str :=
  utf8 (NilZero.string_of_int (Z.to_int z)).

(** ["%0wd" % n] for a non-negative [n]. *)
Definition zpad (w : nat) (z : Z) : str :=
  let d := of_int z in
  repeat 48%N (w - List.length d) ++ d.

(** [s.replace(c, "")] for a one-character [c]. *)
Definition remove_char (c : char) (s : str) : str :=
  filter (fun x => negb (N.eqb x c)) s.

(** [str.isspace] on one code point: the white-space characters of the
    Unicode database. *)
Definition is_space (c : char) : bool :=
  ((9 <=? c) && (c <=? 13) || (28 <=? c) && (c <=? 32) ||
   (c =? 133) || (c =? 160) || (c =? 5760) ||
   (8192 <=? c) && (c <=? 8202) ||
   (c =? 8232) || (c =? 8233) || (c =? 8239) || (c =? 8287) ||
   (c =? 12288))%N.

Fixpoint lstrip (s : str) : str :=
  match s with
  | c :: s' => if is_space c then lstrip s' else s
  | [] => []
  end.

(** [s.strip()] *)
Definition strip (s : str) : str := rev (lstrip (rev (lstrip s))).

(** [s.split(sep)] for a one-character separator: never empty. *)
Fixpoint split (sep : char) (s : str) : list str :=
  match s with
  | [] => [[]]
  | c :: s' =>
      if N.eqb c sep then [] :: split sep s'
      else match split sep s' with
           | w :: ws => (c :: w) :: ws
           | [] => [[c]]
           end
  end.

(** The ten decimal digits. *)
Inductive digit := D0 | D1 | D2 | D3 | D4 | D5 | D6 | D7 | D8 | D9.

Definition digit_value (d : digit) : Z :=
  match d with
  | D0 => 0 | D1 => 1 | D2 => 2 | D3 => 3 | D4 => 4
  | D5 => 5 | D6 => 6 | D7 => 7 | D8 => 8 | D9 => 9
  end%Z.

Definition ascii_digit (c : char) : option digit :=
  match c with
  | 48 => Some D0 | 49 => Some D1 | 50 => Some D2 | 51 => Some D3
  | 52 => Some D4 | 53 => Some D5 | 54 => Some D6 | 55 => Some D7
  | 56 => Some D8 | 57 => Some D9 | _ => None
  end%N.

(** The decimal digits of the Unicode database (category Nd) outside
    ASCII depend on the Unicode version of the interpreter: they are a
    parameter of every function that classifies digits. *)
Definition unicode_digits := char -> option digit.

(** No digit outside ASCII: the behaviour on Latin-1 text. *)
Definition ascii_only : unicode_digits := fun _ => None.

(** The decimal value of a code point, as [\d] and [int] see it.  No
    ASCII character but [0]..[9] is a digit, and no white space is. *)
Definition decimal (ud : unicode_digits) (c : char) : option digit :=
  match ascii_digit c with
  | Some d => Some d
  | None => if (c <? 128)%N || is_space c then None else ud c
  end.

Definition is_digit (ud : unicode_digits) (c : char) : bool :=
  match decimal ud c with Some _ => true | None => false end.

(** [int(s)] on a run of decimal digits, with the surrounding white
    space [int] ignores; [None] is [ValueError]. *)
Fixpoint int_digits (ud : unicode_digits) (s : str) (acc : Z) : option Z :=
  match s with
  | [] => Some acc
  | c :: s' =>
      match decimal ud c with
      | Some d => int_digits ud s' (10 * acc + digit_value d)%Z
      | None => None
      end
  end.

Definition int (ud : unicode_digits) (s : str) : option Z :=
  match strip s with
  | [] => None
  | t => int_digits ud t 0%Z
  end.

End PyStr.

Abbreviation str := PyStr.str.
Abbreviation u := PyStr.utf8.

(* ================================================================== *)
(** ** Python dictionaries *)

(** A [dict] keeps its keys in insertion order; assigning to a key that
    is present replaces the value and keeps the key's position.  The
    order is observable here (the differ's output lists follow it), so a
    dictionary is an association list maintained by [set]. *)
Module PyDict.

Section Dict.
Variable V : Type.

Definition t := list (str * V).

Definition empty : t := [].

Fixpoint get (k : str) (d : t) : option V :=
  match d with
  | [] => None
  | (k', v) :: d' => if PyStr.eqb k k' then Some v else get k d'
  end.

(** [d[k] = v] *)
Fixpoint set (k : str) (v : V) (d : t) : t :=
  match d with
  | [] => [(k, v)]
  | (k', v') :: d' =>
      if PyStr.eqb k k' then (k', v) :: d' else (k', v') :: set k v d'
  end.

(** [k in d] *)
Definition mem (k : str) (d : t) : bool :=
  match get k d with Some _ => true | None => false end.

Definition keys (d : t) : list str := map fst d.

End Dict.

Arguments empty {V}.

End PyDict.

(* ================================================================== *)
(** ** Exceptions *)

Module Py.

Inductive exn :=
| KeyError (key : str)
| TypeError
| ValueError
| OverflowError
| OSError
| HttpError
| FetchError.

(** The outcome of a call that may raise. *)
Inductive result (A : Type) :=
| Ok (a : A)
| Raise (e : exn).

Arguments Ok {A} a.
Arguments Raise {A} e.

Definition bind {A B} (r : result A) (f : A -> result B) : result B :=
  match r with
  | Ok a => f a
  | Raise e => Raise e
  end.

(** [d[key]] on an optional field. *)
Definition getitem {A} (key : str) (field : option A) : result A :=
  match field with
  | Some a => Ok a
  | None => Raise (KeyError key)
  end.

(** [d.get(key, default)] on an optional field. *)
Definition get_default {A} (field : option A) (default : A) : A :=
  match field with
  | Some a => a
  | None => default
  end.

End Py.

Notation "x <- c ;; k" := (Py.bind c (fun x => k))
  (at level 61, c at next level, right associativity).

(* ================================================================== *)
(** ** Regular expressions *)

(** The fragment of [re] the sources use: character classes, sequence,
    ordered alternation, greedy repetition of a class, capturing groups
    and the end anchor.  Matching is by backtracking, in the order
    Python tries the alternatives: the first way to match wins.  The
    groups of the patterns below are neither nested nor repeated, so
    they complete in the order in which they open. *)
Module Regex.

Import PyStr.

Inductive re :=
| Chr (p : char -> bool)      (* one character of a class *)
| Eps                         (* the empty pattern *)
| Seq (r1 r2 : re)
| Alt (r1 r2 : re)            (* r1|r2, r1 tried first *)
| Star (p : char -> bool)     (* [class]*, longest first *)
| Group (r : re)              (* ( r ) *)
| Eol.                        (* $ *)

(** Derived forms. *)
Definition Lit (c : char) : re := Chr (N.eqb c).
Definition Opt (r : re) : re := Alt r Eps.                 (* r? *)
Definition Plus (p : char -> bool) : re := Seq (Chr p) (Star p).   (* [class]+ *)
Definition Upto2 (p : char -> bool) : re := Seq (Chr p) (Opt (Chr p)).   (* [class]{1,2} *)

Fixpoint Seqs (rs : list re) : re :=
  match rs with
  | [] => Eps
  | r :: rs' => Seq r (Seqs rs')
  end.

Fixpoint Alts (r : re) (rs : list re) : re :=
  match rs with
  | [] => r
  | r' :: rs' => Alt r (Alts r' rs')
  end.

Fixpoint Times (n : nat) (r : re) : re :=                  (* r{n} *)
  match n with
  | O => Eps
  | S n' => Seq r (Times n' r)
  end.

Fixpoint Word (w : str) : re :=                            (* literal text *)
  match w with
  | [] => Eps
  | c :: w' => Seq (Lit c) (Word w')
  end.

(** A character class given by its members. *)
Definition one_of (cs : str) (c : char) : bool := existsb (N.eqb c) cs.

Section Matcher.
Variable R : Type.

(** Greedy star: take as many characters as possible, give one back at
    a time while the continuation fails. *)
Fixpoint star (p : char -> bool) (s : str) (k : str -> option R) : option R :=
  match s with
  | c :: s' =>
      if p c then
        match star p s' k with
        | Some x => Some x
        | None => k s
        end
      else k s
  | [] => k []
  end.

(** [run r s caps k]: match [r] at the head of [s], having captured
    [caps] so far, and continue with [k] on what is left. *)
Fixpoint run (r : re) (s : str) (caps : list str)
    (k : str -> list str -> option R) : option R :=
  match r with
  | Chr p =>
      match s with
      | c :: s' => if p c then k s' caps else None
      | [] => None
      end
  | Eps => k s caps
  | Seq r1 r2 => run r1 s caps (fun s' caps' => run r2 s' caps' k)
  | Alt r1 r2 =>
      match run r1 s caps k with
      | Some x => Some x
      | None => run r2 s caps k
      end
  | Star p => star p s (fun s' => k s' caps)
  | Group r1 =>
      run r1 s caps (fun s' caps' =>
        k s' (caps' ++ [firstn (List.length s - List.length s') s]))
  | Eol =>
      match s with
      | [] => k s caps
      | [10%N] => k s caps
      | _ => None
      end
  end.

End Matcher.

(** A match object: [group(0)], [groups()] and the text after the match. *)
Record matched := { whole : str; groups : list str; rest : str }.

(** The pattern matched at the head of [s]. *)
Definition match_at (r : re) (s : str) : option matched :=
  run r s [] (fun s' caps =>
    Some {| whole := firstn (List.length s - List.length s') s;
            groups := caps; rest := s' |}).

(** [re.match(r, s)] *)
Definition rmatch (r : re) (s : str) : option matched := match_at r s.

(** [re.search(r, s)]: the match at the leftmost position that has one. *)
Fixpoint search (r : re) (s : str) : option matched :=
  match match_at r s with
  | Some m => Some m
  | None =>
      match s with
      | [] => None
      | _ :: s' => search r s'
      end
  end.

(** [re.findall(r, s)] for a pattern without groups: the successive
    non-overlapping matches, left to right.  Every round consumes a
    character, so [S (length s)] rounds are enough. *)
Fixpoint findall_rounds (n : nat) (r : re) (s : str) : list str :=
  match n with
  | O => []
  | S n' =>
      match match_at r s with
      | Some m =>
          whole m ::
          match whole m, s with
          | [], _ :: s' => findall_rounds n' r s'
          | [], [] => []
          | _ :: _, _ => findall_rounds n' r (rest m)
          end
      | None =>
          match s with
          | [] => []
          | _ :: s' => findall_rounds n' r s'
          end
      end
  end.

Definition findall (r : re) (s : str) : list str :=
  findall_rounds (S (List.length s)) r s.

End Regex.

(* ================================================================== *)
(** ** Dates and times *)

(** [datetime.datetime], naive, on the proleptic Gregorian calendar. *)
Module Datetime.

Import PyStr Regex.
Local Open Scope Z_scope.

Record datetime := {
  year : Z; month : Z; day : Z;
  hour : Z; minute : Z; second : Z; microsecond : Z
}.

Definition is_leap (y : Z) : bool :=
  (y mod 4 =? 0) && (negb (y mod 100 =? 0) || (y mod 400 =? 0)).

Definition days_in_month (y m : Z) : Z :=
  match m with
  | 1 => 31 | 2 => if is_leap y then 29 else 28 | 3 => 31 | 4 => 30
  | 5 => 31 | 6 => 30 | 7 => 31 | 8 => 31 | 9 => 30 | 10 => 31
  | 11 => 30 | 12 => 31 | _ => 0
  end.

(** Days in the year before the first day of month [m]. *)
Definition days_before_month (y m : Z) : Z :=
  match m with
  | 1 => 0 | 2 => 31 | 3 => 59 | 4 => 90 | 5 => 120 | 6 => 151
  | 7 => 181 | 8 => 212 | 9 => 243 | 10 => 273 | 11 => 304 | 12 => 334
  | _ => 0
  end + (if (2 <? m) && is_leap y then 1 else 0).

(** Days before January 1st of year [y]. *)
Definition days_before_year (y : Z) : Z :=
  (y - 1) * 365 + (y - 1) / 4 - (y - 1) / 100 + (y - 1) / 400.

(** [date.toordinal()]: 0001-01-01 is day 1. *)
Definition ymd2ord (y m d : Z) : Z :=
  days_before_year y + days_before_month y m + d.

Definition MINYEAR : Z := 1.
Definition MAXYEAR : Z := 9999.

Definition valid_date (y m d : Z) : bool :=
  (MINYEAR <=? y) && (y <=? MAXYEAR) && (1 <=? m) && (m <=? 12) &&
  (1 <=? d) && (d <=? days_in_month y m).

(** [datetime(y, m, d)]; [None] is [ValueError]. *)
Definition make (y m d : Z) : option datetime :=
  if valid_date y m d then
    Some {| year := y; month := m; day := d;
            hour := 0; minute := 0; second := 0; microsecond := 0 |}
  else None.

(** The field ranges of a [datetime] object. *)
Definition valid (dt : datetime) : bool :=
  valid_date (year dt) (month dt) (day dt) &&
  (0 <=? hour dt) && (hour dt <? 24) &&
  (0 <=? minute dt) && (minute dt <? 60) &&
  (0 <=? second dt) && (second dt <? 60) &&
  (0 <=? microsecond dt) && (microsecond dt <? 1000000).

Definition DAY : Z := 86400000000.      (* microseconds in a day *)

(** Microseconds since the midnight that starts ordinal day 0. *)
Definition to_microseconds (dt : datetime) : Z :=
  ymd2ord (year dt) (month dt) (day dt) * DAY +
  ((hour dt * 60 + minute dt) * 60 + second dt) * 1000000 +
  microsecond dt.

(** The representable range: 0001-01-01T00:00:00 up to
    9999-12-31T23:59:59.999999. *)
Definition MIN_US : Z := 1 * DAY.
Definition MAX_US : Z := 3652059 * DAY + (DAY - 1).

(** [a <= b] on datetimes. *)
Definition le_us (a b : Z) : bool := a <=? b.

(** [(a - b).days]: a timedelta is normalised with its seconds and
    microseconds non-negative, so the days are rounded down. *)
Definition delta_days (a b : Z) : Z := (a - b) / DAY.

(** [dt + timedelta(days=n)], as microseconds; [None] is
    [OverflowError], raised when the sum (or the timedelta itself)
    leaves the representable range. *)
Definition add_days (dt : datetime) (n : Z) : option Z :=
  let c := to_microseconds dt + n * DAY in
  if (MIN_US <=? c) && (c <=? MAX_US) then Some c else None.

(** The date written [%04d-%02d-%02d]. *)
Definition ymd (dt : datetime) : str :=
  zpad 4 (year dt) ++ [45%N] ++ zpad 2 (month dt) ++ [45%N] ++ zpad 2 (day dt).

(** [dt.strftime('%Y-%m-%d')].  [%Y] is the year with century as the
    library documents it, 0001 to 9999; an interpreter that hands [%Y]
    to a C library which does not zero-fill writes a shorter year
    before the year 1000, and agrees with this from 1000 on. *)
Definition strftime_ymd (dt : datetime) : str := ymd dt.

(** [dt.isoformat()] *)
Definition isoformat (dt : datetime) : str :=
  ymd dt ++ [84%N] ++
  zpad 2 (hour dt) ++ [58%N] ++ zpad 2 (minute dt) ++ [58%N] ++
  zpad 2 (second dt) ++
  (if microsecond dt =? 0 then [] else 46%N :: zpad 6 (microsecond dt)).

Section Strptime.
Variable ud : unicode_digits.

Definition d_ : char -> bool := is_digit ud.              (* \d *)
Definition range (a b : char) (c : char) : bool :=
  ((a <=? c) && (c <=? b))%N.

(** The regular expression [_strptime] builds for ['%Y-%m-%d']:
    [(?P<Y>\d\d\d\d)-(?P<m>1[0-2]|0[1-9]|[1-9])-(?P<d>3[0-1]|[1-2]\d|0[1-9]|[1-9]| [1-9])] *)
Definition ymd_regex : re :=
  Seqs [
    Group (Times 4 (Chr d_));
    Lit 45;
    Group (Alts (Seq (Lit 49) (Chr (range 48 50)))
                [Seq (Lit 48) (Chr (range 49 57)); Chr (range 49 57)]);
    Lit 45;
    Group (Alts (Seq (Lit 51) (Chr (range 48 49)))
                [Seq (Chr (range 49 50)) (Chr d_);
                 Seq (Lit 48) (Chr (range 49 57));
                 Chr (range 49 57);
                 Seq (Lit 32) (Chr (range 49 57))])
  ]%N.

(** [datetime.strptime(s, '%Y-%m-%d')]; [None] is [ValueError]: the
    text does not match, text is left over after the match, or the
    numbers are no date. *)
Definition strptime_ymd (s : str) : option datetime :=
  match rmatch ymd_regex s with
  | Some {| groups := [y; m; d]; rest := [] |} =>
      match int ud y, int ud m, int ud d with
      | Some y', Some m', Some d' => make y' m' d'
      | _, _, _ => None
      end
  | _ => None
  end.

End Strptime.

End Datetime.

(* ================================================================== *)
(** ** The data model *)

(** The dictionaries the sources pass around, as records. *)
Module Model.

Local Open Scope Z_scope.

(** An inventory row: a dictionary with the keys ['product'],
    ['quantity'], ['expiry_date'] and ['scraped_at'].  A key may be
    missing (rows read back from the history file are whatever the file
    holds), so each field is optional. *)
Record item := {
  product : option str;
  quantity : option Z;
  expiry_date : option str;
  scraped_at : option str
}.

Inductive change_type := shipment | increase.

(** The [change_info] dictionary of [compare_inventory]; the key
    ['shipped_quantity'] is only set on shipments. *)
Record change_info := {
  ci_product : str;
  previous_quantity : Z;
  current_quantity : Z;
  quantity_diff : Z;
  previous_expiry : str;
  current_expiry : str;
  expiry_changed : bool;
  ci_timestamp : str;
  type : change_type;
  shipped_quantity : option Z
}.

Record new_product := {
  np_product : str;
  np_quantity : Z;
  np_expiry_date : str;
  np_timestamp : str
}.

Record removed_product := {
  rp_product : str;
  rp_previous_quantity : Z;
  rp_timestamp : str
}.

Record change_set := {
  changes : list change_info;
  new_products : list new_product;
  removed_products : list removed_product;
  timestamp : str
}.

(** What the history holds under a key: a listing, or the ISO text of
    a [<key>_timestamp] entry. *)
Inductive stored :=
| Listing (l : list item)
| Stamp (s : str).

Definition history := PyDict.t stored.

(** [datetime.now()]: the clock is read many times during a monitoring
    cycle; the [t]-th reading of the cycle is [clk t], and every
    function that reads the clock returns the index of the next
    reading. *)
Definition clock := nat -> Datetime.datetime.

(** An item of [get_expiring_soon_products]: a copy of the row with the
    key ['days_until_expiry'] added. *)
Record expiring := {
  row : item;
  days_until_expiry : Z
}.

End Model.

(* ================================================================== *)
(** ** JSON *)

(** [json.dumps(history, ensure_ascii=False, indent=2)] on the snapshot
    store. *)
Module Json.

Import PyStr Model.

Definition hex_digit (n : N) : char :=
  (if n <? 10 then 48 + n else 87 + n)%N.

(** The escapes of [json.encoder] with [ensure_ascii=False]. *)
Definition escape_char (c : char) : str :=
  (if c =? 34 then [92; 34]
   else if c =? 92 then [92; 92]
   else if c =? 10 then [92; 110]
   else if c =? 13 then [92; 114]
   else if c =? 9 then [92; 116]
   else if c =? 8 then [92; 98]
   else if c =? 12 then [92; 102]
   else if c <? 32 then [92; 117; 48; 48; hex_digit (c / 16); hex_digit (c mod 16)]
   else [c])%N.

Definition encode_str (s : str) : str :=
  [34%N] ++ flat_map escape_char s ++ [34%N].

(** A line break followed by the indentation of nesting level [n]. *)
Definition newline_indent (n : nat) : str := 10%N :: repeat 32%N (2 * n).

Fixpoint join (sep : str) (parts : list str) : str :=
  match parts with
  | [] => []
  | [x] => x
  | x :: rest => x ++ sep ++ join sep rest
  end.

(** A container with its members, [open] and [close] being its
    brackets, at nesting level [n]. *)
Definition container (opening closing : char) (n : nat) (members : list str) : str :=
  match members with
  | [] => [opening; closing]
  | _ =>
      [opening] ++ newline_indent (S n) ++
      join (44%N :: newline_indent (S n)) members ++
      newline_indent n ++ [closing]
  end.

Definition member (key : str) (value : str) : str :=
  encode_str key ++ [58; 32]%N ++ value.

Definition optional {A} (key : str) (enc : A -> str) (field : option A) : list str :=
  match field with
  | Some a => [member key (enc a)]
  | None => []
  end.

Definition encode_item (n : nat) (it : item) : str :=
  container 123%N 125%N n
    (optional (u"product") encode_str (product it) ++
     optional (u"quantity") of_int (quantity it) ++
     optional (u"expiry_date") encode_str (expiry_date it) ++
     optional (u"scraped_at") encode_str (scraped_at it)).

Definition encode_stored (n : nat) (v : stored) : str :=
  match v with
  | Listing l => container 91%N 93%N n (map (encode_item (S n)) l)
  | Stamp s => encode_str s
  end.

Definition dumps (h : history) : str :=
  container 123%N 125%N 0
    (map (fun kv => member (fst kv) (encode_stored 1 (snd kv))) h).

End Json.

(* ================================================================== *)
(** ** Effects *)

(** What the program does to the world: the history held by the
    monitor, the history file, the log, the mails, the console and the
    spreadsheet.  A computation takes a state to an outcome and a
    state; an exception leaves the state as it is where it is raised. *)
Module Effects.

Import Py Model.

(** The history file on disk: absent, present but not readable, or
    present with a content. *)
Inductive file_state :=
| Missing
| Unreadable
| Content (s : str).

Inductive level := DEBUG | INFO | WARNING | ERROR.

(** The log messages, by the place that writes them. *)
Inductive message :=
| history_load_error
| history_saved
| history_save_error
| header_error (sheet : str)
| rows_appended (n : nat) (sheet : str)
| append_error (sheet : str)
| inventory_saved_to_sheets (n : nat)
| inventory_sheets_error (e : exn)
| changes_saved_to_sheets (n : nat)
| changes_sheets_error (e : exn)
| check_started
| no_inventory
| inventory_fetched (n : nat)
| shipments_detected (n : nat)
| new_products_detected (n : nat)
| check_done
| check_error (e : exn)
| no_shipment
| no_notification_email
| no_smtp_credentials
| mail_sent
| mail_error (e : exn)
| expiring_found (days : Z) (n : nat)
| expiry_mail_sent.

(** A row of the stock section of a shipment notification. *)
Record stock_line := {
  sl_product : str;
  sl_quantity : Z;
  sl_expiry_date : str
}.

(** A row of an expiry notification. *)
Record expiry_line := {
  el_product : str;
  el_quantity : Z;
  el_expiry_date : str;
  el_days : Z
}.

(** The observable effects, apart from the history file. *)
Inductive event :=
| Log (lvl : level) (m : message)
| Mail_shipment (shipments : list change_info) (stock : list stock_line)
| Mail_expiry (lines : list expiry_line) (days : Z)
| Print_shipment (shipments : list change_info)
| Print_stock (stock : list stock_line)
| Print_expiry (lines : list expiry_line) (days : Z)
| Sheets_update_header (sheet : str) (header : list str)
| Sheets_append (sheet : str) (rows : list (list str)).

(** The configuration of the monitor and of the notifier. *)
Record config := {
  sheets_client : bool;              (* a Sheets client was built *)
  notification_email : option str;   (* NOTIFICATION_EMAIL *)
  smtp_username : option str;        (* SMTP_USERNAME *)
  smtp_password : option str         (* SMTP_PASSWORD *)
}.

(** How the write of the history file ends. *)
Inductive write_outcome :=
| Written                       (* the whole document is on disk *)
| Open_fails                    (* [open] raises: the file is as before *)
| Write_fails (written : nat).  (* raises after [written] characters *)

(** What the outside world answers during one monitoring cycle. *)
Record oracle := {
  clk : clock;
  fetch : result (list item);                 (* get_current_inventory *)
  write : write_outcome;                      (* open(..., 'w') and json.dump *)
  header_row : str -> result (list str);      (* values().get(range=sheet!1:1) *)
  update_ok : str -> bool;                    (* values().update(...) *)
  append_ok : str -> bool;                    (* values().append(...) *)
  smtp_ok : bool                              (* smtplib delivery *)
}.

Record state := {
  monitor_history : history;    (* monitor.history *)
  file : file_state;            (* monitor.storage_file *)
  ticks : nat;                  (* clock readings of the cycle so far *)
  trace : list event            (* effects so far, oldest first *)
}.

Definition M (A : Type) := state -> result A * state.

Definition ret {A} (a : A) : M A := fun s => (Ok a, s).

Definition raise {A} (e : exn) : M A := fun s => (Raise e, s).

Definition mbind {A B} (c : M A) (k : A -> M B) : M B :=
  fun s =>
    match c s with
    | (Ok a, s') => k a s'
    | (Raise e, s') => (Raise e, s')
    end.

(** [try: c except Exception as e: h e] *)
Definition try_except {A} (c : M A) (h : exn -> M A) : M A :=
  fun s =>
    match c s with
    | (Ok a, s') => (Ok a, s')
    | (Raise e, s') => h e s'
    end.

Definition lift {A} (r : result A) : M A := fun s => (r, s).

Definition emit (ev : event) : M unit :=
  fun s => (Ok tt, {| monitor_history := monitor_history s; file := file s; ticks := ticks s;
                      trace := trace s ++ [ev] |}).

Definition log (lvl : level) (m : message) : M unit := emit (Log lvl m).

Definition get_history : M history := fun s => (Ok (monitor_history s), s).

Definition set_history (h : history) : M unit :=
  fun s => (Ok tt, {| monitor_history := h; file := file s; ticks := ticks s;
                      trace := trace s |}).

Definition get_file : M file_state := fun s => (Ok (file s), s).

Definition set_file (f : file_state) : M unit :=
  fun s => (Ok tt, {| monitor_history := monitor_history s; file := f; ticks := ticks s;
                      trace := trace s |}).

(** [datetime.now()] *)
Definition now (o : oracle) : M Datetime.datetime :=
  fun s => (Ok (clk o (ticks s)),
            {| monitor_history := monitor_history s; file := file s; ticks := S (ticks s);
               trace := trace s |}).

(** A function that threads the index of the clock reading. *)
Definition with_clock {A} (f : nat -> result (A * nat)) : M A :=
  fun s =>
    match f (ticks s) with
    | Ok (a, t') => (Ok a, {| monitor_history := monitor_history s; file := file s; ticks := t';
                              trace := trace s |})
    | Raise e => (Raise e, s)
    end.

(** Python truthiness of a string option: set and not empty. *)
Definition truthy (v : option str) : bool :=
  match v with
  | Some (_ :: _) => true
  | _ => false
  end.

End Effects.

Notation "x <~ c ;; k" := (Effects.mbind c (fun x => k))
  (at level 61, c at next level, right associativity).
Notation "c ;;; k" := (Effects.mbind c (fun _ => k))
  (at level 61, right associativity).

(* ================================================================== *)
(** ** inventory_monitor.py: the differ and the expiry scanner *)

Module InventoryMonitor.

Import Py Model.
Local Open Scope Z_scope.

(** [datetime.now().isoformat()] *)
Definition now_iso (clk : clock) (t : nat) : str := Datetime.isoformat (clk t).

Definition k_product := u"product".
Definition k_quantity := u"quantity".
Definition k_expiry_date := u"expiry_date".

(** [{item['product']: item for item in listing}], continued from [d]. *)
Fixpoint index_by_product (l : list item) (d : PyDict.t item)
  : result (PyDict.t item) :=
  match l with
  | [] => Ok d
  | it :: l' =>
      name <- getitem k_product (product it) ;;
      index_by_product l' (PyDict.set name it d)
  end.

(** The same comprehension over [self.history.get(previous_key, [])].
    Iterating a timestamp text yields its characters, and indexing a
    character with ['product'] is a [TypeError]. *)
Definition index_previous (previous : stored) : result (PyDict.t item) :=
  match previous with
  | Listing l => index_by_product l PyDict.empty
  | Stamp [] => Ok PyDict.empty
  | Stamp (_ :: _) => Raise TypeError
  end.

(** The body of the first loop for a product found in both listings:
    [None] when neither quantity nor expiry changed. *)
Definition compare_item (clk : clock) (t : nat) (product_name : str)
    (current_item prev_item : item) : result (option change_info) :=
  cur_q <- getitem k_quantity (quantity current_item) ;;
  prev_q <- getitem k_quantity (quantity prev_item) ;;
  let quantity_diff := cur_q - prev_q in
  cur_e <- getitem k_expiry_date (expiry_date current_item) ;;
  let prev_e := get_default (expiry_date prev_item) [] in
  let expiry_changed := negb (PyStr.eqb cur_e prev_e) in
  if negb (quantity_diff =? 0) || expiry_changed then
    Ok (Some {|
      ci_product := product_name;
      previous_quantity := prev_q;
      current_quantity := cur_q;
      quantity_diff := quantity_diff;
      previous_expiry := prev_e;
      current_expiry := cur_e;
      expiry_changed := expiry_changed;
      ci_timestamp := now_iso clk t;
      type := if quantity_diff <? 0 then shipment else increase;
      shipped_quantity :=
        if quantity_diff <? 0 then Some (Z.abs quantity_diff) else None
    |})
  else Ok None.

(** [for product_name, current_item in current_dict.items()]: the
    changes and the new products, in iteration order. *)
Fixpoint scan_current (clk : clock) (previous_dict : PyDict.t item)
    (its : list (str * item)) (t : nat)
  : result (list change_info * list new_product * nat) :=
  match its with
  | [] => Ok ([], [], t)
  | (product_name, current_item) :: rest =>
      match PyDict.get product_name previous_dict with
      | Some prev_item =>
          c <- compare_item clk t product_name current_item prev_item ;;
          match c with
          | Some change =>
              r <- scan_current clk previous_dict rest (S t) ;;
              let '(chs, nws, t') := r in Ok (change :: chs, nws, t')
          | None => scan_current clk previous_dict rest t
          end
      | None =>
          q <- getitem k_quantity (quantity current_item) ;;
          e <- getitem k_expiry_date (expiry_date current_item) ;;
          let nw := {| np_product := product_name; np_quantity := q;
                       np_expiry_date := e; np_timestamp := now_iso clk t |} in
          r <- scan_current clk previous_dict rest (S t) ;;
          let '(chs, nws, t') := r in Ok (chs, nw :: nws, t')
      end
  end.

(** [for product_name, prev_item in previous_dict.items()]: the removed
    products. *)
Fixpoint scan_previous (clk : clock) (current_dict : PyDict.t item)
    (its : list (str * item)) (t : nat)
  : result (list removed_product * nat) :=
  match its with
  | [] => Ok ([], t)
  | (product_name, prev_item) :: rest =>
      if PyDict.mem product_name current_dict then
        scan_previous clk current_dict rest t
      else
        q <- getitem k_quantity (quantity prev_item) ;;
        let rm := {| rp_product := product_name; rp_previous_quantity := q;
                     rp_timestamp := now_iso clk t |} in
        r <- scan_previous clk current_dict rest (S t) ;;
        let '(rms, t') := r in Ok (rm :: rms, t')
  end.

(** [InventoryMonitor.compare_inventory(current, previous_key)], with
    the history it reads and the clock made explicit. *)
Definition compare_inventory (clk : clock) (t : nat) (h : history)
    (current : list item) (previous_key : str)
  : result (change_set * nat) :=
  let previous := get_default (PyDict.get previous_key h) (Listing []) in
  current_dict <- index_by_product current PyDict.empty ;;
  previous_dict <- index_previous previous ;;
  r1 <- scan_current clk previous_dict current_dict t ;;
  let '(chs, nws, t1) := r1 in
  r2 <- scan_previous clk current_dict previous_dict t1 ;;
  let '(rms, t2) := r2 in
  Ok ({| changes := chs; new_products := nws; removed_products := rms;
         timestamp := now_iso clk t2 |}, S t2).

(** The differ on two listings: [compare_inventory] against a history
    whose [previous_key] entry is [previous]. *)
Definition diff (clk : clock) (t : nat) (current previous : list item)
  : result (change_set * nat) :=
  compare_inventory clk t [(u"latest", Listing previous)] current (u"latest").

(** Insertion by key: [x] goes before the first element whose key is
    not smaller. *)
Fixpoint insert_by_days (x : expiring) (l : list expiring) : list expiring :=
  match l with
  | [] => [x]
  | y :: l' =>
      if days_until_expiry y <? days_until_expiry x
      then y :: insert_by_days x l'
      else x :: y :: l'
  end.

(** [l.sort(key=lambda x: x.get('days_until_expiry', 999))]: the sort is
    stable (elements with equal keys keep their order), so its result
    is that of inserting the elements from the last to the first, each
    in front of the elements with the same key. *)
Fixpoint sort_by_days (l : list expiring) : list expiring :=
  match l with
  | [] => []
  | x :: l' => insert_by_days x (sort_by_days l')
  end.

Section Expiry.
Variable ud : PyStr.unicode_digits.

(** The [try] block of the scan for one row: [None] when the row is
    skipped ([KeyError], [ValueError]) or lies after the cutoff. *)
Definition scan_item (clk : clock) (cutoff_date : Z) (t : nat) (it : item)
  : option expiring :=
  match expiry_date it with
  | None => None
  | Some s =>
      match Datetime.strptime_ymd ud s with
      | None => None
      | Some expiry =>
          let e := Datetime.to_microseconds expiry in
          if Datetime.le_us e cutoff_date then
            Some {| row := it;
                    days_until_expiry :=
                      Datetime.delta_days e (Datetime.to_microseconds (clk t)) |}
          else None
      end
  end.

Fixpoint scan_expiry (clk : clock) (cutoff_date : Z) (inventory : list item)
    (t : nat) : list expiring * nat :=
  match inventory with
  | [] => ([], t)
  | it :: rest =>
      match scan_item clk cutoff_date t it with
      | Some x =>
          let '(xs, t') := scan_expiry clk cutoff_date rest (S t) in
          (x :: xs, t')
      | None => scan_expiry clk cutoff_date rest t
      end
  end.

(** [InventoryMonitor.get_expiring_soon_products(inventory, days)] *)
Definition get_expiring_soon_products (clk : clock) (t : nat)
    (inventory : list item) (days : Z) : result (list expiring * nat) :=
  match Datetime.add_days (clk t) days with
  | None => Raise OverflowError
  | Some cutoff_date =>
      let '(expiring_soon, t') := scan_expiry clk cutoff_date inventory (S t) in
      Ok (sort_by_days expiring_soon, t')
  end.

End Expiry.

(** *** The history and the spreadsheet *)

Import Effects.

Section Store.
(** [json.load] on the content of the history file: the store it
    holds, or [None] when it raises.  (A document that parses to
    something else than a store is outside this typed model.) *)
Variable json_load : str -> option history.

(** [InventoryMonitor._load_history()] *)
Definition _load_history : M history :=
  f <~ get_file ;;
  match f with
  | Missing => ret PyDict.empty
  | Unreadable => log ERROR history_load_error ;;; ret PyDict.empty
  | Content s =>
      match json_load s with
      | Some h => ret h
      | None => log ERROR history_load_error ;;; ret PyDict.empty
      end
  end.

(** [InventoryMonitor.__init__]: the part that sets [self.history]. *)
Definition init : M unit :=
  h <~ _load_history ;;
  set_history h.

End Store.

(** The file while [_save_history] writes [h], when [written]
    characters of the document have reached it: [open(..., 'w')]
    empties the file, then the document is written front to back. *)
Definition partly_written (h : history) (written : nat) : file_state :=
  Content (firstn written (Json.dumps h)).

(** [InventoryMonitor._save_history()] *)
Definition _save_history (o : oracle) : M unit :=
  h <~ get_history ;;
  match write o with
  | Written =>
      set_file (Content (Json.dumps h)) ;;;
      log DEBUG history_saved
  | Open_fails => log ERROR history_save_error
  | Write_fails written =>
      set_file (partly_written h written) ;;;
      log ERROR history_save_error
  end.

(** [GoogleSheetsClient.get_header_row(sheet_name)]: an [HttpError] is
    logged and answered by the empty row. *)
Definition get_header_row (o : oracle) (sheet_name : str) : M (list str) :=
  match header_row o sheet_name with
  | Ok values => ret values
  | Raise HttpError => log ERROR (header_error sheet_name) ;;; ret []
  | Raise e => raise e
  end.

(** [service.spreadsheets().values().update(range=sheet!1:1, ...)] *)
Definition update_header (o : oracle) (sheet_name : str) (header : list str)
  : M unit :=
  if update_ok o sheet_name
  then emit (Sheets_update_header sheet_name header)
  else raise HttpError.

(** [GoogleSheetsClient.append_rows(sheet_name, values)] *)
Definition append_rows (o : oracle) (sheet_name : str) (values : list (list str))
  : M unit :=
  if append_ok o sheet_name then
    emit (Sheets_append sheet_name values) ;;;
    log INFO (rows_appended (List.length values) sheet_name)
  else
    log ERROR (append_error sheet_name) ;;;
    raise HttpError.

Definition inventory_header : list str :=
  [u"商品名"; u"数量"; u"賞味期限"; u"取得日時"].

Definition changes_header : list str :=
  [u"日時"; u"商品名"; u"変更タイプ"; u"前回数量"; u"現在数量";
   u"数量差分"; u"前回賞味期限"; u"現在賞味期限"; u"出荷数量"].

(** The rows of [_save_to_sheets]; the default of
    [item.get('scraped_at', datetime.now().isoformat())] is evaluated
    for every row. *)
Fixpoint inventory_rows (o : oracle) (inventory : list item) : M (list (list str)) :=
  match inventory with
  | [] => ret []
  | it :: rest =>
      p <~ lift (getitem k_product (product it)) ;;
      q <~ lift (getitem k_quantity (quantity it)) ;;
      e <~ lift (getitem k_expiry_date (expiry_date it)) ;;
      n <~ now o ;;
      rows <~ inventory_rows o rest ;;
      ret ([p; PyStr.of_int q; e;
            get_default (scraped_at it) (Datetime.isoformat n)] :: rows)
  end.

(** [InventoryMonitor._save_to_sheets(inventory, sheet_name)] *)
Definition _save_to_sheets (cfg : config) (o : oracle) (inventory : list item)
    (sheet_name : str) : M unit :=
  if negb (sheets_client cfg) then ret tt
  else
    try_except
      (headers <~ get_header_row o sheet_name ;;
       match headers with
       | [] => update_header o sheet_name inventory_header
       | _ => ret tt
       end ;;;
       rows <~ inventory_rows o inventory ;;
       match rows with
       | [] => ret tt
       | _ =>
           append_rows o sheet_name rows ;;;
           log INFO (inventory_saved_to_sheets (List.length rows))
       end)
      (fun e => log ERROR (inventory_sheets_error e)).

Definition type_name (ty : change_type) : str :=
  match ty with
  | shipment => u"shipment"
  | increase => u"increase"
  end.

(** A row of [save_changes_to_sheets]. *)
Definition change_row (change : change_info) : list str :=
  [ci_timestamp change; ci_product change; type_name (type change);
   PyStr.of_int (previous_quantity change);
   PyStr.of_int (current_quantity change);
   PyStr.of_int (quantity_diff change);
   previous_expiry change; current_expiry change;
   match shipped_quantity change with
   | Some q => PyStr.of_int q
   | None => []
   end].

Definition changes_sheet : str := u"InventoryChanges".

(** [InventoryMonitor.save_changes_to_sheets(changes, sheet_name)] *)
Definition save_changes_to_sheets (cfg : config) (o : oracle) (cs : change_set)
    (sheet_name : str) : M unit :=
  if negb (sheets_client cfg) then ret tt
  else
    try_except
      (headers <~ get_header_row o sheet_name ;;
       match headers with
       | [] => update_header o sheet_name changes_header
       | _ => ret tt
       end ;;;
       let rows := map change_row (changes cs) in
       match rows with
       | [] => ret tt
       | _ =>
           append_rows o sheet_name rows ;;;
           log INFO (changes_saved_to_sheets (List.length rows))
       end)
      (fun e => log ERROR (changes_sheets_error e)).

Definition k_timestamp_suffix : str := u"_timestamp".

(** [InventoryMonitor.save_inventory_snapshot(inventory, key)] *)
Definition save_inventory_snapshot (cfg : config) (o : oracle)
    (inventory : list item) (key : str) : M unit :=
  h <~ get_history ;;
  set_history (PyDict.set key (Listing inventory) h) ;;;
  n <~ now o ;;
  h' <~ get_history ;;
  set_history (PyDict.set (key ++ k_timestamp_suffix)
                          (Stamp (Datetime.isoformat n)) h') ;;;
  _save_history o ;;;
  if sheets_client cfg then _save_to_sheets cfg o inventory key else ret tt.

(** [InventoryMonitor.get_current_inventory(...)]: what the scraper
    returns, or the exception it raises. *)
Definition get_current_inventory (o : oracle) : M (list item) := lift (fetch o).

End InventoryMonitor.

(* ================================================================== *)
(** ** inventory_notifier.py *)

Module InventoryNotifier.

Import Py Model Effects.

Definition is_shipment (c : change_info) : bool :=
  match type c with
  | shipment => true
  | increase => false
  end.

(** The stock section of a notification: the rows of the inventory
    whose product is among the shipments, up to the first row that lacks
    a key, and the [KeyError] raised there if any. *)
Fixpoint stock_lines (shipment_products : list str) (inventory : list item)
  : list stock_line * option exn :=
  match inventory with
  | [] => ([], None)
  | it :: rest =>
      match product it with
      | None => ([], Some (KeyError InventoryMonitor.k_product))
      | Some p =>
          if existsb (PyStr.eqb p) shipment_products then
            match quantity it, expiry_date it with
            | Some q, Some e =>
                let '(ls, err) := stock_lines shipment_products rest in
                ({| sl_product := p; sl_quantity := q; sl_expiry_date := e |} :: ls,
                 err)
            | None, _ => ([], Some (KeyError InventoryMonitor.k_quantity))
            | _, None => ([], Some (KeyError InventoryMonitor.k_expiry_date))
            end
          else stock_lines shipment_products rest
      end
  end.

(** [smtplib.SMTP(...)] and [send_message]. *)
Definition smtp_send (o : oracle) (mail : event) : M unit :=
  if smtp_ok o then emit mail else raise OSError.

(** [InventoryNotifier._send_email_notification(shipments, inventory)] *)
Definition _send_email_notification (cfg : config) (o : oracle)
    (shipments : list change_info) (inventory : list item) : M unit :=
  if negb (truthy (smtp_username cfg)) || negb (truthy (smtp_password cfg)) then
    log WARNING no_smtp_credentials
  else
    try_except
      (_ <~ now o ;;
       match stock_lines (map ci_product shipments) inventory with
       | (stock, None) =>
           smtp_send o (Mail_shipment shipments stock) ;;;
           log INFO mail_sent
       | (_, Some e) => raise e
       end)
      (fun e => log ERROR (mail_error e)).

(** [InventoryNotifier._print_notification(shipments, inventory)] *)
Definition _print_notification (o : oracle) (shipments : list change_info)
    (inventory : list item) : M unit :=
  _ <~ now o ;;
  emit (Print_shipment shipments) ;;;
  match inventory with
  | [] => ret tt
  | _ =>
      let '(stock, err) := stock_lines (map ci_product shipments) inventory in
      emit (Print_stock stock) ;;;
      match err with
      | None => ret tt
      | Some e => raise e
      end
  end.

(** [InventoryNotifier.notify_shipment(changes, inventory)] *)
Definition notify_shipment (cfg : config) (o : oracle) (cs : change_set)
    (inventory : list item) : M unit :=
  let shipments := filter is_shipment (changes cs) in
  match shipments with
  | [] => log INFO no_shipment
  | _ =>
      log INFO (shipments_detected (List.length shipments)) ;;;
      (if truthy (notification_email cfg)
       then _send_email_notification cfg o shipments inventory
       else log WARNING no_notification_email) ;;;
      _print_notification o shipments inventory
  end.

(** The rows of an expiry notification, up to the first row that lacks a
    key. *)
Fixpoint expiry_lines (expiring_products : list expiring)
  : list expiry_line * option exn :=
  match expiring_products with
  | [] => ([], None)
  | x :: rest =>
      match product (row x), quantity (row x), expiry_date (row x) with
      | Some p, Some q, Some e =>
          let '(ls, err) := expiry_lines rest in
          ({| el_product := p; el_quantity := q; el_expiry_date := e;
              el_days := days_until_expiry x |} :: ls, err)
      | None, _, _ => ([], Some (KeyError InventoryMonitor.k_product))
      | _, None, _ => ([], Some (KeyError InventoryMonitor.k_quantity))
      | _, _, None => ([], Some (KeyError InventoryMonitor.k_expiry_date))
      end
  end.

(** [InventoryNotifier._send_expiry_email(expiring_products, days)] *)
Definition _send_expiry_email (cfg : config) (o : oracle)
    (expiring_products : list expiring) (days : Z) : M unit :=
  if negb (truthy (smtp_username cfg)) || negb (truthy (smtp_password cfg)) then
    ret tt
  else
    try_except
      (match expiry_lines expiring_products with
       | (ls, None) =>
           smtp_send o (Mail_expiry ls days) ;;;
           log INFO expiry_mail_sent
       | (_, Some e) => raise e
       end)
      (fun e => log ERROR (mail_error e)).

(** [InventoryNotifier.notify_expiring_soon(expiring_products, days)] *)
Definition notify_expiring_soon (cfg : config) (o : oracle)
    (expiring_products : list expiring) (days : Z) : M unit :=
  match expiring_products with
  | [] => ret tt
  | _ =>
      log INFO (expiring_found days (List.length expiring_products)) ;;;
      (if truthy (notification_email cfg)
       then _send_expiry_email cfg o expiring_products days
       else ret tt) ;;;
      let '(ls, err) := expiry_lines expiring_products in
      emit (Print_expiry ls days) ;;;
      match err with
      | None => ret tt
      | Some e => raise e
      end
  end.

End InventoryNotifier.

(* ================================================================== *)
(** ** inventory_monitor_main.py *)

Module MonitorMain.

Import Py Model Effects.

Section Main.
Variable ud : PyStr.unicode_digits.

Definition k_latest : str := u"latest".

(** [check_inventory_once(monitor, notifier, ...)]: one monitoring
    cycle.  The [try] block as a computation of its own. *)
Definition cycle_body (cfg : config) (o : oracle) (check_expiry : bool)
    (expiry_days : Z) : M unit :=
  log INFO check_started ;;;
  current_inventory <~ InventoryMonitor.get_current_inventory o ;;
  match current_inventory with
  | [] => log WARNING no_inventory
  | _ =>
      log INFO (inventory_fetched (List.length current_inventory)) ;;;
      h <~ get_history ;;
      cs <~ with_clock (fun t =>
              InventoryMonitor.compare_inventory (clk o) t h current_inventory k_latest) ;;
      let shipments := filter InventoryNotifier.is_shipment (changes cs) in
      match shipments with
      | [] => ret tt
      | _ =>
          log INFO (shipments_detected (List.length shipments)) ;;;
          InventoryNotifier.notify_shipment cfg o cs current_inventory ;;;
          InventoryMonitor.save_changes_to_sheets cfg o cs InventoryMonitor.changes_sheet
      end ;;;
      match new_products cs with
      | [] => ret tt
      | _ => log INFO (new_products_detected (List.length (new_products cs)))
      end ;;;
      InventoryMonitor.save_inventory_snapshot cfg o current_inventory k_latest ;;;
      (if check_expiry then
         expiring_products <~ with_clock (fun t =>
           InventoryMonitor.get_expiring_soon_products ud (clk o) t
             current_inventory expiry_days) ;;
         match expiring_products with
         | [] => ret tt
         | _ => InventoryNotifier.notify_expiring_soon cfg o expiring_products expiry_days
         end
       else ret tt) ;;;
      log INFO check_done
  end.

Definition check_inventory_once (cfg : config) (o : oracle) (check_expiry : bool)
    (expiry_days : Z) : M unit :=
  try_except (cycle_body cfg o check_expiry expiry_days)
             (fun e => log ERROR (check_error e)).

(** The state in which a cycle starts: its clock readings are counted
    from zero. *)
Definition start_cycle (s : state) : state :=
  {| monitor_history := monitor_history s; file := file s; ticks := 0;
     trace := trace s |}.

(** One cycle as a step on states. *)
Definition cycle (cfg : config) (check_expiry : bool) (expiry_days : Z)
    (s : state) (o : oracle) : state :=
  snd (check_inventory_once cfg o check_expiry expiry_days (start_cycle s)).

(** [run_scheduled_monitoring]: the first check and the scheduled ones,
    one after the other; [cycles] holds what the world answers in each
    of the cycles run so far. *)
Definition run_scheduled_monitoring (cfg : config) (check_expiry : bool)
    (expiry_days : Z) (cycles : list oracle) (s : state) : state :=
  fold_left (cycle cfg check_expiry expiry_days) cycles s.

End Main.

End MonitorMain.

(* ================================================================== *)
(** ** data_extractor.py *)

Module OrderDataExtractor.

Import Py PyStr Regex.
Local Open Scope Z_scope.

(** An item of [extract_items]: a dictionary in which each key is set
    when the scan found the field. *)
Record order_item := {
  product_name : option str;
  quantity : option str;
  unit_price : option str;
  amount : option str
}.

Section Extractor.
Variable ud : unicode_digits.

Definition digit : char -> bool := is_digit ud.                 (* \d *)

Definition c_year : char := 24180%N.       (* 年 *)
Definition c_month : char := 26376%N.      (* 月 *)
Definition c_day : char := 26085%N.        (* 日 *)
Definition c_yen : char := 20870%N.        (* 円 *)
Definition c_slash : char := 47%N.
Definition c_hyphen : char := 45%N.
Definition c_comma : char := 44%N.
Definition c_colon : char := 58%N.
Definition c_wide_colon : char := 65306%N. (* ： *)

(** [self.date_patterns]:
    [(\d{4})[年/](\d{1,2})[月/](\d{1,2})[日]?],
    [(\d{2})[年/](\d{1,2})[月/](\d{1,2})[日]?],
    [(\d{4})-(\d{1,2})-(\d{1,2})]. *)
Definition date_patterns : list re :=
  [ Seqs [Group (Times 4 (Chr digit)); Chr (one_of [c_year; c_slash]);
          Group (Upto2 digit); Chr (one_of [c_month; c_slash]);
          Group (Upto2 digit); Opt (Chr (one_of [c_day]))];
    Seqs [Group (Times 2 (Chr digit)); Chr (one_of [c_year; c_slash]);
          Group (Upto2 digit); Chr (one_of [c_month; c_slash]);
          Group (Upto2 digit); Opt (Chr (one_of [c_day]))];
    Seqs [Group (Times 4 (Chr digit)); Lit c_hyphen;
          Group (Upto2 digit); Lit c_hyphen;
          Group (Upto2 digit)] ].

(** The century guessed for a two-digit year. *)
Definition two_digit_year (year_int : Z) : Z :=
  if year_int <=? 30 then 2000 + year_int else 1900 + year_int.

(** The year after the conversion of two-digit years.  [int] of a
    two-character year is taken outside the [try] block: where it
    fails the exception leaves [extract_date].  The outer [None] is a
    [ValueError] inside the [try] block.  The text written by
    [str(2000 + year_int)] is read back by [int] as the same number. *)
Definition convert_year (year : str) : result (option Z) :=
  if (List.length year =? 2)%nat then
    match int ud year with
    | None => Raise ValueError
    | Some year_int =>
        if (0 <=? year_int) && (year_int <=? 99)
        then Ok (Some (two_digit_year year_int))
        else Ok (Some year_int)
    end
  else Ok (int ud year).

(** The [try] block: [datetime(int(year), int(month), int(day))] and
    its [strftime]; [None] is the [ValueError] that makes the loop go
    on to the next pattern. *)
Definition normalise (year : option Z) (month day : str) : option str :=
  match year, int ud month, int ud day with
  | Some y, Some m, Some d => option_map Datetime.strftime_ymd (Datetime.make y m d)
  | _, _, _ => None
  end.

(** The loop of [extract_date] over the patterns that are left. *)
Fixpoint extract_date_from (patterns : list re) (text : str) : result (option str) :=
  match patterns with
  | [] => Ok None
  | pattern :: rest =>
      match search pattern text with
      | None => extract_date_from rest text
      | Some m =>
          match groups m with
          | [year; month; day] =>
              y <- convert_year year ;;
              match normalise y month day with
              | Some date => Ok (Some date)
              | None => extract_date_from rest text
              end
          | _ => Raise ValueError
          end
      end
  end.

(** [OrderDataExtractor.extract_date(text)] *)
Definition extract_date (text : str) : result (option str) :=
  extract_date_from date_patterns text.

Definition label_sep (c : char) : bool :=                    (* [：:\s] *)
  one_of [c_wide_colon; c_colon] c || is_space c.
Definition number_char (c : char) : bool :=                  (* [\d,] *)
  digit c || N.eqb c c_comma.
Definition numeric_char (c : char) : bool :=                 (* [\d\s,円] *)
  digit c || is_space c || one_of [c_comma; c_yen] c.

(** [self.quantity_pattern]: [数量[：:\s]*([\d,]+)] *)
Definition quantity_pattern : re :=
  Seqs [Word (u"数量"); Star label_sep; Group (Plus number_char)].

(** [self.unit_price_pattern]: [単価[：:\s]*([\d,]+)] *)
Definition unit_price_pattern : re :=
  Seqs [Word (u"単価"); Star label_sep; Group (Plus number_char)].

(** [self.amount_pattern]: [[\d,]+[円]?] *)
Definition amount_pattern : re :=
  Seq (Plus number_char) (Opt (Lit c_yen)).

(** [^[\d\s,円]+$], used with [re.match], which anchors at the start. *)
Definition numeric_line : re := Seq (Plus numeric_char) Eol.

(** [match.group(1)]: the patterns above have one group. *)
Definition group1 (m : matched) : str := nth 0 (groups m) [].

Definition empty_item : order_item :=
  {| product_name := None; quantity := None; unit_price := None; amount := None |}.

(** [bool(current_item)]: some key is set. *)
Definition nonempty (it : order_item) : bool :=
  match product_name it, quantity it, unit_price it, amount it with
  | None, None, None, None => false
  | _, _, _, _ => true
  end.

(** The body of the loop of [extract_items] for one line. *)
Definition scan_line (current_item : order_item) (raw : str) : order_item :=
  let line := strip raw in
  match line with
  | [] => current_item
  | _ =>
      let it1 :=
        match search quantity_pattern line with
        | Some m =>
            {| product_name := product_name current_item;
               quantity := Some (remove_char c_comma (group1 m));
               unit_price := unit_price current_item;
               amount := amount current_item |}
        | None => current_item
        end in
      let it2 :=
        match search unit_price_pattern line with
        | Some m =>
            {| product_name := product_name it1;
               quantity := quantity it1;
               unit_price := Some (remove_char c_comma (group1 m));
               amount := amount it1 |}
        | None => it1
        end in
      let it3 :=
        match findall amount_pattern line, amount it2 with
        | first :: _, None =>
            {| product_name := product_name it2;
               quantity := quantity it2;
               unit_price := unit_price it2;
               amount := Some (remove_char c_yen (remove_char c_comma first)) |}
        | _, _ => it2
        end in
      match rmatch numeric_line line, product_name it3 with
      | None, None =>
          if (2 <? List.length line)%nat then
            {| product_name := Some line;
               quantity := quantity it3;
               unit_price := unit_price it3;
               amount := amount it3 |}
          else it3
      | _, _ => it3
      end
  end.

(** [OrderDataExtractor.extract_items(text)] *)
Definition extract_items (text : str) : list order_item :=
  let lines := split 10%N text in
  let current_item := fold_left scan_line lines empty_item in
  if nonempty current_item then [current_item] else [].

End Extractor.

End OrderDataExtractor.

(* ================================================================== *)
(** ** web_scraper.py: reading the inventory page *)

Module WebScraper.

Import Py PyStr Regex Model.
Local Open Scope Z_scope.

Section Scraper.
Variable ud : unicode_digits.

Definition digit : char -> bool := is_digit ud.                 (* \d *)

(** [int] refuses a text of more than [sys.get_int_max_str_digits()]
    digits: 4300, unless the interpreter is configured otherwise. *)
Definition int_max_str_digits : nat := 4300.

(** [int(s)] on a match of [\d+]. *)
Definition int_of_run (s : str) : result Z :=
  if (int_max_str_digits <? List.length s)%nat then Raise ValueError
  else match int ud s with
       | Some n => Ok n
       | None => Raise ValueError
       end.

(** [WebScraper._parse_quantity(quantity_text)] *)
Definition _parse_quantity (quantity_text : str) : result Z :=
  let numbers :=
    findall (Plus digit) (remove_char OrderDataExtractor.c_comma quantity_text) in
  match numbers with
  | first :: _ => int_of_run first
  | [] => Ok 0
  end.

(** The patterns of [_parse_expiry_date]:
    [(\d{4})[/-](\d{1,2})[/-](\d{1,2})] and
    [(\d{4})年(\d{1,2})月(\d{1,2})日]. *)
Definition expiry_patterns : list re :=
  let sep := Chr (one_of [OrderDataExtractor.c_slash; OrderDataExtractor.c_hyphen]) in
  [ Seqs [Group (Times 4 (Chr digit)); sep;
          Group (Upto2 digit); sep;
          Group (Upto2 digit)];
    Seqs [Group (Times 4 (Chr digit)); Lit OrderDataExtractor.c_year;
          Group (Upto2 digit); Lit OrderDataExtractor.c_month;
          Group (Upto2 digit); Lit OrderDataExtractor.c_day] ].

(** The [try] block: [datetime(int(year), int(month), int(day))] and its
    [strftime]; [None] is the [ValueError] that sends the loop to the
    next pattern. *)
Definition date_text (year month day : str) : option str :=
  match int ud year, int ud month, int ud day with
  | Some y, Some m, Some d =>
      option_map Datetime.strftime_ymd (Datetime.make y m d)
  | _, _, _ => None
  end.

(** The loop of [_parse_expiry_date] over the patterns that are left;
    after the last one the text is returned stripped. *)
Fixpoint parse_expiry_from (patterns : list re) (expiry_text : str) : result str :=
  match patterns with
  | [] => Ok (strip expiry_text)
  | pattern :: rest =>
      match search pattern expiry_text with
      | None => parse_expiry_from rest expiry_text
      | Some m =>
          match groups m with
          | [year; month; day] =>
              match date_text year month day with
              | Some date => Ok date
              | None => parse_expiry_from rest expiry_text
              end
          | _ => Raise ValueError
          end
      end
  end.

(** [WebScraper._parse_expiry_date(expiry_text)] *)
Definition _parse_expiry_date (expiry_text : str) : result str :=
  parse_expiry_from expiry_patterns expiry_text.

(** A row of the inventory table as the page has it: the text of the
    elements selected for the product, the quantity and the expiry
    date, [None] where the row has no such element. *)
Record page_row := {
  product_text : option str;
  quantity_text : option str;
  expiry_text : option str
}.

(** The body of the loop over the rows.  A row that lacks an element
    is skipped (the [AttributeError], or [NoSuchElementException], is
    caught inside the loop); an exception of the two parsers is not
    caught there. *)
Definition scrape_row (clk : clock) (t : nat) (r : page_row)
  : result (option item) :=
  match product_text r, quantity_text r, expiry_text r with
  | Some p, Some q, Some e =>
      quantity <- _parse_quantity (strip q) ;;
      expiry_date <- _parse_expiry_date (strip e) ;;
      Ok (Some {| product := Some (strip p);
                  Model.quantity := Some quantity;
                  Model.expiry_date := Some expiry_date;
                  scraped_at := Some (Datetime.isoformat (clk t)) |})
  | _, _, _ => Ok None
  end.

(** [for row in rows: ...], the clock being read once for every item
    that is added. *)
Fixpoint scrape_rows (clk : clock) (rows : list page_row) (t : nat)
  : result (list item * nat) :=
  match rows with
  | [] => Ok ([], t)
  | r :: rest =>
      it <- scrape_row clk t r ;;
      match it with
      | Some x =>
          more <- scrape_rows clk rest (S t) ;;
          let '(l, t') := more in Ok (x :: l, t')
      | None => scrape_rows clk rest t
      end
  end.

(** What [session.get(url)] and the parse of the answer give. *)
Inductive page :=
| Http_fails (e : exn)             (* [get] or [raise_for_status] raises *)
| No_table                         (* the page has no [table.inventory] *)
| Table (rows : list page_row).    (* its [tbody tr] rows *)

(** [WebScraper._scrape_with_requests(url)]: the listing, or the
    exception that is logged and raised again. *)
Definition _scrape_with_requests (clk : clock) (p : page) (t : nat)
  : result (list item * nat) :=
  match p with
  | Http_fails e => Raise e
  | No_table => Ok ([], t)
  | Table rows => scrape_rows clk rows t
  end.

End Scraper.

End WebScraper.

(* ================================================================== *)
(** ** data_extractor.py: the customer and the row of the order *)

Module OrderDocument.

Import Py PyStr Regex OrderDataExtractor.

Section Document.
Variable ud : unicode_digits.

Definition not_newline (c : char) : bool := negb (N.eqb c 10%N).     (* [^\n] *)

(** The labels of [extract_customer_name], in the order in which they
    are tried. *)
Definition customer_labels : list str :=
  [u"得意先"; u"お客様"; u"宛先"; u"御中"].

(** [label[：:\s]*([^\n]+)] *)
Definition customer_pattern (label : str) : re :=
  Seqs [Word label; Star label_sep; Group (Plus not_newline)].

Definition honorific : char -> bool := one_of (u"様御中").           (* [様御中] *)

(** [re.sub(r'[様御中]', '', name)] *)
Definition drop_honorifics (name : str) : str :=
  filter (fun c => negb (honorific c)) name.

(** The loop over the labels: the first label whose match leaves a
    name that is not empty. *)
Fixpoint labelled_name (labels : list str) (text : str) : option str :=
  match labels with
  | [] => None
  | label :: rest =>
      match search (customer_pattern label) text with
      | Some m =>
          let name := strip (drop_honorifics (strip (group1 m))) in
          match name with
          | [] => labelled_name rest text
          | _ => Some name
          end
      | None => labelled_name rest text
      end
  end.

(** [^[\d\s,]+$], used with [re.match]. *)
Definition digits_only : re :=
  Seq (Plus (fun c => digit ud c || is_space c || N.eqb c c_comma)) Eol.

(** The fallback: the first of the lines that, stripped, has between
    three and forty-nine characters and is not made of digits, white
    space and commas only. *)
Fixpoint first_name_line (lines : list str) : option str :=
  match lines with
  | [] => None
  | raw :: rest =>
      let line := strip raw in
      if match line with [] => false | _ => true end
         && (2 <? List.length line)%nat && (List.length line <? 50)%nat then
        match rmatch digits_only line with
        | None => Some line
        | Some _ => first_name_line rest
        end
      else first_name_line rest
  end.

(** [OrderDataExtractor.extract_customer_name(text)] *)
Definition extract_customer_name (text : str) : option str :=
  match labelled_name customer_labels text with
  | Some name => Some name
  | None => first_name_line (firstn 5 (split 10%N text))
  end.

(** The dictionary of [extract_order_data]; [format_for_sheets] reads
    every key with a default, so each may be missing. *)
Record order_data := {
  date : option str;
  customer_name : option str;
  items : option (list order_item);
  filename : option str;
  processed_at : option str;
  raw_text : option str
}.

(** [order_data.get(key, '')] and [item.get(key, '')] *)
Definition cell (v : option str) : str := get_default v [].

(** The row of an order without items: the item columns are empty. *)
Definition order_row (order : order_data) : list str :=
  [cell (date order); cell (customer_name order); []; []; []; []; [];
   cell (processed_at order); cell (filename order)].

Definition item_row (order : order_data) (item : order_item) : list str :=
  [cell (date order); cell (customer_name order);
   cell (product_name item); cell (quantity item);
   cell (unit_price item); cell (amount item); [];
   cell (processed_at order); cell (filename order)].

(** [OrderDataExtractor.format_for_sheets(order_data)] *)
Definition format_for_sheets (order : order_data) : list (list str) :=
  match items order with
  | None => [order_row order]
  | Some [] => [order_row order]
  | Some its => map (item_row order) its
  end.

End Document.

End OrderDocument.

(* ================================================================== *)
(** ** main.py: an order file from the scan to the spreadsheet *)

Module OrderMain.

Import Py PyStr Model OrderDataExtractor OrderDocument.

Inductive message :=
| extraction_started (filename : str)
| extraction_done (date customer : option str) (n : nat)
| processing_started (file_path : str)
| no_text (file_path : str)
| cancelled
| rows_appended (n : nat) (sheet : str)
| append_error (sheet : str)
| processing_done (file_path : str)
| processing_error (file_path : str) (e : exn)
| header_error (sheet : str)
| header_created (sheet : str)
| files_found (n : nat)
| moved (file_path : str)
| move_error
| run_done (success_count total : nat).

(** What the program does to the world. *)
Inductive event :=
| Log (lvl : Effects.level) (m : message)
| Print_review (order : order_data)     (* the lines of the manual review *)
| Prompt                                (* the question asked by [input] *)
| Sheets_update_header (sheet : str) (header : list str)
| Sheets_append (sheet : str) (rows : list (list str))
| Move (file_path : str).               (* the file goes to the processed folder *)

(** What the world answers while one file is processed. *)
Record world := {
  clk : clock;
  ocr : result str;                  (* ocr_processor.extract_text(file_path) *)
  answer : result str;               (* input(...) *)
  header_row : result (list str);    (* values().get(range=sheet!1:1) *)
  update_ok : bool;                  (* values().update(...) *)
  append_raises : option exn         (* values().append(...) *)
}.

Record state := {
  ticks : nat;                       (* clock readings so far *)
  trace : list event                 (* effects so far, oldest first *)
}.

Definition M (A : Type) := state -> result A * state.

Definition ret {A} (a : A) : M A := fun s => (Ok a, s).

Definition raise {A} (e : exn) : M A := fun s => (Raise e, s).

Definition lift {A} (r : result A) : M A := fun s => (r, s).

Definition mbind {A B} (c : M A) (k : A -> M B) : M B :=
  fun s =>
    match c s with
    | (Ok a, s') => k a s'
    | (Raise e, s') => (Raise e, s')
    end.

(** [try: c except Exception as e: h e] *)
Definition try_except {A} (c : M A) (h : exn -> M A) : M A :=
  fun s =>
    match c s with
    | (Ok a, s') => (Ok a, s')
    | (Raise e, s') => h e s'
    end.

Definition emit (ev : event) : M unit :=
  fun s => (Ok tt, {| ticks := ticks s; trace := trace s ++ [ev] |}).

Definition log (lvl : Effects.level) (m : message) : M unit := emit (Log lvl m).

(** [datetime.now()] *)
Definition now (w : world) : M Datetime.datetime :=
  fun s => (Ok (clk w (ticks s)), {| ticks := S (ticks s); trace := trace s |}).

Declare Scope order_scope.
Notation "x <~ c ;; k" := (mbind c (fun x => k))
  (at level 61, c at next level, right associativity) : order_scope.
Notation "c ;;; k" := (mbind c (fun _ => k))
  (at level 61, right associativity) : order_scope.
Local Open Scope order_scope.

Section Main.
Variable ud : unicode_digits.

(** [date or ''] *)
Definition or_empty (v : option str) : str := get_default v [].

(** [datetime.now().strftime('%Y-%m-%d %H:%M:%S')] *)
Definition strftime_ymd_hms (dt : Datetime.datetime) : str :=
  Datetime.strftime_ymd dt ++ [32%N] ++
  zpad 2 (Datetime.hour dt) ++ [58%N] ++ zpad 2 (Datetime.minute dt) ++ [58%N] ++
  zpad 2 (Datetime.second dt).

(** [OrderDataExtractor.extract_order_data(text, filename)] *)
Definition extract_order_data (w : world) (text filename : str) : M order_data :=
  log Effects.INFO (extraction_started filename) ;;;
  date <~ lift (extract_date ud text) ;;
  let customer := extract_customer_name ud text in
  let items := extract_items ud text in
  n <~ now w ;;
  let result :=
    {| OrderDocument.date := Some (or_empty date);
       customer_name := Some (or_empty customer);
       OrderDocument.items := Some items;
       OrderDocument.filename := Some filename;
       processed_at := Some (strftime_ymd_hms n);
       raw_text := Some (firstn 500 text) |} in
  log Effects.INFO (extraction_done date customer (List.length items)) ;;;
  ret result.

(** [GoogleSheetsClient.append_rows(sheet_name, values)]: an
    [HttpError] is logged and raised again. *)
Definition append_rows (w : world) (sheet_name : str) (values : list (list str))
  : M unit :=
  match append_raises w with
  | None =>
      emit (Sheets_append sheet_name values) ;;;
      log Effects.INFO (rows_appended (List.length values) sheet_name)
  | Some HttpError =>
      log Effects.ERROR (append_error sheet_name) ;;;
      raise HttpError
  | Some e => raise e
  end.

(** [GoogleSheetsClient.get_header_row(sheet_name)]: an [HttpError] is
    logged and answered by the empty row. *)
Definition get_header_row (w : world) (sheet_name : str) : M (list str) :=
  match header_row w with
  | Ok values => ret values
  | Raise HttpError => log Effects.ERROR (header_error sheet_name) ;;; ret []
  | Raise e => raise e
  end.

Definition expected_headers : list str :=
  [u"日付"; u"得意先名"; u"品名"; u"数量"; u"単価"; u"金額";
   u"備考"; u"処理日時"; u"元ファイル名"].

(** [headers != expected_headers] *)
Fixpoint same_row (a b : list str) : bool :=
  match a, b with
  | [], [] => true
  | x :: a', y :: b' => PyStr.eqb x y && same_row a' b'
  | _, _ => false
  end.

(** [GoogleSheetsClient.create_header_if_needed(sheet_name)] *)
Definition create_header_if_needed (w : world) (sheet_name : str) : M unit :=
  headers <~ get_header_row w sheet_name ;;
  if match headers with [] => true | _ => false end
     || negb (same_row headers expected_headers)
  then
    (if update_ok w
     then emit (Sheets_update_header sheet_name expected_headers)
     else raise HttpError) ;;;
    log Effects.INFO (header_created sheet_name)
  else ret tt.

(** [os.path.basename(file_path)]: what follows the last slash. *)
Definition basename (file_path : str) : str := last (split 47%N file_path) [].

(** [response.lower() != 'y'] fails for the two answers [y] and [Y]. *)
Definition is_yes (response : str) : bool :=
  PyStr.eqb response (u"y") || PyStr.eqb response (u"Y").

Definition sheet1 : str := u"Sheet1".

(** [process_file(file_path, ocr_processor, extractor, sheets_client,
    manual_review)] *)
Definition process_file (w : world) (file_path : str) (manual_review : bool)
  : M bool :=
  try_except
    (log Effects.INFO (processing_started file_path) ;;;
     text <~ lift (ocr w) ;;
     match strip text with
     | [] => log Effects.WARNING (no_text file_path) ;;; ret false
     | _ =>
         let filename := basename file_path in
         order <~ extract_order_data w text filename ;;
         go_on <~ (if manual_review then
                     emit (Print_review order) ;;;
                     emit Prompt ;;;
                     response <~ lift (answer w) ;;
                     if is_yes response then ret true
                     else log Effects.INFO cancelled ;;; ret false
                   else ret true) ;;
         if go_on then
           let rows := format_for_sheets order in
           append_rows w sheet1 rows ;;;
           log Effects.INFO (processing_done file_path) ;;;
           ret true
         else ret false
     end)
    (fun e => log Effects.ERROR (processing_error file_path e) ;;; ret false).

(** A file of [files_to_process] and what the world answers while it is
    processed.  The files found in the input folder are [Path] objects;
    the file named by [--file] is the text of the argument. *)
Record job := {
  path : str;                        (* str(file_path) *)
  is_path : bool;                    (* a Path of the input folder *)
  answers : world;
  rename_ok : bool                   (* file_path.rename(processed_path) *)
}.

(** The [try] block that moves a processed file: a text has no [name],
    and the [AttributeError] is caught like a failure of [rename]. *)
Definition move_processed (j : job) : M unit :=
  if is_path j && rename_ok j then
    emit (Move (path j)) ;;;
    log Effects.INFO (moved (path j))
  else log Effects.WARNING move_error.

(** [for file_path in files_to_process: ...] of [main] *)
Fixpoint process_files (jobs : list job) (manual_review : bool)
    (success_count : nat) : M nat :=
  match jobs with
  | [] => ret success_count
  | j :: rest =>
      ok <~ process_file (answers j) (path j) manual_review ;;
      if ok then
        move_processed j ;;;
        process_files rest manual_review (S success_count)
      else process_files rest manual_review success_count
  end.

(** The end of [main], from the count of the files on. *)
Definition run_files (jobs : list job) (manual_review : bool) : M unit :=
  log Effects.INFO (files_found (List.length jobs)) ;;;
  success_count <~ process_files jobs manual_review 0 ;;
  log Effects.INFO (run_done success_count (List.length jobs)).

End Main.

End OrderMain.

(* ================================================================== *)
(** * Properties *)

(** ** Text and dictionaries *)

Module PyFacts.

Import PyStr.

Lemma eqb_eq (a b : str) : eqb a b = true <-> a = b.
Proof.
  revert b; induction a as [|x a IH]; intros [|y b]; simpl;
    try (split; [discriminate | congruence]); try tauto.
  rewrite andb_true_iff, N.eqb_eq, IH.
  split; [intros [-> ->]; reflexivity | intros E; inversion E; auto].
Qed.

Lemma eqb_refl (a : str) : eqb a a = true.
Proof. apply eqb_eq; reflexivity. Qed.

Lemma eqb_neq (a b : str) : eqb a b = false <-> a <> b.
Proof.
  rewrite <- eqb_eq. destruct (eqb a b); split; congruence.
Qed.


Section DictFacts.
Variable V : Type.
Implicit Types (d : PyDict.t V) (k : str) (v : V).

Lemma get_set_same k v d : PyDict.get k (PyDict.set k v d) = Some v.
Proof.
  induction d as [|[k' v'] d IH]; simpl.
  - now rewrite eqb_refl.
  - destruct (eqb k k') eqn:E; simpl; rewrite E; auto.
Qed.

Lemma get_set_other k k' v d :
  eqb k k' = false -> PyDict.get k (PyDict.set k' v d) = PyDict.get k d.
Proof.
  intros N; induction d as [|[k2 v2] d IH]; simpl.
  - now rewrite N.
  - destruct (eqb k' k2) eqn:E; simpl.
    + apply eqb_eq in E; subst k2. now rewrite N.
    + destruct (eqb k k2); auto.
Qed.

Lemma get_In k v d : PyDict.get k d = Some v -> In (k, v) d.
Proof.
  induction d as [|[k' v'] d IH]; simpl; [discriminate|].
  destruct (eqb k k') eqn:E.
  - apply eqb_eq in E; subst; intros [= ->]; auto.
  - auto.
Qed.

Lemma get_None_keys k d : PyDict.get k d = None <-> ~ In k (PyDict.keys d).
Proof.
  induction d as [|[k' v'] d IH]; simpl; [tauto|].
  destruct (eqb k k') eqn:E.
  - apply eqb_eq in E; subst; split; [discriminate | tauto].
  - apply eqb_neq in E. rewrite IH. intuition congruence.
Qed.

Lemma In_get k v d : NoDup (PyDict.keys d) -> In (k, v) d -> PyDict.get k d = Some v.
Proof.
  induction d as [|[k' v'] d IH]; simpl; [tauto|].
  intros ND [E | I]; inversion ND as [|? ? NI ND']; subst.
  - inversion E; subst. now rewrite eqb_refl.
  - destruct (eqb k k') eqn:E; [|auto].
    apply eqb_eq in E; subst. exfalso; apply NI.
    change k' with (fst (k', v)). now apply in_map.
Qed.

Lemma keys_set k v d :
  PyDict.keys (PyDict.set k v d) =
  if PyDict.mem k d then PyDict.keys d else PyDict.keys d ++ [k].
Proof.
  unfold PyDict.mem.
  induction d as [|[k' v'] d IH]; simpl; [reflexivity|].
  destruct (eqb k k') eqn:E; simpl; [reflexivity|].
  rewrite IH. now destruct (PyDict.get k d).
Qed.

Lemma NoDup_keys_set k v d :
  NoDup (PyDict.keys d) -> NoDup (PyDict.keys (PyDict.set k v d)).
Proof.
  intros ND. rewrite keys_set. unfold PyDict.mem.
  destruct (PyDict.get k d) eqn:G; [assumption|].
  apply get_None_keys in G.
  apply NoDup_rev in ND. rewrite <- (rev_involutive (_ ++ _)).
  apply NoDup_rev. rewrite rev_app_distr; simpl.
  constructor; [rewrite <- in_rev; assumption | assumption].
Qed.

Lemma mem_true_iff k d : PyDict.mem k d = true <-> In k (PyDict.keys d).
Proof.
  unfold PyDict.mem. destruct (PyDict.get k d) eqn:G.
  - split; [intros _ | reflexivity].
    apply get_In in G. change k with (fst (k, v)). now apply in_map.
  - apply get_None_keys in G. split; [discriminate | tauto].
Qed.

End DictFacts.

(** Counting the elements of a list that carry a given name. *)
Definition count_named {A} (name : A -> str) (p : str) (l : list A) : nat :=
  List.length (filter (fun x => eqb (name x) p) l).

Lemma count_named_absent {A} (name : A -> str) p (l : list A) :
  ~ In p (map name l) -> count_named name p l = 0%nat.
Proof.
  unfold count_named; induction l as [|x l IH]; simpl; [reflexivity|].
  intros NI. destruct (eqb (name x) p) eqn:E.
  - apply eqb_eq in E. tauto.
  - apply IH; tauto.
Qed.

Lemma count_named_NoDup {A} (name : A -> str) p (l : list A) :
  NoDup (map name l) -> In p (map name l) -> count_named name p l = 1%nat.
Proof.
  induction l as [|x l IH]; simpl; [tauto|].
  intros ND I; inversion ND as [|? ? NI ND']; subst.
  unfold count_named in *; simpl.
  destruct (eqb (name x) p) eqn:E.
  - apply eqb_eq in E; subst p. simpl. f_equal.
    now apply (count_named_absent name).
  - apply eqb_neq in E. destruct I as [I | I]; [congruence | auto].
Qed.

End PyFacts.

(* ================================================================== *)
(** ** Text: [strip] and [split] *)

Module TextFacts.

Import PyStr.

Definition spaces (s : str) : Prop := Forall (fun c => is_space c = true) s.

(** No white space at either end. *)
Definition trimmed (s : str) : Prop :=
  match s with
  | [] => True
  | c :: _ => is_space c = false /\ is_space (last s c) = false
  end.

Lemma lstrip_split s : exists ws, s = ws ++ lstrip s /\ spaces ws.
Proof.
  induction s as [|c s (ws & E & F)]; simpl.
  - exists []. split; [reflexivity | constructor].
  - destruct (is_space c) eqn:C.
    + exists (c :: ws). split; [simpl; congruence | now constructor].
    + exists []. split; [reflexivity | constructor].
Qed.

Lemma lstrip_head s c t : lstrip s = c :: t -> is_space c = false.
Proof.
  induction s as [|x s IH]; simpl; [discriminate|].
  destruct (is_space x) eqn:X; [exact IH|].
  intros [= <- _]. exact X.
Qed.

Lemma lstrip_fixed s :
  match s with [] => True | c :: _ => is_space c = false end -> lstrip s = s.
Proof. destruct s as [|c s]; simpl; [reflexivity|]. now intros ->. Qed.

Lemma lstrip_spaces s : spaces s -> lstrip s = [].
Proof. induction 1 as [|c s C _ IH]; simpl; [reflexivity|]. now rewrite C. Qed.

Lemma spaces_rev s : spaces s -> spaces (rev s).
Proof. apply Forall_rev. Qed.

(** A text is its stripped text between two runs of white space. *)
Lemma strip_split s :
  exists before after,
    s = before ++ strip s ++ after /\ spaces before /\ spaces after.
Proof.
  destruct (lstrip_split s) as (ws1 & E1 & F1).
  destruct (lstrip_split (rev (lstrip s))) as (ws2 & E2 & F2).
  exists ws1, (rev ws2). unfold strip.
  split; [|split; [assumption | now apply spaces_rev]].
  rewrite <- rev_app_distr, <- E2, rev_involutive. exact E1.
Qed.

Lemma last_rev_head (s : str) c x : last (rev (c :: s)) x = c.
Proof. simpl. apply last_last. Qed.

Lemma strip_trimmed s : trimmed (strip s).
Proof.
  unfold trimmed. destruct (strip s) as [|c t] eqn:E; [exact I|].
  unfold strip in E.
  destruct (lstrip (rev (lstrip s))) as [|x u] eqn:U.
  - discriminate.
  - split.
    + (* the head of the result is the head of [lstrip s] *)
      destruct (lstrip_split (rev (lstrip s))) as (ws & E2 & _).
      rewrite U in E2. apply (f_equal (@rev char)) in E2.
      rewrite rev_involutive, rev_app_distr, E in E2.
      destruct (lstrip s) as [|y t'] eqn:L; [discriminate|].
      simpl in E2. inversion E2; subst y. eapply lstrip_head; eauto.
    + rewrite <- E, last_rev_head. eapply lstrip_head; eauto.
Qed.

Lemma trimmed_strip s : trimmed s -> strip s = s.
Proof.
  unfold trimmed, strip. destruct s as [|c s]; [reflexivity|].
  intros (H & T). rewrite (lstrip_fixed (c :: s)) by exact H.
  rewrite lstrip_fixed; [apply rev_involutive|].
  destruct (rev (c :: s)) as [|x r] eqn:R; [exact I|].
  apply (f_equal (@rev char)) in R. rewrite rev_involutive in R.
  rewrite R in T. simpl in T. now rewrite last_last in T.
Qed.

(** Stripping twice is stripping once. *)
Lemma strip_strip s : strip (strip s) = strip s.
Proof. apply trimmed_strip, strip_trimmed. Qed.

Lemma strip_Forall (P : char -> Prop) s : Forall P s -> Forall P (strip s).
Proof.
  intros F. destruct (strip_split s) as (b & a & E & _).
  rewrite E in F. apply Forall_app in F. destruct F as (_ & F).
  apply Forall_app in F. tauto.
Qed.

Lemma strip_length s : (List.length (strip s) <= List.length s)%nat.
Proof.
  destruct (strip_split s) as (b & a & E & _).
  rewrite E at 2. rewrite !length_app. lia.
Qed.

Lemma strip_spaces s : spaces s -> strip s = [].
Proof.
  intros F. unfold strip. now rewrite (lstrip_spaces F).
Qed.

Lemma strip_nil s : strip s = [] -> spaces s.
Proof.
  intros E. destruct (strip_split s) as (b & a & E' & Fb & Fa).
  rewrite E in E'. rewrite E'. apply Forall_app. split; assumption.
Qed.

(** The lines of a text have no line feed. *)
Lemma split_lines sep s :
  Forall (Forall (fun c => c <> sep)) (split sep s).
Proof.
  induction s as [|c s IH]; simpl; [repeat constructor|].
  destruct (N.eqb_spec c sep) as [->|NE].
  - constructor; [constructor | exact IH].
  - destruct (split sep s) as [|w ws]; [repeat constructor; assumption|].
    inversion IH; subst. constructor; [now constructor | assumption].
Qed.

Lemma remove_char_Forall (P : char -> Prop) c s :
  Forall P s -> Forall P (remove_char c s).
Proof.
  unfold remove_char. rewrite !Forall_forall. intros F x I.
  apply filter_In in I. now apply F.
Qed.

Lemma remove_char_length c s :
  (List.length (remove_char c s) <= List.length s)%nat.
Proof. unfold remove_char. apply filter_length_le. Qed.

Lemma remove_char_gone c s : ~ In c (remove_char c s).
Proof.
  unfold remove_char. intros I. apply filter_In in I.
  destruct I as (_ & H). now rewrite N.eqb_refl in H.
Qed.

End TextFacts.

(* ================================================================== *)
(** ** The inventory differ *)

Module DifferFacts.

Import Py PyStr PyFacts Model InventoryMonitor.
Local Open Scope Z_scope.

(** Destructs the first call of a sequence that returned normally. *)
Ltac bind_ok H :=
  match type of H with
  | Py.bind ?c _ = Ok _ =>
      let E := fresh "E" in
      destruct c eqn:E; simpl in H; [|discriminate H]
  end.

(** *** Listings and their index *)

Definition named (p : str) (it : item) : bool :=
  match product it with
  | Some q => eqb p q
  | None => false
  end.

(** The row a listing holds for a product name: the last one, as a
    later row with the same name replaces an earlier one in the index. *)
Fixpoint last_row (p : str) (l : list item) : option item :=
  match l with
  | [] => None
  | it :: l' =>
      match last_row p l' with
      | Some x => Some x
      | None => if named p it then Some it else None
      end
  end.

(** A row of the data model: the three keys the differ reads are set. *)
Definition well_typed (it : item) : bool :=
  match product it, quantity it, expiry_date it with
  | Some _, Some _, Some _ => true
  | _, _, _ => false
  end.

Definition listing_ok (l : list item) : Prop := Forall (fun it => well_typed it = true) l.

Lemma index_get l : forall d d',
  index_by_product l d = Ok d' ->
  forall p, PyDict.get p d' =
            match last_row p l with
            | Some it => Some it
            | None => PyDict.get p d
            end.
Proof.
  induction l as [|it l IH]; simpl; intros d d' H p.
  - now inversion H.
  - bind_ok H. rewrite (IH _ _ H p).
    destruct (last_row p l); [reflexivity|].
    unfold named. destruct (product it) as [q|]; [|discriminate].
    simpl in E; inversion E; subst a.
    destruct (eqb p q) eqn:Q.
    + apply eqb_eq in Q; subst. apply get_set_same.
    + now apply get_set_other.
Qed.

Lemma index_NoDup l : forall d d',
  index_by_product l d = Ok d' ->
  NoDup (PyDict.keys d) -> NoDup (PyDict.keys d').
Proof.
  induction l as [|it l IH]; simpl; intros d d' H ND.
  - now inversion H; subst.
  - bind_ok H. eapply IH; [eassumption|]. now apply NoDup_keys_set.
Qed.

Lemma index_values l : forall d d',
  index_by_product l d = Ok d' ->
  forall k v, In (k, v) d' -> In (k, v) d \/ In v l.
Proof.
  induction l as [|it l IH]; simpl; intros d d' H k v I.
  - inversion H; subst; auto.
  - bind_ok H. destruct (IH _ _ H _ _ I) as [I' | I']; [|auto].
    clear - I'. induction d as [|[k2 v2] d IHd]; simpl in *.
    + destruct I' as [[= <- <-]|[]]; auto.
    + destruct (eqb a k2); simpl in I'; destruct I' as [[= <- <-]|I']; auto.
      * destruct (IHd I'); auto.
Qed.

Lemma index_ok l : forall d,
  (forall it, In it l -> product it <> None) ->
  exists d', index_by_product l d = Ok d'.
Proof.
  induction l as [|it l IH]; simpl; intros d H; [eauto|].
  destruct (product it) eqn:P; [simpl | exfalso; apply (H it); auto].
  apply IH; auto.
Qed.

(** *** The first loop *)

Lemma compare_item_product clk t k c pv ev :
  compare_item clk t k c pv = Ok (Some ev) -> ci_product ev = k.
Proof.
  unfold compare_item; intros H. do 3 bind_ok H.
  destruct (_ || _); inversion H; reflexivity.
Qed.

(** Which reading of the clock stamps the event does not change
    whether there is one. *)
Lemma compare_item_clock clk t clk' t' k c pv :
  match compare_item clk t k c pv, compare_item clk' t' k c pv with
  | Ok (Some _), Ok (Some _) | Ok None, Ok None => True
  | Raise e, Raise e' => e = e'
  | _, _ => False
  end.
Proof.
  unfold compare_item.
  destruct (quantity c), (quantity pv), (expiry_date c); simpl; auto.
  destruct (_ || _); auto.
Qed.

Lemma scan_current_spec clk pd : forall its t chs nws t',
  scan_current clk pd its t = Ok (chs, nws, t') ->
  (forall ev, In ev chs ->
     exists c pv t0, In (ci_product ev, c) its /\
       PyDict.get (ci_product ev) pd = Some pv /\
       compare_item clk t0 (ci_product ev) c pv = Ok (Some ev)) /\
  (forall k c pv, In (k, c) its -> PyDict.get k pd = Some pv ->
     exists t0 r, compare_item clk t0 k c pv = Ok r /\
       forall ev, r = Some ev -> In ev chs) /\
  (forall nw, In nw nws ->
     exists c, In (np_product nw, c) its /\
       PyDict.get (np_product nw) pd = None /\
       quantity c = Some (np_quantity nw) /\
       expiry_date c = Some (np_expiry_date nw)) /\
  (forall k c, In (k, c) its -> PyDict.get k pd = None ->
     exists nw, In nw nws /\ np_product nw = k /\
       quantity c = Some (np_quantity nw) /\
       expiry_date c = Some (np_expiry_date nw)).
Proof.
  induction its as [|[k c] its IH]; simpl; intros t chs nws t' H.
  - inversion H; subst. repeat split; intros; simpl in *; tauto.
  - destruct (PyDict.get k pd) as [pv|] eqn:G.
    + bind_ok H. destruct a as [ev|].
      * bind_ok H. destruct a as [[chs0 nws0] t0].
        inversion H; subst; clear H.
        destruct (IH _ _ _ _ E0) as (A & B & C & D).
        pose proof (compare_item_product _ _ _ _ _ E) as P.
        repeat split.
        -- intros ev' [<- | I].
           ++ exists c, pv, t. rewrite P. auto.
           ++ destruct (A _ I) as (c' & pv' & t1 & I1 & G1 & C1).
              exists c', pv', t1; auto.
        -- intros k' c' pv' [[= <- <-] | I] G'.
           ++ exists t, (Some ev). rewrite G in G'; inversion G'; subst.
              split; [assumption|]. intros ? [= <-]; left; reflexivity.
           ++ destruct (B _ _ _ I G') as (t1 & r & C1 & R).
              exists t1, r; split; [assumption|]. intros; right; auto.
        -- intros nw I. destruct (C _ I) as (c' & ? & ? & ? & ?).
           exists c'; auto.
        -- intros k' c' [[= <- <-] | I] G'; [congruence|].
           apply (D _ _ I G').
      * destruct (IH _ _ _ _ H) as (A & B & C & D).
        repeat split.
        -- intros ev' I. destruct (A _ I) as (c' & pv' & t1 & I1 & G1 & C1).
           exists c', pv', t1; auto.
        -- intros k' c' pv' [[= <- <-] | I] G'.
           ++ exists t, None. rewrite G in G'; inversion G'; subst.
              split; [assumption | discriminate].
           ++ apply (B _ _ _ I G').
        -- intros nw I. destruct (C _ I) as (c' & ? & ? & ? & ?).
           exists c'; auto.
        -- intros k' c' [[= <- <-] | I] G'; [congruence|].
           apply (D _ _ I G').
    + do 3 bind_ok H. destruct a1 as [[chs0 nws0] t0].
      inversion H; subst; clear H.
      destruct (IH _ _ _ _ E1) as (A & B & C & D).
      destruct (quantity c) as [q|] eqn:Q; [|discriminate].
      destruct (expiry_date c) as [e|] eqn:X; [|discriminate].
      simpl in E, E0; inversion E; inversion E0; subst.
      repeat split.
      * intros ev' I. destruct (A _ I) as (c' & pv' & t1 & I1 & G1 & C1).
        exists c', pv', t1; auto.
      * intros k' c' pv' [[= <- <-] | I] G'; [congruence|].
        apply (B _ _ _ I G').
      * intros nw [<- | I]; simpl.
        -- exists c; auto.
        -- destruct (C _ I) as (c' & ? & ? & ? & ?). exists c'; auto.
      * intros k' c' [[= <- <-] | I] G'.
        -- eexists; split; [left; reflexivity|]. simpl. auto.
        -- destruct (D _ _ I G') as (nw & ? & ?).
           exists nw; split; [right; assumption | assumption].
Qed.

(** The events of the first loop follow the index: one per key at
    most. *)
Lemma scan_current_names clk pd : forall its t chs nws t',
  scan_current clk pd its t = Ok (chs, nws, t') ->
  NoDup (map fst its) ->
  NoDup (map ci_product chs) /\ NoDup (map np_product nws).
Proof.
  intros its t chs nws t' H ND.
  pose proof (scan_current_spec _ _ _ _ H) as (A & _ & C & _).
  revert t chs nws t' H A C.
  induction its as [|[k c] its IH]; simpl; intros t chs nws t' H A C.
  - inversion H; subst; split; constructor.
  - inversion ND as [|? ? NI ND']; subst.
    assert (K : forall (x : str) c', In (x, c') its -> x <> k).
    { intros x c' I ->. apply NI. change k with (fst (k, c')). now apply in_map. }
    destruct (PyDict.get k pd) as [pv|] eqn:G.
    + bind_ok H. destruct a as [ev|].
      * bind_ok H. destruct a as [[chs0 nws0] t0].
        inversion H; subst; clear H.
        pose proof (scan_current_spec _ _ _ _ E0) as (A0 & _ & C0 & _).
        destruct (IH ND' _ _ _ _ E0 A0 C0) as [N1 N2].
        split; [|assumption]. simpl; constructor; [|assumption].
        rewrite (compare_item_product _ _ _ _ _ E).
        intros I. apply in_map_iff in I. destruct I as (ev' & P' & I).
        destruct (A0 _ I) as (c' & _ & _ & I' & _).
        rewrite P' in I'. now apply (K _ _ I').
      * pose proof (scan_current_spec _ _ _ _ H) as (A0 & _ & C0 & _).
        apply (IH ND' _ _ _ _ H A0 C0).
    + do 3 bind_ok H. destruct a1 as [[chs0 nws0] t0].
      inversion H; subst; clear H.
      pose proof (scan_current_spec _ _ _ _ E1) as (A0 & _ & C0 & _).
      destruct (IH ND' _ _ _ _ E1 A0 C0) as [N1 N2].
      split; [assumption|]. simpl; constructor; [|assumption].
      intros I. apply in_map_iff in I. destruct I as (nw' & P' & I).
      destruct (C0 _ I) as (c' & I' & _).
      rewrite P' in I'. now apply (K _ _ I').
Qed.

(** *** The second loop *)

Lemma scan_previous_spec clk cd : forall its t rms t',
  scan_previous clk cd its t = Ok (rms, t') ->
  (forall rm, In rm rms ->
     exists pv, In (rp_product rm, pv) its /\
       PyDict.get (rp_product rm) cd = None /\
       quantity pv = Some (rp_previous_quantity rm)) /\
  (forall k pv, In (k, pv) its -> PyDict.get k cd = None ->
     exists rm, In rm rms /\ rp_product rm = k /\
       quantity pv = Some (rp_previous_quantity rm)) /\
  (NoDup (map fst its) -> NoDup (map rp_product rms)).
Proof.
  induction its as [|[k pv] its IH]; simpl; intros t rms t' H.
  - inversion H; subst. repeat split; intros; simpl in *; tauto || constructor.
  - unfold PyDict.mem in H. destruct (PyDict.get k cd) as [c|] eqn:G.
    + destruct (IH _ _ _ H) as (A & B & C).
      repeat split.
      * intros rm I. destruct (A _ I) as (pv' & ? & ? & ?). exists pv'; auto.
      * intros k' pv' [[= <- <-] | I] G'; [congruence|]. apply (B _ _ I G').
      * intros ND; inversion ND; auto.
    + do 2 bind_ok H. destruct a0 as [rms0 t0]. inversion H; subst; clear H.
      destruct (IH _ _ _ E0) as (A & B & C).
      destruct (quantity pv) as [q|] eqn:Q; [|discriminate].
      simpl in E; inversion E; subst.
      repeat split.
      * intros rm [<- | I]; simpl.
        -- exists pv; auto.
        -- destruct (A _ I) as (pv' & ? & ? & ?). exists pv'; auto.
      * intros k' pv' [[= <- <-] | I] G'.
        -- eexists; split; [left; reflexivity|]. simpl; auto.
        -- destruct (B _ _ I G') as (rm & ? & ?).
           exists rm; split; [right; assumption | assumption].
      * intros ND; inversion ND as [|? ? NI ND']; subst.
        simpl; constructor; [|auto].
        intros I. apply in_map_iff in I. destruct I as (rm' & P' & I).
        destruct (A _ I) as (pv' & I' & _). rewrite P' in I'.
        apply NI. change k with (fst (k, pv')). now apply in_map.
Qed.

(** *** Totality on well-typed listings *)

Lemma well_typed_fields it :
  well_typed it = true ->
  exists p q e, product it = Some p /\ quantity it = Some q /\ expiry_date it = Some e.
Proof.
  unfold well_typed.
  destruct (product it), (quantity it), (expiry_date it); try discriminate.
  intros _. do 3 eexists. repeat split.
Qed.

Lemma scan_current_ok clk pd : forall its t,
  (forall k c, In (k, c) its -> well_typed c = true) ->
  (forall k pv, PyDict.get k pd = Some pv -> well_typed pv = true) ->
  exists r, scan_current clk pd its t = Ok r.
Proof.
  induction its as [|[k c] its IH]; simpl; intros t W1 W2; [eauto|].
  destruct (well_typed_fields c (W1 k c (or_introl eq_refl)))
    as (p & q & e & P & Q & X).
  assert (W1' : forall k c, In (k, c) its -> well_typed c = true) by eauto.
  destruct (PyDict.get k pd) as [pv|] eqn:G.
  - destruct (well_typed_fields pv (W2 _ _ G)) as (p' & q' & e' & P' & Q' & X').
    unfold compare_item. rewrite Q, Q', X, X'; simpl.
    destruct (_ || _); simpl.
    + destruct (IH (S t) W1' W2) as [[[chs nws] t'] ->]; simpl; eauto.
    + apply IH; auto.
  - rewrite Q, X; simpl.
    destruct (IH (S t) W1' W2) as [[[chs nws] t'] ->]; simpl; eauto.
Qed.

Lemma scan_previous_ok clk cd : forall its t,
  (forall k pv, In (k, pv) its -> well_typed pv = true) ->
  exists r, scan_previous clk cd its t = Ok r.
Proof.
  induction its as [|[k pv] its IH]; simpl; intros t W; [eauto|].
  assert (W' : forall k pv, In (k, pv) its -> well_typed pv = true) by eauto.
  destruct (PyDict.mem k cd); [apply IH; auto|].
  destruct (well_typed_fields pv (W k pv (or_introl eq_refl)))
    as (p & q & e & P & Q & X).
  rewrite Q; simpl.
  destruct (IH (S t) W') as [[rms t'] ->]; simpl; eauto.
Qed.

(** *** The differ as a whole *)

Lemma diff_inv clk t current previous cs t' :
  diff clk t current previous = Ok (cs, t') ->
  exists cd pd t1 t2,
    index_by_product current PyDict.empty = Ok cd /\
    index_by_product previous PyDict.empty = Ok pd /\
    scan_current clk pd cd t = Ok (changes cs, new_products cs, t1) /\
    scan_previous clk cd pd t1 = Ok (removed_products cs, t2).
Proof.
  unfold diff, compare_inventory; simpl. intros H.
  do 3 bind_ok H. destruct a1 as [[chs nws] t1].
  bind_ok H. destruct a1 as [rms t2]. inversion H; subst; simpl.
  exists a, a0, t1, t2; auto.
Qed.

(** [self.history.get(previous_key, [])] *)
Definition previous_of (h : history) (previous_key : str) : stored :=
  get_default (PyDict.get previous_key h) (Listing []).

Lemma compare_inventory_ok clk t h current key previous :
  previous_of h key = Listing previous ->
  listing_ok current -> listing_ok previous ->
  exists cs t', compare_inventory clk t h current key = Ok (cs, t').
Proof.
  intros Hp Wc Wp. unfold listing_ok in *. rewrite Forall_forall in Wc, Wp.
  assert (Pc : forall it, In it current -> product it <> None).
  { intros it I. destruct (well_typed_fields it (Wc _ I)) as (p & _ & _ & -> & _).
    discriminate. }
  assert (Pp : forall it, In it previous -> product it <> None).
  { intros it I. destruct (well_typed_fields it (Wp _ I)) as (p & _ & _ & -> & _).
    discriminate. }
  destruct (index_ok current PyDict.empty Pc) as [cd Ec].
  destruct (index_ok previous PyDict.empty Pp) as [pd Ep].
  assert (Vc : forall k c, In (k, c) cd -> well_typed c = true).
  { intros k c I. destruct (index_values _ _ Ec _ _ I) as [[] | I']; auto. }
  assert (Vp : forall k c, In (k, c) pd -> well_typed c = true).
  { intros k c I. destruct (index_values _ _ Ep _ _ I) as [[] | I']; auto. }
  destruct (scan_current_ok clk pd cd t Vc) as [[[chs nws] t1] E1].
  { intros k pv G. apply (Vp k). now apply get_In. }
  destruct (scan_previous_ok clk cd pd t1 Vp) as [[rms t2] E2].
  unfold compare_inventory. fold (previous_of h key). rewrite Hp.
  rewrite Ec; simpl. rewrite Ep; simpl. rewrite E1; simpl. rewrite E2; simpl.
  eauto.
Qed.

Lemma diff_ok clk t current previous :
  listing_ok current -> listing_ok previous ->
  exists cs t', diff clk t current previous = Ok (cs, t').
Proof. now apply compare_inventory_ok. Qed.

Lemma count_named_le1 {A} (name : A -> str) p (l : list A) :
  NoDup (map name l) -> (count_named name p l <= 1)%nat.
Proof.
  induction l as [|x l IH]; simpl; intros ND; [unfold count_named; simpl; lia|].
  inversion ND as [|? ? NI ND']; subst.
  unfold count_named in *; simpl.
  destruct (eqb (name x) p) eqn:E; [|auto].
  apply eqb_eq in E; subst p. simpl.
  change (List.length _) with (count_named name (name x) l).
  rewrite (count_named_absent name _ l NI). lia.
Qed.

Lemma compare_item_inv clk t k c pv cq pq ce :
  quantity c = Some cq -> quantity pv = Some pq -> expiry_date c = Some ce ->
  let pe := get_default (expiry_date pv) [] in
  let d := cq - pq in
  compare_item clk t k c pv =
  Ok (if negb (d =? 0) || negb (eqb ce pe) then
        Some {| ci_product := k; previous_quantity := pq; current_quantity := cq;
                quantity_diff := d; previous_expiry := pe; current_expiry := ce;
                expiry_changed := negb (eqb ce pe);
                ci_timestamp := now_iso clk t;
                type := if d <? 0 then shipment else increase;
                shipped_quantity := if d <? 0 then Some (Z.abs d) else None |}
      else None).
Proof.
  intros Q Q' X. unfold compare_item. rewrite Q, Q', X; simpl.
  now destruct (_ || _).
Qed.

Lemma changed_iff (d : Z) (ce pe : str) :
  negb (d =? 0) || negb (eqb ce pe) = true <-> d <> 0 \/ ce <> pe.
Proof.
  rewrite orb_true_iff, !negb_true_iff, Z.eqb_neq, eqb_neq. tauto.
Qed.

Definition present (p : str) (l : list item) : bool :=
  match last_row p l with
  | Some _ => true
  | None => false
  end.

(** Whenever the differ returns, the product with a row in both
    listings has an event exactly when its quantity or expiry text
    changed (a previous row without expiry counts as the empty text),
    and the event is as [compare_item] builds it. *)
Lemma change_event_of_run clk t current previous cs t' p c pv :
  diff clk t current previous = Ok (cs, t') ->
  last_row p current = Some c ->
  last_row p previous = Some pv ->
  exists cq pq ce,
    quantity c = Some cq /\ quantity pv = Some pq /\ expiry_date c = Some ce /\
    let pe := get_default (expiry_date pv) [] in
    let d := cq - pq in
    ((exists ev, In ev (changes cs) /\ ci_product ev = p) <-> (d <> 0 \/ ce <> pe)) /\
    (forall ev, In ev (changes cs) -> ci_product ev = p ->
       quantity_diff ev = d /\
       previous_quantity ev = pq /\ current_quantity ev = cq /\
       previous_expiry ev = pe /\ current_expiry ev = ce /\
       expiry_changed ev = negb (eqb ce pe) /\
       (d < 0 -> type ev = shipment /\ shipped_quantity ev = Some (Z.abs d)) /\
       (0 <= d -> type ev = increase /\ shipped_quantity ev = None)) /\
    (count_named ci_product p (changes cs) <= 1)%nat.
Proof.
  intros H Lc Lp.
  destruct (diff_inv _ _ _ _ H) as (cd & pd & t1 & t2 & Ec & Ep & E1 & E2).
  pose proof (index_get _ _ Ec p) as Gc. rewrite Lc in Gc.
  pose proof (index_get _ _ Ep p) as Gp. rewrite Lp in Gp.
  assert (NDc : NoDup (PyDict.keys cd)).
  { eapply index_NoDup; [eassumption | constructor]. }
  destruct (scan_current_spec _ _ _ _ E1) as (A & B & _ & _).
  destruct (B _ _ _ (@get_In _ _ _ _ Gc) Gp) as (t0 & r & C0 & R).
  assert (F : exists cq pq ce,
    quantity c = Some cq /\ quantity pv = Some pq /\ expiry_date c = Some ce).
  { unfold compare_item in C0.
    destruct (quantity c), (quantity pv), (expiry_date c); try discriminate.
    do 3 eexists. repeat split. }
  destruct F as (cq & pq & ce & Q & Q' & X).
  exists cq, pq, ce.
  split; [exact Q|]. split; [exact Q'|]. split; [exact X|]. cbv zeta.
  split; [split|split].
  - intros (ev & I & P).
    destruct (A _ I) as (c' & pv' & t3 & I' & G' & C').
    rewrite P in *. apply (@In_get _ _ _ _ NDc) in I'.
    rewrite Gc in I'; rewrite Gp in G'; inversion I'; inversion G'; subst c' pv'.
    rewrite (compare_item_inv clk t3 p _ _ Q Q' X) in C'.
    destruct (_ || _) eqn:Ch in C'; [|discriminate].
    now apply changed_iff.
  - intros Ch. apply changed_iff in Ch.
    rewrite (compare_item_inv clk t0 p _ _ Q Q' X) in C0. rewrite Ch in C0.
    inversion C0 as [R0]. eexists; split; [apply R; symmetry; exact R0|reflexivity].
  - intros ev I P.
    destruct (A _ I) as (c' & pv' & t3 & I' & G' & C').
    rewrite P in *. apply (@In_get _ _ _ _ NDc) in I'.
    rewrite Gc in I'; rewrite Gp in G'; inversion I'; inversion G'; subst c' pv'.
    rewrite (compare_item_inv clk t3 p _ _ Q Q' X) in C'.
    destruct (_ || _) in C'; [|discriminate].
    inversion C'; subst ev; simpl.
    repeat (split; [reflexivity|]).
    split; intros L; [apply Z.ltb_lt in L | apply Z.ltb_ge in L];
      rewrite L; split; reflexivity.
  - apply count_named_le1. eapply scan_current_names; eauto.
Qed.

(** C1. On well-typed listings the differ returns, and for a product
    with a row in both listings a change event is emitted exactly when
    the quantities differ or the expiry texts differ; the event carries
    the difference [current - previous], is a shipment with
    [shipped_quantity = abs(quantity_diff)] when the difference is
    negative and an increase otherwise, also when the difference is zero
    and only the expiry changed; and there is at most one event for the
    product. *)
Theorem diff_change_event clk t current previous :
  listing_ok current -> listing_ok previous ->
  exists cs t',
    diff clk t current previous = Ok (cs, t') /\
    forall p c pv,
      last_row p current = Some c ->
      last_row p previous = Some pv ->
      exists cq pq ce,
        quantity c = Some cq /\ quantity pv = Some pq /\ expiry_date c = Some ce /\
        let pe := get_default (expiry_date pv) [] in
        let d := cq - pq in
        ((exists ev, In ev (changes cs) /\ ci_product ev = p) <-> (d <> 0 \/ ce <> pe)) /\
        (forall ev, In ev (changes cs) -> ci_product ev = p ->
           quantity_diff ev = d /\
           previous_quantity ev = pq /\ current_quantity ev = cq /\
           previous_expiry ev = pe /\ current_expiry ev = ce /\
           expiry_changed ev = negb (eqb ce pe) /\
           (d < 0 -> type ev = shipment /\ shipped_quantity ev = Some (Z.abs d)) /\
           (0 <= d -> type ev = increase /\ shipped_quantity ev = None)) /\
        (count_named ci_product p (changes cs) <= 1)%nat.
Proof.
  intros Wc Wp.
  destruct (diff_ok clk t Wc Wp) as (cs & t' & H).
  exists cs, t'. split; [exact H|].
  intros p c pv Lc Lp. exact (change_event_of_run _ _ _ _ _ H Lc Lp).
Qed.

Lemma index_get_empty l d p :
  index_by_product l PyDict.empty = Ok d -> PyDict.get p d = last_row p l.
Proof.
  intros H. rewrite (index_get _ _ H p). now destruct (last_row p l).
Qed.

Lemma present_true p l : present p l = true <-> exists it, last_row p l = Some it.
Proof.
  unfold present. destruct (last_row p l); split; eauto; try discriminate.
  intros [? [=]].
Qed.

Lemma no_element {A} (l : list A) : (forall x, In x l -> False) -> l = [].
Proof. destruct l as [|x l]; [reflexivity|]. intros H. destruct (H x). now left. Qed.

(** C2. On well-typed listings the differ returns, and a product name
    has exactly one New event when it has a row in the current listing
    only, exactly one Removed event when it has a row in the previous
    listing only, and none otherwise; a New event carries the quantity
    and expiry of the current row, a Removed event the quantity of the
    previous row.  Against an empty previous listing there are no
    changes and no removals (so the New events cover exactly the
    current products); from an empty current listing there are no
    changes and no new products (so the Removed events cover exactly
    the previous products). *)
Theorem diff_new_and_removed clk t current previous :
  listing_ok current -> listing_ok previous ->
  exists cs t',
    diff clk t current previous = Ok (cs, t') /\
    (forall p, count_named np_product p (new_products cs) =
               if present p current && negb (present p previous) then 1 else 0)%nat /\
    (forall nw, In nw (new_products cs) ->
       exists c, last_row (np_product nw) current = Some c /\
         quantity c = Some (np_quantity nw) /\
         expiry_date c = Some (np_expiry_date nw)) /\
    (forall p, count_named rp_product p (removed_products cs) =
               if present p previous && negb (present p current) then 1 else 0)%nat /\
    (forall rm, In rm (removed_products cs) ->
       exists pv, last_row (rp_product rm) previous = Some pv /\
         quantity pv = Some (rp_previous_quantity rm)) /\
    (previous = [] -> changes cs = [] /\ removed_products cs = []) /\
    (current = [] -> changes cs = [] /\ new_products cs = []).
Proof.
  intros Wc Wp.
  destruct (diff_ok clk t Wc Wp) as (cs & t' & H).
  exists cs, t'. split; [exact H|].
  destruct (diff_inv _ _ _ _ H) as (cd & pd & t1 & t2 & Ec & Ep & E1 & E2).
  assert (NDc : NoDup (PyDict.keys cd)).
  { eapply index_NoDup; [eassumption | constructor]. }
  assert (NDp : NoDup (PyDict.keys pd)).
  { eapply index_NoDup; [eassumption | constructor]. }
  destruct (scan_current_spec _ _ _ _ E1) as (A & _ & C & D).
  destruct (scan_current_names _ _ _ _ E1 NDc) as [_ NDn].
  destruct (scan_previous_spec _ _ _ _ E2) as (A' & B' & NDr).
  specialize (NDr NDp).
  assert (Gc : forall p, PyDict.get p cd = last_row p current).
  { intros; now apply index_get_empty. }
  assert (Gp : forall p, PyDict.get p pd = last_row p previous).
  { intros; now apply index_get_empty. }
  split; [|split; [|split; [|split; [|split]]]].
  - intros p. unfold present.
    destruct (last_row p current) as [c|] eqn:Lc;
      [destruct (last_row p previous) as [pv|] eqn:Lp|]; simpl.
    + apply count_named_absent. intros I.
      apply in_map_iff in I. destruct I as (nw & P & I).
      destruct (C _ I) as (c' & _ & G & _). rewrite P, Gp, Lp in G. discriminate.
    + apply count_named_NoDup; [assumption|].
      destruct (D p c) as (nw & I & P & _).
      * apply get_In. now rewrite Gc.
      * now rewrite Gp.
      * rewrite <- P. now apply in_map.
    + apply count_named_absent. intros I.
      apply in_map_iff in I. destruct I as (nw & P & I).
      destruct (C _ I) as (c' & I' & _). rewrite P in I'.
      apply (@In_get _ _ _ _ NDc) in I'. rewrite Gc, Lc in I'. discriminate.
  - intros nw I. destruct (C _ I) as (c & I' & _ & Q & X).
    exists c. split; [|auto].
    rewrite <- Gc. now apply In_get.
  - intros p. unfold present.
    destruct (last_row p previous) as [pv|] eqn:Lp;
      [destruct (last_row p current) as [c|] eqn:Lc|]; simpl.
    + apply count_named_absent. intros I.
      apply in_map_iff in I. destruct I as (rm & P & I).
      destruct (A' _ I) as (pv' & _ & G & _). rewrite P, Gc, Lc in G. discriminate.
    + apply count_named_NoDup; [assumption|].
      destruct (B' p pv) as (rm & I & P & _).
      * apply get_In. now rewrite Gp.
      * now rewrite Gc.
      * rewrite <- P. now apply in_map.
    + apply count_named_absent. intros I.
      apply in_map_iff in I. destruct I as (rm & P & I).
      destruct (A' _ I) as (pv' & I' & _). rewrite P in I'.
      apply (@In_get _ _ _ _ NDp) in I'. rewrite Gp, Lp in I'. discriminate.
  - intros rm I. destruct (A' _ I) as (pv & I' & _ & Q).
    exists pv. split; [|auto].
    rewrite <- Gp. now apply In_get.
  - intros ->. simpl in Ep. inversion Ep; subst pd.
    simpl in E2. inversion E2. split; [|reflexivity].
    apply no_element. intros ev I.
    destruct (A _ I) as (_ & pv & _ & _ & G & _). discriminate.
  - intros ->. simpl in Ec. inversion Ec; subst cd.
    simpl in E1. inversion E1. split; reflexivity.
Qed.

(** *** The clock and the content of a change set *)

Definition erase_change (ev : change_info) : change_info :=
  {| ci_product := ci_product ev;
     previous_quantity := previous_quantity ev;
     current_quantity := current_quantity ev;
     quantity_diff := quantity_diff ev;
     previous_expiry := previous_expiry ev;
     current_expiry := current_expiry ev;
     expiry_changed := expiry_changed ev;
     ci_timestamp := [];
     type := type ev;
     shipped_quantity := shipped_quantity ev |}.

Definition erase_new (nw : new_product) : new_product :=
  {| np_product := np_product nw; np_quantity := np_quantity nw;
     np_expiry_date := np_expiry_date nw; np_timestamp := [] |}.

Definition erase_removed (rm : removed_product) : removed_product :=
  {| rp_product := rp_product rm;
     rp_previous_quantity := rp_previous_quantity rm; rp_timestamp := [] |}.

(** A change set with every ['timestamp'] blanked. *)
Definition erase_timestamps (cs : change_set) : change_set :=
  {| changes := map erase_change (changes cs);
     new_products := map erase_new (new_products cs);
     removed_products := map erase_removed (removed_products cs);
     timestamp := [] |}.

(** What a run of the differ produces, apart from the clock. *)
Definition content (r : result (change_set * nat)) : result change_set :=
  match r with
  | Ok (cs, _) => Ok (erase_timestamps cs)
  | Raise e => Raise e
  end.

Definition content1 (r : result (list change_info * list new_product * nat)) :=
  match r with
  | Ok (chs, nws, _) => Ok (map erase_change chs, map erase_new nws)
  | Raise e => Raise e
  end.

Definition content2 (r : result (list removed_product * nat)) :=
  match r with
  | Ok (rms, _) => Ok (map erase_removed rms)
  | Raise e => Raise e
  end.

Definition content0 (r : result (option change_info)) :=
  match r with
  | Ok c => Ok (option_map erase_change c)
  | Raise e => Raise e
  end.

Lemma compare_item_content clk t clk' t' k c pv :
  content0 (compare_item clk t k c pv) = content0 (compare_item clk' t' k c pv).
Proof.
  unfold compare_item.
  destruct (quantity c), (quantity pv), (expiry_date c); simpl; auto.
  destruct (_ || _); reflexivity.
Qed.

Lemma scan_current_content clk clk' pd : forall its t t',
  content1 (scan_current clk pd its t) = content1 (scan_current clk' pd its t').
Proof.
  induction its as [|[k c] its IH]; simpl; intros t t'; [reflexivity|].
  destruct (PyDict.get k pd) as [pv|].
  - pose proof (compare_item_content clk t clk' t' k c pv) as Hc.
    destruct (compare_item clk t k c pv) as [[ev|]|e],
             (compare_item clk' t' k c pv) as [[ev'|]|e'];
      simpl in Hc; try discriminate; simpl.
    + specialize (IH (S t) (S t')).
      destruct (scan_current clk pd its (S t)) as [[[c1 n1] t1]|e1],
               (scan_current clk' pd its (S t')) as [[[c2 n2] t2]|e2];
        simpl in *; try discriminate; [|assumption].
      inversion Hc; inversion IH. congruence.
    + apply IH.
    + congruence.
  - destruct (quantity c); simpl; [|reflexivity].
    destruct (expiry_date c); simpl; [|reflexivity].
    specialize (IH (S t) (S t')).
    destruct (scan_current clk pd its (S t)) as [[[c1 n1] t1]|e1],
             (scan_current clk' pd its (S t')) as [[[c2 n2] t2]|e2];
      simpl in *; try discriminate; [|assumption].
    inversion IH. unfold erase_new at 1 3; simpl. congruence.
Qed.

Lemma scan_previous_content clk clk' cd : forall its t t',
  content2 (scan_previous clk cd its t) = content2 (scan_previous clk' cd its t').
Proof.
  induction its as [|[k pv] its IH]; simpl; intros t t'; [reflexivity|].
  destruct (PyDict.mem k cd); [apply IH|].
  destruct (quantity pv); simpl; [|reflexivity].
  specialize (IH (S t) (S t')).
  destruct (scan_previous clk cd its (S t)) as [[r1 t1]|e1],
           (scan_previous clk' cd its (S t')) as [[r2 t2]|e2];
    simpl in *; try discriminate; [|assumption].
  inversion IH. unfold erase_removed at 1 3; simpl. congruence.
Qed.

Lemma compare_inventory_content clk t clk' t' h current key :
  content (compare_inventory clk t h current key) =
  content (compare_inventory clk' t' h current key).
Proof.
  unfold compare_inventory.
  destruct (index_by_product current PyDict.empty) as [cd|]; simpl; [|reflexivity].
  destruct (index_previous _) as [pd|]; simpl; [|reflexivity].
  pose proof (scan_current_content clk clk' pd cd t t') as H1.
  destruct (scan_current clk pd cd t) as [[[c1 n1] t1]|e1],
           (scan_current clk' pd cd t') as [[[c2 n2] t2]|e2];
    simpl in *; try discriminate; [|congruence].
  pose proof (scan_previous_content clk clk' cd pd t1 t2) as H2.
  destruct (scan_previous clk cd pd t1) as [[r1 u1]|e1],
           (scan_previous clk' cd pd t2) as [[r2 u2]|e2];
    simpl in *; try discriminate; [|congruence].
  unfold erase_timestamps; simpl. inversion H1; inversion H2. congruence.
Qed.

(** C3, as the code has it.  The differ reads the clock for every
    ['timestamp'] it writes, so two runs agree on everything but the
    timestamps: the content of the result (events, their order, or the
    exception raised) is a function of the two listings alone.  On
    well-typed listings the differ returns a change set. *)
Theorem diff_deterministic_up_to_clock clk1 t1 clk2 t2 current previous :
  content (diff clk1 t1 current previous) = content (diff clk2 t2 current previous) /\
  (listing_ok current -> listing_ok previous ->
   exists cs t', diff clk1 t1 current previous = Ok (cs, t')).
Proof.
  split.
  - apply compare_inventory_content.
  - apply diff_ok.
Qed.

End DifferFacts.

(* ================================================================== *)
(** ** The expiry scanner *)

Module ExpiryFacts.

Import Py PyStr Model InventoryMonitor.
Local Open Scope Z_scope.

Definition by_days (x y : expiring) : Prop :=
  days_until_expiry x <= days_until_expiry y.

(** *** The sort *)

Lemma insert_by_days_perm x l : Permutation (x :: l) (insert_by_days x l).
Proof.
  induction l as [|y l IH]; simpl; [apply Permutation_refl|].
  destruct (_ <? _); [|apply Permutation_refl].
  eapply perm_trans; [apply perm_swap|]. now apply perm_skip.
Qed.

Lemma sort_by_days_perm l : Permutation l (sort_by_days l).
Proof.
  induction l as [|x l IH]; simpl; [constructor|].
  eapply perm_trans; [apply perm_skip, IH | apply insert_by_days_perm].
Qed.

Lemma insert_by_days_sorted x l :
  StronglySorted by_days l -> StronglySorted by_days (insert_by_days x l).
Proof.
  induction 1 as [|y l S IH F]; simpl.
  - repeat constructor.
  - destruct (days_until_expiry y <? days_until_expiry x) eqn:L.
    + apply Z.ltb_lt in L. constructor; [assumption|].
      apply (Permutation_Forall (insert_by_days_perm x l)).
      constructor; [unfold by_days; lia | assumption].
    + apply Z.ltb_ge in L. constructor; [now constructor|].
      constructor; [exact L|].
      eapply Forall_impl; [|exact F]. unfold by_days; intros; lia.
Qed.

Lemma sort_by_days_sorted l : StronglySorted by_days (sort_by_days l).
Proof.
  induction l as [|x l IH]; simpl; [constructor|].
  now apply insert_by_days_sorted.
Qed.

(** Stability: the elements with a given key come out in the order in
    which they went in. *)
Definition with_days (d : Z) (x : expiring) : bool := days_until_expiry x =? d.

Lemma insert_by_days_stable d x l :
  filter (with_days d) (insert_by_days x l) = filter (with_days d) (x :: l).
Proof.
  induction l as [|y l IH]; [reflexivity|].
  simpl insert_by_days.
  destruct (days_until_expiry y <? days_until_expiry x) eqn:L; [|reflexivity].
  apply Z.ltb_lt in L.
  change (filter (with_days d) (y :: insert_by_days x l))
    with (if with_days d y then y :: filter (with_days d) (insert_by_days x l)
          else filter (with_days d) (insert_by_days x l)).
  rewrite IH. simpl. unfold with_days.
  destruct (days_until_expiry x =? d) eqn:X, (days_until_expiry y =? d) eqn:Y;
    try reflexivity.
  apply Z.eqb_eq in X, Y. lia.
Qed.

Lemma sort_by_days_stable d l :
  filter (with_days d) (sort_by_days l) = filter (with_days d) l.
Proof.
  induction l as [|x l IH]; [reflexivity|].
  simpl sort_by_days. rewrite insert_by_days_stable. simpl. now rewrite IH.
Qed.

Section WithDigits.
Variable ud : unicode_digits.

(** *** The scan *)

(** The expiry of a row as the scanner reads it: the midnight that
    starts the day, in microseconds, when ['expiry_date'] is set and
    [strptime] accepts it. *)
Definition parsed_expiry (it : item) : option Z :=
  match expiry_date it with
  | Some s => option_map Datetime.to_microseconds (Datetime.strptime_ymd ud s)
  | None => None
  end.

(** The rows the scanner keeps: parsed, and not later than the cutoff. *)
Definition kept (cutoff_date : Z) (it : item) : bool :=
  match parsed_expiry it with
  | Some e => e <=? cutoff_date
  | None => false
  end.

Lemma scan_item_kept clk cutoff t it :
  match scan_item ud clk cutoff t it with
  | Some x =>
      kept cutoff it = true /\ row x = it /\
      exists e, parsed_expiry it = Some e /\
        days_until_expiry x =
        Datetime.delta_days e (Datetime.to_microseconds (clk t))
  | None => kept cutoff it = false
  end.
Proof.
  unfold scan_item, kept, parsed_expiry, Datetime.le_us.
  destruct (expiry_date it) as [s|]; [|reflexivity].
  destruct (Datetime.strptime_ymd ud s) as [e|]; simpl; [|reflexivity].
  destruct (_ <=? _); [|reflexivity]. simpl. eauto.
Qed.

Lemma scan_expiry_spec clk cutoff : forall inventory t,
  let '(xs, t') := scan_expiry ud clk cutoff inventory t in
  map row xs = filter (kept cutoff) inventory /\
  (t <= t')%nat /\
  forall x, In x xs ->
    exists e tx, (t <= tx)%nat /\ parsed_expiry (row x) = Some e /\
      days_until_expiry x =
      Datetime.delta_days e (Datetime.to_microseconds (clk tx)).
Proof.
  induction inventory as [|it inventory IH]; simpl; intros t.
  - repeat split; [lia | intros x []].
  - pose proof (scan_item_kept clk cutoff t it) as K.
    destruct (scan_item ud clk cutoff t it) as [x|].
    + destruct K as (K & R & e & P & D). rewrite K.
      specialize (IH (S t)).
      destruct (scan_expiry ud clk cutoff inventory (S t)) as [xs t'].
      destruct IH as (M & L & F). simpl. rewrite R, M.
      split; [reflexivity|]. split; [lia|].
      intros y [<- | I].
      * exists e, t. rewrite R. auto.
      * destruct (F _ I) as (e' & tx & ? & ? & ?). exists e', tx.
        repeat split; auto; lia.
    + rewrite K. apply IH.
Qed.

(** C5, as the code has it.  When [now + horizon days] is a
    representable datetime, the scanner returns the rows whose
    ['expiry_date'] is set and parses and whose expiry (the midnight
    that starts the day) is not later than [now + horizon days]; rows
    that are already expired are kept, rows without a parsable expiry
    are dropped and raise nothing.  The result [out] holds these rows
    ([xs], in listing order) sorted ascending by [days_until_expiry],
    equal keys in listing order, and each [days_until_expiry] is the
    whole number of days from the clock (as read when the row is added)
    to the expiry, rounded down; it is at most the horizon when the
    clock has not gone back since the cutoff was computed. *)
Theorem expiring_soon_spec (clk : clock) (t : nat) (inventory : list item) (days : Z) :
  let cutoff_date := Datetime.to_microseconds (clk t) + days * Datetime.DAY in
  Datetime.MIN_US <= cutoff_date <= Datetime.MAX_US ->
  exists out xs t',
    get_expiring_soon_products ud clk t inventory days = Ok (out, t') /\
    map row xs = filter (kept cutoff_date) inventory /\
    Permutation xs out /\
    StronglySorted by_days out /\
    (forall d, filter (with_days d) out = filter (with_days d) xs) /\
    (forall x, In x out ->
       exists e tx, (t < tx)%nat /\
         parsed_expiry (row x) = Some e /\ e <= cutoff_date /\
         days_until_expiry x =
           Datetime.delta_days e (Datetime.to_microseconds (clk tx)) /\
         (Datetime.to_microseconds (clk t) <= Datetime.to_microseconds (clk tx) ->
          days_until_expiry x <= days)).
Proof.
  intros cutoff_date R.
  unfold get_expiring_soon_products, Datetime.add_days.
  fold cutoff_date.
  replace ((Datetime.MIN_US <=? cutoff_date) && (cutoff_date <=? Datetime.MAX_US))
    with true by (symmetry; apply andb_true_iff; split; apply Z.leb_le; lia).
  pose proof (scan_expiry_spec clk cutoff_date inventory (S t)) as Sp.
  destruct (scan_expiry ud clk cutoff_date inventory (S t)) as [xs t'].
  destruct Sp as (M & L & F).
  exists (sort_by_days xs), xs, t'.
  split; [reflexivity|]. split; [exact M|].
  split; [apply sort_by_days_perm|]. split; [apply sort_by_days_sorted|].
  split; [intros d; apply sort_by_days_stable|].
  intros x I.
  apply (Permutation_in _ (Permutation_sym (sort_by_days_perm xs))) in I.
  destruct (F _ I) as (e & tx & Lt & P & D).
  assert (K : kept cutoff_date (row x) = true).
  { assert (I' : In (row x) (map row xs)) by now apply in_map.
    rewrite M in I'. now apply filter_In in I'. }
  unfold kept in K. rewrite P in K. apply Z.leb_le in K.
  exists e, tx. repeat (split; [first [lia | assumption]|]).
  intros Mono. rewrite D. unfold Datetime.delta_days.
  apply Z.div_le_upper_bound; [reflexivity|].
  unfold cutoff_date in K. lia.
Qed.

End WithDigits.

End ExpiryFacts.

(* ================================================================== *)
(** ** The matcher *)

Module RegexFacts.

Import PyStr Regex.

(** [matches r w cs]: the pattern [r] can match exactly the text [w],
    capturing [cs]. *)
Inductive matches : re -> str -> list str -> Prop :=
| m_chr p c : p c = true -> matches (Chr p) [c] []
| m_eps : matches Eps [] []
| m_seq r1 r2 w1 w2 c1 c2 :
    matches r1 w1 c1 -> matches r2 w2 c2 ->
    matches (Seq r1 r2) (w1 ++ w2) (c1 ++ c2)
| m_alt_l r1 r2 w cs : matches r1 w cs -> matches (Alt r1 r2) w cs
| m_alt_r r1 r2 w cs : matches r2 w cs -> matches (Alt r1 r2) w cs
| m_star p w : Forall (fun c => p c = true) w -> matches (Star p) w []
| m_group r w cs : matches r w cs -> matches (Group r) w (cs ++ [w])
| m_eol : matches Eol [] [].

Lemma firstn_consumed (w s' : str) :
  firstn (List.length (w ++ s') - List.length s') (w ++ s') = w.
Proof.
  rewrite length_app, Nat.add_sub.
  rewrite firstn_app, Nat.sub_diag, firstn_all. simpl. apply app_nil_r.
Qed.

Section Soundness.
Variable R : Type.

Lemma star_sound p : forall s (k : str -> option R) x,
  star p s k = Some x ->
  exists w s', s = w ++ s' /\ Forall (fun c => p c = true) w /\ k s' = Some x.
Proof.
  induction s as [|c s IH]; simpl; intros k x H.
  - exists [], []. auto.
  - destruct (p c) eqn:P.
    + destruct (star p s k) eqn:S.
      * inversion H; subst.
        destruct (IH _ _ S) as (w & s' & -> & F & K).
        exists (c :: w), s'. auto.
      * exists [], (c :: s). auto.
    + exists [], (c :: s). auto.
Qed.

(** Whatever the matcher finds is a match: a prefix [w] of the text is
    matched by the pattern, and the continuation succeeded on the rest
    with the captures of [w] added. *)
Lemma run_sound : forall r s caps (k : str -> list str -> option R) x,
  run r s caps k = Some x ->
  exists w s' cs, s = w ++ s' /\ matches r w cs /\ k s' (caps ++ cs) = Some x.
Proof.
  induction r as [p| |r1 IH1 r2 IH2|r1 IH1 r2 IH2|p|r IH|];
    simpl; intros s caps k x H.
  - destruct s as [|c s]; [discriminate|].
    destruct (p c) eqn:P; [|discriminate].
    exists [c], s, []. rewrite app_nil_r. repeat split; auto. now constructor.
  - exists [], s, []. rewrite app_nil_r. repeat split; auto. constructor.
  - destruct (IH1 _ _ _ _ H) as (w1 & s1 & c1 & -> & M1 & H1).
    destruct (IH2 _ _ _ _ H1) as (w2 & s2 & c2 & -> & M2 & H2).
    exists (w1 ++ w2), s2, (c1 ++ c2).
    rewrite <- !app_assoc in *. repeat split; auto. now constructor.
  - destruct (run r1 s caps k) eqn:E1.
    + inversion H; subst.
      destruct (IH1 _ _ _ _ E1) as (w & s' & cs & -> & M & K).
      exists w, s', cs. repeat split; auto. now apply m_alt_l.
    + destruct (IH2 _ _ _ _ H) as (w & s' & cs & -> & M & K).
      exists w, s', cs. repeat split; auto. now apply m_alt_r.
  - destruct (star_sound _ _ _ H) as (w & s' & -> & F & K).
    exists w, s', []. rewrite app_nil_r. repeat split; auto. now constructor.
  - destruct (IH _ _ _ _ H) as (w & s' & cs & -> & M & K).
    rewrite firstn_consumed in K.
    exists w, s', (cs ++ [w]). rewrite app_assoc. repeat split; auto.
    now constructor.
  - exists [], s, []. rewrite app_nil_r.
    repeat split; [constructor|].
    destruct s as [|c s]; [exact H|].
    destruct c as [|q]; [discriminate|].
    do 4 (destruct q as [q|q|]; try discriminate).
    destruct s; [exact H | discriminate].
Qed.

End Soundness.

Lemma match_at_sound r s m :
  match_at r s = Some m ->
  s = whole m ++ rest m /\ matches r (whole m) (groups m).
Proof.
  unfold match_at. intros H.
  destruct (run_sound _ _ _ _ H) as (w & s' & cs & -> & M & K).
  rewrite firstn_consumed in K. inversion K; subst; simpl. auto.
Qed.

Lemma search_sound r : forall s m,
  search r s = Some m -> matches r (whole m) (groups m).
Proof.
  induction s as [|c s IH]; simpl; intros m H.
  - destruct (match_at r []) eqn:E; [|discriminate].
    inversion H; subst. now apply match_at_sound in E.
  - destruct (match_at r (c :: s)) eqn:E.
    + inversion H; subst. now apply match_at_sound in E.
    + auto.
Qed.

(** [findall] starts with the match that [search] finds. *)
Lemma findall_first r s :
  hd_error (findall r s) = option_map whole (search r s).
Proof.
  unfold findall. generalize (Nat.le_refl (S (List.length s))).
  generalize (S (List.length s)) at 2 3 as n.
  intros n; revert s. induction n as [|n IH]; intros s L; [simpl in L; lia|].
  destruct s as [|c s]; simpl.
  - destruct (match_at r []); reflexivity.
  - destruct (match_at r (c :: s)); [reflexivity|].
    apply IH. simpl in L. lia.
Qed.

End RegexFacts.

(* ================================================================== *)
(** ** The matcher, by its list of successes *)

(** A backtracking matcher tries the ways in which a pattern can match
    at a position one after the other and stops at the first on which
    the rest of the match succeeds.  [ways r s] lists those ways in the
    order in which they are tried, and [run] is the first success along
    that list. *)
Module MatcherFacts.

Import PyStr Regex RegexFacts.

(** Takes the matches of sequences, alternatives, groups and single
    characters apart. *)
Ltac match_cases :=
  repeat match goal with
  | H : matches (Seq _ _) _ _ |- _ => inversion H; subst; clear H
  | H : matches (Alt _ _) _ _ |- _ => inversion H; subst; clear H
  | H : matches (Group _) _ _ |- _ => inversion H; subst; clear H
  | H : matches (Chr _) _ _ |- _ => inversion H; subst; clear H
  | H : matches Eps _ _ |- _ => inversion H; subst; clear H
  end.




Section FirstSuccess.
Variables A R : Type.




End FirstSuccess.



Section Run.
Variable R : Type.



End Run.


(** *** Matching a run of characters *)

(** The greedy star takes the whole run when what follows is accepted
    by the continuation. *)
Lemma star_longest {R} (p : char -> bool) (w s' : str) (k : str -> option R) x :
  Forall (fun c => p c = true) w ->
  match s' with [] => True | c :: _ => p c = false end ->
  k s' = Some x ->
  star p (w ++ s') k = Some x.
Proof.
  intros F E K. induction F as [|c w P _ IH]; simpl.
  - destruct s' as [|c s']; [exact K|]. simpl. now rewrite E.
  - now rewrite P, IH.
Qed.

(** [[class]+] at the head of a run of the class, up to a character
    outside it, matches the run. *)
Lemma match_at_plus (p : char -> bool) (w s' : str) :
  w <> [] -> Forall (fun c => p c = true) w ->
  match s' with [] => True | c :: _ => p c = false end ->
  match_at (Plus p) (w ++ s') = Some {| whole := w; groups := []; rest := s' |}.
Proof.
  intros NE F E. destruct w as [|c w]; [congruence|].
  inversion F as [|? ? P F']; subst.
  unfold match_at, Plus. cbn [run app]. rewrite P.
  erewrite star_longest; [|exact F' | exact E | reflexivity].
  change (c :: w ++ s') with ((c :: w) ++ s').
  now rewrite firstn_consumed.
Qed.

Lemma search_here r s m : match_at r s = Some m -> search r s = Some m.
Proof. intros H. destruct s; simpl; now rewrite H. Qed.

(** A match found by [search] lies in the text. *)
Lemma search_inside r : forall s m,
  search r s = Some m -> exists before, s = before ++ whole m ++ rest m.
Proof.
  induction s as [|c s IH]; simpl; intros m H.
  - destruct (match_at r []) eqn:E; [|discriminate].
    inversion H; subst. apply match_at_sound in E. exists []. tauto.
  - destruct (match_at r (c :: s)) eqn:E.
    + inversion H; subst. apply match_at_sound in E. exists []. tauto.
    + destruct (IH _ H) as [before ->]. now exists (c :: before).
Qed.

Lemma findall_none r s : search r s = None -> findall r s = [].
Proof.
  intros H. pose proof (findall_first r s) as F. rewrite H in F.
  now destruct (findall r s).
Qed.

Lemma findall_head r s m :
  search r s = Some m -> exists more, findall r s = whole m :: more.
Proof.
  intros H. pose proof (findall_first r s) as F. rewrite H in F.
  destruct (findall r s) as [|x more]; [discriminate|].
  inversion F; subst. eauto.
Qed.

(** A match of [[class]+] is a run of the class, and not empty. *)
Lemma matches_plus (p : char -> bool) w cs :
  matches (Plus p) w cs -> w <> [] /\ Forall (fun c => p c = true) w /\ cs = [].
Proof.
  unfold Plus. intros H.
  inversion H as [| |? ? w1 w2 c1 c2 M1 M2| | | | |]; subst; clear H.
  inversion M1; subst; clear M1. inversion M2; subst; clear M2.
  split; [discriminate|]. split; [now constructor | reflexivity].
Qed.

Lemma search_plus_none (p : char -> bool) s :
  Forall (fun c => p c = false) s -> search (Plus p) s = None.
Proof.
  intros F. destruct (search (Plus p) s) as [m|] eqn:S; [|reflexivity].
  destruct (search_inside _ _ S) as [before E].
  apply search_sound in S. apply matches_plus in S.
  destruct S as (NE & W & _). destruct (whole m) as [|c w]; [congruence|].
  inversion W as [|? ? P _]; subst.
  rewrite Forall_forall in F. rewrite F in P; [discriminate|].
  apply in_or_app; right. now left.
Qed.

(** *** Text around a match *)















End MatcherFacts.

(* ================================================================== *)
(** ** The order field extractor *)

Module ExtractorFacts.

Import Py PyStr Regex RegexFacts OrderDataExtractor.
Local Open Scope Z_scope.

(** *** Digits *)

Lemma ascii_digit_not_space c d : ascii_digit c = Some d -> is_space c = false.
Proof.
  destruct c as [|p]; [discriminate|].
  do 6 (destruct p as [p|p|]; try discriminate); intros _; reflexivity.
Qed.

Section WithDigits.
Variable ud : unicode_digits.

Definition digits (w : str) : Prop := Forall (fun c => is_digit ud c = true) w.

Lemma digit_not_space c : is_digit ud c = true -> is_space c = false.
Proof.
  unfold is_digit, decimal.
  destruct (ascii_digit c) eqn:A; [intros _; eapply ascii_digit_not_space; eauto|].
  destruct (is_space c); [|reflexivity].
  rewrite orb_true_r. discriminate.
Qed.

Lemma lstrip_digits w : digits w -> lstrip w = w.
Proof.
  destruct 1 as [|c w D _]; [reflexivity|].
  simpl. now rewrite (digit_not_space _ D).
Qed.

Lemma strip_digits w : digits w -> strip w = w.
Proof.
  intros D. unfold strip. rewrite (lstrip_digits D).
  rewrite lstrip_digits; [apply rev_involutive | now apply Forall_rev].
Qed.

Lemma int_digits_bounds w : digits w -> forall acc, 0 <= acc ->
  exists n, int_digits ud w acc = Some n /\
    acc * 10 ^ Z.of_nat (List.length w) <= n
      < (acc + 1) * 10 ^ Z.of_nat (List.length w).
Proof.
  induction 1 as [|c w D _ IH]; intros acc A.
  - exists acc. simpl. split; [reflexivity | lia].
  - cbn [int_digits]. unfold is_digit in D.
    destruct (decimal ud c) as [d|]; [|discriminate].
    assert (V : 0 <= digit_value d <= 9) by (destruct d; simpl; lia).
    destruct (IH (10 * acc + digit_value d)) as (n & -> & B); [lia|].
    exists n. split; [reflexivity|].
    cbn [List.length]. rewrite Nat2Z.inj_succ, Z.pow_succ_r by lia.
    nia.
Qed.

(** [int] accepts a run of digits, and reads a number with at most as
    many digits. *)
Lemma int_digits_ok w : digits w -> w <> [] ->
  exists n, int ud w = Some n /\ 0 <= n < 10 ^ Z.of_nat (List.length w).
Proof.
  intros D N. unfold int. rewrite (strip_digits D).
  destruct (int_digits_bounds D (acc := 0)) as (n & E & B); [lia|].
  destruct w; [congruence|]. exists n. split; [exact E | lia].
Qed.

(** *** The date patterns *)

Ltac inv_matches :=
  repeat match goal with
  | H : matches (Seq _ _) _ _ |- _ => inversion H; subst; clear H
  | H : matches (Alt _ _) _ _ |- _ => inversion H; subst; clear H
  | H : matches (Group _) _ _ |- _ => inversion H; subst; clear H
  | H : matches (Chr _) _ _ |- _ => inversion H; subst; clear H
  | H : matches Eps _ _ |- _ => inversion H; subst; clear H
  end.

(** What a date pattern captures: three runs of digits, the year of
    four or two, the month and the day of one or two. *)
Definition date_groups (gs : list str) : Prop :=
  exists year month day,
    gs = [year; month; day] /\
    digits year /\ (List.length year = 4 \/ List.length year = 2)%nat /\
    digits month /\ (1 <= List.length month <= 2)%nat /\
    digits day /\ (1 <= List.length day <= 2)%nat.

Lemma date_pattern_groups p text m :
  In p (date_patterns ud) -> search p text = Some m -> date_groups (groups m).
Proof.
  intros I H. apply search_sound in H. revert H.
  generalize (whole m) (groups m). intros w gs.
  cbv [date_patterns Seqs Times Upto2 Opt Lit] in I.
  destruct I as [<- | [<- | [<- | []]]]; intros H; inv_matches; simpl;
    unfold date_groups; do 3 eexists; (split; [reflexivity|]);
    repeat match goal with |- _ /\ _ => split end;
    try (repeat (apply Forall_cons; [assumption|]); apply Forall_nil);
    simpl; lia.
Qed.

(** *** The date a pattern proposes *)

(** The year, month and day read from the leftmost match of a pattern,
    a two-digit year moved to its century. *)
Definition proposal (p : re) (text : str) : option (Z * Z * Z) :=
  match search p text with
  | Some m =>
      match groups m with
      | [year; month; day] =>
          match int ud year, int ud month, int ud day with
          | Some y, Some mo, Some d =>
              Some (if (List.length year =? 2)%nat then two_digit_year y else y,
                    mo, d)
          | _, _, _ => None
          end
      | _ => None
      end
  | None => None
  end.

(** The text a pattern yields: its proposal when that is a date of the
    calendar. *)
Definition accepted (p : re) (text : str) : option str :=
  match proposal p text with
  | Some (y, mo, d) => option_map Datetime.strftime_ymd (Datetime.make y mo d)
  | None => None
  end.

Fixpoint first_accepted (ps : list re) (text : str) : option str :=
  match ps with
  | [] => None
  | p :: rest =>
      match accepted p text with
      | Some s => Some s
      | None => first_accepted rest text
      end
  end.

Lemma extract_date_from_spec text : forall ps,
  (forall p, In p ps -> In p (date_patterns ud)) ->
  extract_date_from ud ps text = Ok (first_accepted ps text).
Proof.
  induction ps as [|p ps IH]; intros Sub; [reflexivity|].
  assert (IH' : extract_date_from ud ps text = Ok (first_accepted ps text)).
  { apply IH. intros q I. apply Sub. now right. }
  cbn [extract_date_from first_accepted]. unfold accepted, proposal.
  destruct (search p text) as [m|] eqn:S; [|exact IH'].
  destruct (@date_pattern_groups p text m (Sub p (or_introl eq_refl)) S)
    as (year & month & day & -> & Dy & Ly & Dm & Lm & Dd & Ld).
  destruct (int_digits_ok Dy) as (y & Ey & By); [destruct year; simpl in *; [lia | discriminate]|].
  destruct (int_digits_ok Dm) as (mo & Em & Bm); [destruct month; simpl in *; [lia | discriminate]|].
  destruct (int_digits_ok Dd) as (d & Ed & Bd); [destruct day; simpl in *; [lia | discriminate]|].
  unfold convert_year, normalise. rewrite Ey, Em, Ed.
  destruct (List.length year =? 2)%nat eqn:L2.
  - apply Nat.eqb_eq in L2. rewrite L2 in By.
    replace ((0 <=? y) && (y <=? 99)) with true
      by (symmetry; apply andb_true_iff; split; apply Z.leb_le; lia).
    simpl. destruct (option_map _ _); [reflexivity | exact IH'].
  - simpl. destruct (option_map _ _); [reflexivity | exact IH'].
Qed.

(** *** The shape of the result *)









(** *** The item scan *)

(** The label patterns have one group: [group(1)] is what it captured,
    a run of digits and commas. *)
Lemma label_pattern_group (label : str) text m :
  search (Seqs [Word label; Star label_sep; Group (Plus (number_char ud))]) text
    = Some m ->
  groups m = [group1 m] /\
  Forall (fun c => number_char ud c = true) (group1 m) /\ group1 m <> [].
Proof.
  intros H. apply search_sound in H. revert H. unfold group1.
  generalize (whole m) (groups m). intros w gs.
  cbv [Seqs Plus]. intros H.
  inversion H as [| |? ? w1 w2 c1 c2 M1 M2| | | | |]; subst; clear H.
  assert (C1 : c1 = []).
  { clear M2. revert w1 c1 M1. induction label as [|c label IH]; simpl; intros w1 c1 M1.
    - now inversion M1.
    - inversion M1 as [| |? ? ? ? ? ? Ma Mb| | | | |]; subst.
      inversion Ma; subst. now rewrite (IH _ _ Mb). }
  subst c1. inv_matches.
  match goal with H : matches (Star _) _ _ |- _ => inversion H; subst; clear H end.
  match goal with H : matches (Star _) _ _ |- _ => inversion H; subst; clear H end.
  simpl. repeat split; [now constructor | discriminate].
Qed.

(** C9.  [extract_items] returns at most one record, whatever the
    number of lines and of item lines in the text: the single record
    that the scan of all the lines has filled, when some field of it is
    set, and nothing otherwise. *)
Theorem extract_items_at_most_one (text : str) :
  (List.length (extract_items ud text) <= 1)%nat /\
  (forall it, In it (extract_items ud text) ->
     it = fold_left (scan_line ud) (split 10%N text) empty_item /\
     nonempty it = true) /\
  (extract_items ud text = [] <->
   nonempty (fold_left (scan_line ud) (split 10%N text) empty_item) = false).
Proof.
  unfold extract_items.
  destruct (nonempty (fold_left (scan_line ud) (split 10%N text) empty_item)) eqn:N.
  - split; [simpl; lia|]. split.
    + intros it [<- | []]. auto.
    + split; discriminate.
  - split; [simpl; lia|]. split.
    + intros it [].
    + split; reflexivity.
Qed.

End WithDigits.

End ExtractorFacts.

(* ================================================================== *)
(** ** Numbers as text *)

Module NumeralFacts.

Import PyStr PyFacts.
Local Open Scope Z_scope.

(** *** The text of a number *)

(** The digits of a decimal numeral, as code points. *)
Fixpoint uint_chars (d : Decimal.uint) : str :=
  match d with
  | Decimal.Nil => []
  | Decimal.D0 d' => 48%N :: uint_chars d'
  | Decimal.D1 d' => 49%N :: uint_chars d'
  | Decimal.D2 d' => 50%N :: uint_chars d'
  | Decimal.D3 d' => 51%N :: uint_chars d'
  | Decimal.D4 d' => 52%N :: uint_chars d'
  | Decimal.D5 d' => 53%N :: uint_chars d'
  | Decimal.D6 d' => 54%N :: uint_chars d'
  | Decimal.D7 d' => 55%N :: uint_chars d'
  | Decimal.D8 d' => 56%N :: uint_chars d'
  | Decimal.D9 d' => 57%N :: uint_chars d'
  end.

(** The value of a numeral read from the left, [acc] being the value of
    the digits already read. *)
Fixpoint uint_value (d : Decimal.uint) (acc : Z) : Z :=
  match d with
  | Decimal.Nil => acc
  | Decimal.D0 d' => uint_value d' (10 * acc)
  | Decimal.D1 d' => uint_value d' (10 * acc + 1)
  | Decimal.D2 d' => uint_value d' (10 * acc + 2)
  | Decimal.D3 d' => uint_value d' (10 * acc + 3)
  | Decimal.D4 d' => uint_value d' (10 * acc + 4)
  | Decimal.D5 d' => uint_value d' (10 * acc + 5)
  | Decimal.D6 d' => uint_value d' (10 * acc + 6)
  | Decimal.D7 d' => uint_value d' (10 * acc + 7)
  | Decimal.D8 d' => uint_value d' (10 * acc + 8)
  | Decimal.D9 d' => uint_value d' (10 * acc + 9)
  end.

Lemma utf8_uint d : utf8 (NilEmpty.string_of_uint d) = uint_chars d.
Proof.
  unfold utf8. induction d; simpl; try rewrite IHd; reflexivity.
Qed.

Lemma uint_value_rev d : forall acc,
  uint_value d acc =
  acc * 10 ^ Z.of_N (DecimalPos.Unsigned.usize d) +
  Z.of_N (DecimalPos.Unsigned.of_lu (Decimal.rev d)).
Proof.
  induction d; intros acc; cbn [uint_value DecimalPos.Unsigned.usize];
    [simpl; lia | ..];
    rewrite IHd; unfold Decimal.rev; cbn [Decimal.revapp];
    rewrite (DecimalPos.Unsigned.of_lu_revapp d (_ Decimal.Nil));
    fold (Decimal.rev d);
    rewrite N2Z.inj_add, N2Z.inj_mul, N2Z.inj_pow, N2Z.inj_succ;
    rewrite Z.pow_succ_r by lia;
    cbn [DecimalPos.Unsigned.of_lu]; rewrite ?N.mul_0_r, ?N.add_0_r; simpl Z.of_N;
    ring.
Qed.

Section WithDigits.
Variable ud : unicode_digits.

Local Abbreviation digits := (ExtractorFacts.digits ud).

Lemma uint_chars_digits d : digits (uint_chars d).
Proof. induction d; simpl; constructor; auto. Qed.

Lemma int_digits_uint d : forall acc,
  int_digits ud (uint_chars d) acc = Some (uint_value d acc).
Proof.
  induction d; intros acc; cbn [uint_chars uint_value int_digits];
    [reflexivity | ..]; cbn [decimal ascii_digit]; rewrite IHd;
    do 2 f_equal; simpl; lia.
Qed.

(** [str(n)] of a natural number is its decimal numeral: a run of
    digits, not empty, which [int] reads back as [n]. *)
Lemma of_int_numeral n :
  0 <= n ->
  of_int n <> [] /\ digits (of_int n) /\ int ud (of_int n) = Some n.
Proof.
  intros N. unfold of_int. destruct n as [|p|p]; [| |lia].
  - split; [discriminate|]. split; [repeat constructor | reflexivity].
  - cbn [Z.to_int NilZero.string_of_int].
    pose proof (DecimalPos.Unsigned.to_uint_nonnil p) as NN.
    assert (E : NilZero.string_of_uint (Pos.to_uint p)
                = NilEmpty.string_of_uint (Pos.to_uint p)).
    { destruct (Pos.to_uint p); [congruence | reflexivity ..]. }
    rewrite E, utf8_uint.
    assert (NE : uint_chars (Pos.to_uint p) <> []).
    { destruct (Pos.to_uint p); [congruence | discriminate ..]. }
    split; [exact NE|]. split; [apply uint_chars_digits|].
    unfold int. rewrite (ExtractorFacts.strip_digits (uint_chars_digits _)).
    destruct (uint_chars (Pos.to_uint p)) eqn:U; [congruence|].
    rewrite <- U, int_digits_uint, uint_value_rev.
    rewrite <- DecimalPos.Unsigned.of_uint_alt, DecimalPos.Unsigned.of_to.
    reflexivity.
Qed.



End WithDigits.

End NumeralFacts.

(* ================================================================== *)
(** ** Dates as text *)

Module CalendarFacts.

Import PyStr Regex RegexFacts MatcherFacts NumeralFacts Datetime PyFacts.
Local Open Scope Z_scope.



Section WithDigits.
Variable ud : unicode_digits.











End WithDigits.

End CalendarFacts.

(* ================================================================== *)
(** ** Effects: what a computation leaves alone *)

Module EffectFacts.

Import Py Model Effects.

(** [respects R c]: the state after [c] is related by [R] to the state
    before, whether [c] returns or raises. *)
Definition respects (R : state -> state -> Prop) {A} (c : M A) : Prop :=
  forall s, R s (snd (c s)).

Section Respects.
Variable R : state -> state -> Prop.
Hypothesis R_refl : forall s, R s s.
Hypothesis R_trans : forall s1 s2 s3, R s1 s2 -> R s2 s3 -> R s1 s3.

Lemma respects_ret {A} (a : A) : respects R (ret a).
Proof. intros s; apply R_refl. Qed.

Lemma respects_raise {A} e : respects R (@raise A e).
Proof. intros s; apply R_refl. Qed.

Lemma respects_lift {A} (r : result A) : respects R (lift r).
Proof. intros s; apply R_refl. Qed.

Lemma respects_get_history : respects R get_history.
Proof. intros s; apply R_refl. Qed.

Lemma respects_get_file : respects R get_file.
Proof. intros s; apply R_refl. Qed.

Lemma respects_bind {A B} (c : M A) (k : A -> M B) :
  respects R c -> (forall a, respects R (k a)) -> respects R (mbind c k).
Proof.
  intros Hc Hk s. unfold mbind. specialize (Hc s).
  destruct (c s) as [[a|e] s1]; simpl in *; [|assumption].
  eapply R_trans; [eassumption | apply Hk].
Qed.

Lemma respects_try {A} (c : M A) (h : exn -> M A) :
  respects R c -> (forall e, respects R (h e)) -> respects R (try_except c h).
Proof.
  intros Hc Hh s. unfold try_except. specialize (Hc s).
  destruct (c s) as [[a|e] s1]; simpl in *; [assumption|].
  eapply R_trans; [eassumption | apply Hh].
Qed.

End Respects.

(** The three relations of interest. *)
Definition same_history (s s' : state) : Prop :=
  monitor_history s' = monitor_history s.

Definition same_file (s s' : state) : Prop := file s' = file s.

(** The trace grew by events that satisfy [P]. *)
Definition emitted (P : event -> Prop) (s s' : state) : Prop :=
  exists evs, trace s' = trace s ++ evs /\ Forall P evs.

Lemma same_history_refl s : same_history s s.
Proof. reflexivity. Qed.

Lemma same_history_trans s1 s2 s3 :
  same_history s1 s2 -> same_history s2 s3 -> same_history s1 s3.
Proof. unfold same_history; congruence. Qed.

Lemma same_file_refl s : same_file s s.
Proof. reflexivity. Qed.

Lemma same_file_trans s1 s2 s3 : same_file s1 s2 -> same_file s2 s3 -> same_file s1 s3.
Proof. unfold same_file; congruence. Qed.

Lemma emitted_refl P s : emitted P s s.
Proof. exists []. now rewrite app_nil_r. Qed.

Lemma emitted_same_trace P s s' : trace s' = trace s -> emitted P s s'.
Proof. intros E. exists []. now rewrite app_nil_r. Qed.

Lemma emitted_trans P s1 s2 s3 : emitted P s1 s2 -> emitted P s2 s3 -> emitted P s1 s3.
Proof.
  intros (e1 & T1 & F1) (e2 & T2 & F2). exists (e1 ++ e2).
  rewrite T2, T1, app_assoc. split; [reflexivity | now apply Forall_app].
Qed.

Lemma emitted_weaken (P Q : event -> Prop) s s' :
  (forall ev, P ev -> Q ev) -> emitted P s s' -> emitted Q s s'.
Proof.
  intros I (evs & T & F). exists evs. split; [assumption|].
  eapply Forall_impl; eauto.
Qed.

(** The primitives. *)
Lemma emit_history ev : respects same_history (emit ev).
Proof. intros s; reflexivity. Qed.

Lemma emit_file ev : respects same_file (emit ev).
Proof. intros s; reflexivity. Qed.

Lemma emit_emitted (P : event -> Prop) ev : P ev -> respects (emitted P) (emit ev).
Proof. intros H s. exists [ev]. split; [reflexivity | now constructor]. Qed.

Lemma now_history o : respects same_history (now o).
Proof. intros s; reflexivity. Qed.

Lemma now_file o : respects same_file (now o).
Proof. intros s; reflexivity. Qed.

Lemma now_emitted P o : respects (emitted P) (now o).
Proof. intros s. now apply emitted_same_trace. Qed.

Lemma with_clock_history {A} (f : nat -> result (A * nat)) :
  respects same_history (with_clock f).
Proof. intros s. unfold with_clock. now destruct (f (ticks s)) as [[a t]|e]. Qed.

Lemma with_clock_file {A} (f : nat -> result (A * nat)) :
  respects same_file (with_clock f).
Proof. intros s. unfold with_clock. now destruct (f (ticks s)) as [[a t]|e]. Qed.

Lemma with_clock_emitted P {A} (f : nat -> result (A * nat)) :
  respects (emitted P) (with_clock f).
Proof.
  intros s. unfold with_clock.
  destruct (f (ticks s)) as [[a t]|e]; now apply emitted_same_trace.
Qed.

Lemma set_file_history f : respects same_history (set_file f).
Proof. intros s; reflexivity. Qed.

Lemma set_file_emitted P f : respects (emitted P) (set_file f).
Proof. intros s. now apply emitted_same_trace. Qed.

Lemma set_history_file h : respects same_file (set_history h).
Proof. intros s; reflexivity. Qed.

Lemma set_history_emitted P h : respects (emitted P) (set_history h).
Proof. intros s. now apply emitted_same_trace. Qed.

(** Breaks a computation down to its primitives: the binds and [try]
    blocks by the rules above, the branches by cases. *)
Ltac respects_with refl trans prim :=
  repeat first
    [ match goal with
      | H : context [respects] |- _ => solve [apply H; auto]
      end
    | apply (@respects_bind _ trans); [|intros]
    | apply (@respects_try _ trans); [|intros]
    | apply (@respects_ret _ refl)
    | apply (@respects_raise _ refl)
    | apply (@respects_lift _ refl)
    | apply (@respects_get_history _ refl)
    | apply (@respects_get_file _ refl)
    | prim
    | match goal with
      | |- respects _ (match ?x with _ => _ end) => destruct x
      | |- respects _ (if ?b then _ else _) => destruct b
      end ].

Ltac history_tac :=
  respects_with same_history_refl same_history_trans
    ltac:(first [ apply emit_history | apply now_history | apply with_clock_history
                | apply set_file_history | solve [auto] ]).

Ltac file_tac :=
  respects_with same_file_refl same_file_trans
    ltac:(first [ apply emit_file | apply now_file | apply with_clock_file
                | apply set_history_file | solve [auto] ]).

Ltac emitted_for P :=
  respects_with (@emitted_refl P) (@emitted_trans P)
    ltac:(first [ apply emit_emitted; solve [auto] | apply now_emitted
                | apply with_clock_emitted | apply set_file_emitted
                | apply set_history_emitted | solve [auto] ]).

Ltac emitted_tac :=
  match goal with
  | |- respects (emitted ?P) _ => emitted_for P
  end.

(** A [try] block whose handler only logs returns normally. *)
Lemma try_log_returns (c : M unit) (lvl : level) (msg : exn -> message) s :
  fst (try_except c (fun e => log lvl (msg e)) s) = Ok tt.
Proof.
  unfold try_except. destruct (c s) as [[[]|e] s1]; reflexivity.
Qed.

End EffectFacts.

(* ================================================================== *)
(** ** The snapshot store *)

Module StoreFacts.

Import Py Model Effects InventoryMonitor PyFacts EffectFacts.

(** *** The spreadsheet calls leave the history and the file alone *)

Lemma get_header_row_history o sh : respects same_history (get_header_row o sh).
Proof. unfold get_header_row. history_tac. Qed.

Lemma get_header_row_file o sh : respects same_file (get_header_row o sh).
Proof. unfold get_header_row. file_tac. Qed.

Lemma update_header_history o sh hd : respects same_history (update_header o sh hd).
Proof. unfold update_header. history_tac. Qed.

Lemma update_header_file o sh hd : respects same_file (update_header o sh hd).
Proof. unfold update_header. file_tac. Qed.

Lemma append_rows_history o sh rows : respects same_history (append_rows o sh rows).
Proof. unfold append_rows. history_tac. Qed.

Lemma append_rows_file o sh rows : respects same_file (append_rows o sh rows).
Proof. unfold append_rows. file_tac. Qed.

Lemma inventory_rows_history o inventory :
  respects same_history (inventory_rows o inventory).
Proof. induction inventory as [|it rest IH]; simpl; history_tac. Qed.

Lemma inventory_rows_file o inventory :
  respects same_file (inventory_rows o inventory).
Proof. induction inventory as [|it rest IH]; simpl; file_tac. Qed.

Lemma _save_to_sheets_history cfg o inventory sh :
  respects same_history (_save_to_sheets cfg o inventory sh).
Proof.
  unfold _save_to_sheets.
  pose proof (get_header_row_history o sh).
  pose proof (update_header_history o sh inventory_header).
  pose proof (inventory_rows_history o inventory).
  pose proof (append_rows_history o sh).
  history_tac.
Qed.

Lemma _save_to_sheets_file cfg o inventory sh :
  respects same_file (_save_to_sheets cfg o inventory sh).
Proof.
  unfold _save_to_sheets.
  pose proof (get_header_row_file o sh).
  pose proof (update_header_file o sh inventory_header).
  pose proof (inventory_rows_file o inventory).
  pose proof (append_rows_file o sh).
  file_tac.
Qed.

Lemma save_changes_to_sheets_history cfg o cs sh :
  respects same_history (save_changes_to_sheets cfg o cs sh).
Proof.
  unfold save_changes_to_sheets.
  pose proof (get_header_row_history o sh).
  pose proof (update_header_history o sh changes_header).
  pose proof (append_rows_history o sh).
  history_tac.
Qed.

Lemma _save_history_history o : respects same_history (_save_history o).
Proof. unfold _save_history. history_tac. Qed.

Lemma _save_to_sheets_returns cfg o inventory sh s :
  fst (_save_to_sheets cfg o inventory sh s) = Ok tt.
Proof.
  unfold _save_to_sheets. destruct (negb _); [reflexivity|].
  apply try_log_returns.
Qed.

Lemma save_changes_to_sheets_returns cfg o cs sh s :
  fst (save_changes_to_sheets cfg o cs sh s) = Ok tt.
Proof.
  unfold save_changes_to_sheets. destruct (negb _); [reflexivity|].
  apply try_log_returns.
Qed.

(** *** Loading *)


(** *** Saving *)

Lemma key_not_stamp_key (key : str) : PyStr.eqb key (key ++ k_timestamp_suffix) = false.
Proof.
  apply eqb_neq. intros E. apply (f_equal (@List.length _)) in E.
  rewrite length_app in E. unfold k_timestamp_suffix in E. simpl in E. lia.
Qed.

(** The history after [save_inventory_snapshot]. *)
Definition saved (o : oracle) (t : nat) (inventory : list item) (key : str)
    (h : history) : history :=
  PyDict.set (key ++ k_timestamp_suffix)
             (Stamp (Datetime.isoformat (clk o t)))
             (PyDict.set key (Listing inventory) h).

(** The file after [_save_history] has written, or tried to write,
    the history [h]. *)
Definition file_after (o : oracle) (h : history) (before : file_state) : file_state :=
  match write o with
  | Written => Content (Json.dumps h)
  | Open_fails => before
  | Write_fails written => partly_written h written
  end.

Lemma save_inventory_snapshot_state cfg o inventory key s :
  let r := save_inventory_snapshot cfg o inventory key s in
  fst r = Ok tt /\
  monitor_history (snd r) = saved o (ticks s) inventory key (monitor_history s) /\
  file (snd r) = file_after o (monitor_history (snd r)) (file s).
Proof.
  cbv zeta. unfold save_inventory_snapshot.
  unfold mbind, get_history, set_history, now. cbv beta iota.
  cbn [monitor_history file ticks trace].
  set (h2 := PyDict.set _ _ _).
  set (s2 := {| monitor_history := h2; file := file s; ticks := S (ticks s);
                trace := trace s |}).
  assert (S1 : exists s3, _save_history o s2 = (Ok tt, s3) /\
                 monitor_history s3 = h2 /\ file s3 = file_after o h2 (file s)).
  { unfold _save_history, file_after, mbind, get_history, set_file, log, emit.
    simpl. destruct (write o); simpl; eauto. }
  destruct S1 as (s3 & -> & H3 & F3). cbv beta iota.
  destruct (sheets_client cfg).
  - pose proof (_save_to_sheets_returns cfg o inventory key s3) as Rt.
    pose proof (_save_to_sheets_history cfg o inventory key s3) as Hh.
    pose proof (_save_to_sheets_file cfg o inventory key s3) as Hf.
    destruct (_save_to_sheets cfg o inventory key s3) as [r s4].
    unfold same_history, same_file in *. simpl in *.
    rewrite Hh, Hf, H3, F3. auto.
  - unfold ret. simpl. rewrite H3, F3. auto.
Qed.

(** C6, as the code has it.  [save_inventory_snapshot] returns
    normally; afterwards the history holds the new listing under the
    key, in place of whatever was there, and the ISO time of the save
    under [<key>_timestamp], every other key as before.  The history
    file is rewritten in place: when the write succeeds it holds the
    new document; when the file cannot be opened it is as before; and
    when the write is interrupted after [n] characters the file holds
    the first [n] characters of the new document, the previous content
    being gone as soon as the file is opened for writing. *)
Theorem save_inventory_snapshot_spec cfg o inventory key s :
  let r := save_inventory_snapshot cfg o inventory key s in
  let h' := monitor_history (snd r) in
  fst r = Ok tt /\
  PyDict.get key h' = Some (Listing inventory) /\
  PyDict.get (key ++ k_timestamp_suffix) h' =
    Some (Stamp (Datetime.isoformat (clk o (ticks s)))) /\
  (forall k, k <> key -> k <> key ++ k_timestamp_suffix ->
     PyDict.get k h' = PyDict.get k (monitor_history s)) /\
  (write o = Written -> file (snd r) = Content (Json.dumps h')) /\
  (write o = Open_fails -> file (snd r) = file s) /\
  (forall n, write o = Write_fails n ->
     file (snd r) = Content (firstn n (Json.dumps h'))).
Proof.
  cbv zeta.
  destruct (save_inventory_snapshot_state cfg o inventory key s) as (R & H & F).
  cbv zeta in R, H, F. rewrite H in F. rewrite H.
  split; [exact R|]. unfold saved.
  split; [|split; [|split]].
  - rewrite get_set_other by apply key_not_stamp_key. apply get_set_same.
  - apply get_set_same.
  - intros k N1 N2. rewrite !get_set_other by now apply eqb_neq. reflexivity.
  - unfold file_after in F. fold (saved o (ticks s) inventory key (monitor_history s)) in F.
    repeat match goal with |- _ /\ _ => split end;
      [intros W | intros W | intros n W]; rewrite W in F; exact F.
Qed.

End StoreFacts.

(* ================================================================== *)
(** ** The notifier *)

Module NotifierFacts.

Import Py Model Effects InventoryNotifier PyFacts EffectFacts DifferFacts.

Lemma smtp_send_history o mail : respects same_history (smtp_send o mail).
Proof. unfold smtp_send. history_tac. Qed.

Lemma _send_email_notification_history cfg o shipments inventory :
  respects same_history (_send_email_notification cfg o shipments inventory).
Proof.
  unfold _send_email_notification.
  pose proof (smtp_send_history o). history_tac.
Qed.

Lemma _print_notification_history o shipments inventory :
  respects same_history (_print_notification o shipments inventory).
Proof. unfold _print_notification. history_tac. Qed.

Lemma notify_shipment_history cfg o cs inventory :
  respects same_history (notify_shipment cfg o cs inventory).
Proof.
  unfold notify_shipment.
  pose proof (_send_email_notification_history cfg o).
  pose proof (_print_notification_history o).
  history_tac.
Qed.

Lemma _send_expiry_email_history cfg o xs days :
  respects same_history (_send_expiry_email cfg o xs days).
Proof.
  unfold _send_expiry_email.
  pose proof (smtp_send_history o). history_tac.
Qed.

Lemma notify_expiring_soon_history cfg o xs days :
  respects same_history (notify_expiring_soon cfg o xs days).
Proof.
  unfold notify_expiring_soon.
  pose proof (_send_expiry_email_history cfg o).
  history_tac.
Qed.

(** *** What the notifier emits *)

Section Emitted.
Variable P : event -> Prop.
Hypothesis P_log : forall lvl m, P (Log lvl m).

Lemma smtp_send_emitted o mail : P mail -> respects (emitted P) (smtp_send o mail).
Proof. intros Pm. unfold smtp_send. emitted_tac. Qed.

Lemma _send_email_notification_emitted cfg o shipments inventory :
  (forall stock, P (Mail_shipment shipments stock)) ->
  respects (emitted P) (_send_email_notification cfg o shipments inventory).
Proof.
  intros Pm. unfold _send_email_notification.
  pose proof (fun stock => smtp_send_emitted o (Pm stock)).
  emitted_tac.
Qed.

Lemma _print_notification_emitted o shipments inventory :
  P (Print_shipment shipments) -> (forall stock, P (Print_stock stock)) ->
  respects (emitted P) (_print_notification o shipments inventory).
Proof. intros P1 P2. unfold _print_notification. emitted_tac. Qed.

Lemma notify_shipment_emitted cfg o cs inventory :
  (forall sh stock, P (Mail_shipment sh stock)) ->
  (forall sh, P (Print_shipment sh)) -> (forall stock, P (Print_stock stock)) ->
  respects (emitted P) (notify_shipment cfg o cs inventory).
Proof.
  intros P1 P2 P3. unfold notify_shipment.
  pose proof (fun sh => @_send_email_notification_emitted cfg o sh inventory (P1 sh)).
  pose proof (fun sh => @_print_notification_emitted o sh inventory (P2 sh) P3).
  emitted_tac.
Qed.

Lemma _send_expiry_email_emitted cfg o xs days :
  (forall ls, P (Mail_expiry ls days)) ->
  respects (emitted P) (_send_expiry_email cfg o xs days).
Proof.
  intros Pm. unfold _send_expiry_email.
  pose proof (fun ls => smtp_send_emitted o (Pm ls)).
  emitted_tac.
Qed.

Lemma notify_expiring_soon_emitted cfg o xs days :
  (forall ls, P (Mail_expiry ls days)) -> (forall ls, P (Print_expiry ls days)) ->
  respects (emitted P) (notify_expiring_soon cfg o xs days).
Proof.
  intros P1 P2. unfold notify_expiring_soon.
  pose proof (@_send_expiry_email_emitted cfg o xs days P1).
  emitted_tac.
Qed.

End Emitted.

(** *** Well-typed rows raise nothing *)

Lemma stock_lines_ok products inventory :
  listing_ok inventory -> snd (stock_lines products inventory) = None.
Proof.
  induction 1 as [|it rest W _ IH]; simpl; [reflexivity|].
  destruct (well_typed_fields it W) as (p & q & e & -> & -> & ->).
  destruct (existsb _ _); [|exact IH].
  destruct (stock_lines products rest) as [ls err]. exact IH.
Qed.

Lemma _send_email_notification_returns cfg o shipments inventory s :
  fst (_send_email_notification cfg o shipments inventory s) = Ok tt.
Proof.
  unfold _send_email_notification. destruct (_ || _); [reflexivity|].
  apply try_log_returns.
Qed.

(** With shipments to report and well-typed rows, [notify_shipment]
    returns normally and the console report of the shipments is among
    what it emits. *)
Lemma notify_shipment_reports cfg o cs inventory s :
  filter is_shipment (changes cs) <> [] -> listing_ok inventory ->
  exists evs s',
    notify_shipment cfg o cs inventory s = (Ok tt, s') /\
    trace s' = trace s ++ evs /\
    In (Print_shipment (filter is_shipment (changes cs))) evs.
Proof.
  intros NE W. unfold notify_shipment.
  destruct (filter is_shipment (changes cs)) as [|c0 sh] eqn:F; [congruence|].
  set (shs := c0 :: sh).
  unfold mbind at 1. unfold log at 1, emit at 1. cbv beta iota.
  set (s1 := {| trace := _ |}).
  unfold mbind at 1.
  set (mail := if truthy (notification_email cfg) then _ else _).
  assert (Em : exists e1 s2, mail s1 = (Ok tt, s2) /\ trace s2 = trace s1 ++ e1).
  { subst mail. destruct (truthy _).
    - pose proof (_send_email_notification_returns cfg o shs inventory s1) as R.
      pose proof (@_send_email_notification_emitted (fun _ => True)
                    (fun _ _ => I) cfg o shs inventory (fun _ => I) s1)
        as (e1 & T & _).
      destruct (_send_email_notification cfg o shs inventory s1) as [r s2].
      simpl in *. subst r. eauto.
    - eexists [_], _. split; reflexivity. }
  destruct Em as (e1 & s2 & -> & T2). cbv beta iota.
  unfold _print_notification, mbind, now, emit. cbv beta iota.
  pose proof (stock_lines_ok (map ci_product shs) W) as St.
  destruct inventory as [|it rest].
  - eexists _, _. split; [reflexivity|]. simpl. rewrite T2. subst s1; simpl.
    split; [rewrite <- !app_assoc; reflexivity|].
    apply in_or_app; right. apply in_or_app; right. now left.
  - destruct (stock_lines (map ci_product shs) (it :: rest)) as [stock err].
    simpl in St; subst err. cbv beta iota.
    eexists _, _. split; [reflexivity|]. simpl. rewrite T2. subst s1; simpl.
    split; [rewrite <- !app_assoc; reflexivity|].
    apply in_or_app; right. apply in_or_app; right. now left.
Qed.

End NotifierFacts.

(* ================================================================== *)
(** ** The monitoring cycle *)

Module CycleFacts.

Import Py Model Effects PyFacts EffectFacts DifferFacts StoreFacts NotifierFacts.
Import InventoryMonitor InventoryNotifier MonitorMain.

(** *** Events of interest *)

(** A console report or a mail about shipments. *)
Definition is_shipment_notice (ev : event) : bool :=
  match ev with
  | Print_shipment _ | Mail_shipment _ _ => true
  | _ => false
  end.

Definition is_shipment_report (ev : event) : bool :=
  match ev with
  | Print_shipment _ => true
  | _ => false
  end.

(** Rows appended to the inventory-changes sheet. *)
Definition is_changes_append (ev : event) : bool :=
  match ev with
  | Sheets_append sheet _ => PyStr.eqb sheet changes_sheet
  | _ => false
  end.

(** Neither of them. *)
Definition unrelated (ev : event) : Prop :=
  is_shipment_notice ev = false /\ is_changes_append ev = false.

(** The Sheets service takes the rows for a sheet: the header can be
    read (a missing header, or an [HttpError] on reading it, makes the
    program write one, which must succeed) and the append succeeds. *)
Definition sheet_accepts (o : oracle) (sheet : str) : bool :=
  match header_row o sheet with
  | Ok (_ :: _) => append_ok o sheet
  | Ok [] => update_ok o sheet && append_ok o sheet
  | Raise HttpError => update_ok o sheet && append_ok o sheet
  | Raise _ => false
  end.

Lemma existsb_false {A} (f : A -> bool) (l : list A) :
  Forall (fun x => f x = false) l -> existsb f l = false.
Proof. induction 1 as [|x l E _ IH]; simpl; [reflexivity|]. now rewrite E. Qed.

(** *** Saving the changes *)

Lemma save_changes_events cfg o cs s :
  exists evs s',
    save_changes_to_sheets cfg o cs changes_sheet s = (Ok tt, s') /\
    monitor_history s' = monitor_history s /\
    trace s' = trace s ++ evs /\
    Forall (fun ev => is_shipment_notice ev = false) evs /\
    (existsb is_changes_append evs = true <->
     sheets_client cfg = true /\ sheet_accepts o changes_sheet = true /\
     changes cs <> []).
Proof.
  unfold save_changes_to_sheets, sheet_accepts, try_except, mbind,
    get_header_row, update_header, append_rows, mbind, log, emit, raise, ret.
  destruct (sheets_client cfg); cbn [negb];
    [|exists [], s; rewrite app_nil_r; repeat split; auto; simpl; intros; easy].
  destruct (header_row o changes_sheet) as [[|h hs]|[]];
    destruct (update_ok o changes_sheet);
    destruct (append_ok o changes_sheet);
    destruct (changes cs) as [|c0 chs]; cbn -[changes_sheet change_row];
    eexists _, _; (split; [reflexivity|]); cbn -[changes_sheet change_row];
    (split; [reflexivity|]);
    (split; [first [ symmetry; apply app_nil_r
                   | rewrite <- ?app_assoc; reflexivity ]|]);
    (split; [repeat constructor|]);
    cbn; split; intros H; try discriminate; try easy;
    repeat split; try reflexivity; try discriminate;
    destruct H as (_ & ? & ?); try discriminate; congruence.
Qed.

(** *** What saving the snapshot emits *)

Section SheetEvents.
Variable P : event -> Prop.
Variable sheet : str.
Hypothesis P_log : forall lvl m, P (Log lvl m).
Hypothesis P_header : forall hd, P (Sheets_update_header sheet hd).
Hypothesis P_append : forall rows, P (Sheets_append sheet rows).

Lemma get_header_row_emitted o : respects (emitted P) (get_header_row o sheet).
Proof. unfold get_header_row. emitted_tac. Qed.

Lemma update_header_emitted o hd : respects (emitted P) (update_header o sheet hd).
Proof. unfold update_header. emitted_tac. Qed.

Lemma append_rows_emitted o rows : respects (emitted P) (append_rows o sheet rows).
Proof. unfold append_rows. emitted_tac. Qed.

Lemma inventory_rows_emitted o inventory :
  respects (emitted P) (inventory_rows o inventory).
Proof. induction inventory as [|it rest IH]; simpl; emitted_tac. Qed.

Lemma _save_to_sheets_emitted cfg o inventory :
  respects (emitted P) (_save_to_sheets cfg o inventory sheet).
Proof.
  unfold _save_to_sheets.
  pose proof (get_header_row_emitted o).
  pose proof (update_header_emitted o).
  pose proof (inventory_rows_emitted o).
  pose proof (append_rows_emitted o).
  emitted_tac.
Qed.

Lemma _save_history_emitted o : respects (emitted P) (_save_history o).
Proof. unfold _save_history. emitted_tac. Qed.

Lemma save_inventory_snapshot_emitted cfg o inventory :
  respects (emitted P) (save_inventory_snapshot cfg o inventory sheet).
Proof.
  unfold save_inventory_snapshot.
  pose proof (_save_to_sheets_emitted cfg o).
  pose proof (_save_history_emitted o).
  emitted_tac.
Qed.

End SheetEvents.

Lemma unrelated_log lvl m : unrelated (Log lvl m).
Proof. split; reflexivity. Qed.

(** *** The blocks of a cycle *)

Section Cycle.
Variable ud : PyStr.unicode_digits.
Variable cfg : config.
Variable o : oracle.
Variable check_expiry : bool.
Variable expiry_days : Z.

(** The cycle after the comparison, block by block. *)
Definition shipment_block (l : list item) (cs : change_set) : M unit :=
  match filter is_shipment (changes cs) with
  | [] => ret tt
  | _ =>
      log INFO (shipments_detected
                  (List.length (filter is_shipment (changes cs)))) ;;;
      notify_shipment cfg o cs l ;;;
      save_changes_to_sheets cfg o cs changes_sheet
  end.

Definition new_block (cs : change_set) : M unit :=
  match new_products cs with
  | [] => ret tt
  | _ => log INFO (new_products_detected (List.length (new_products cs)))
  end.

Definition expiry_block (l : list item) : M unit :=
  (if check_expiry then
     expiring_products <~ with_clock (fun t =>
       get_expiring_soon_products ud (clk o) t l expiry_days) ;;
     match expiring_products with
     | [] => ret tt
     | _ => notify_expiring_soon cfg o expiring_products expiry_days
     end
   else ret tt) ;;;
  log INFO check_done.

Definition after_compare (l : list item) (cs : change_set) : M unit :=
  shipment_block l cs ;;;
  new_block cs ;;;
  save_inventory_snapshot cfg o l k_latest ;;;
  expiry_block l.

Lemma cycle_body_fetched l s :
  fetch o = Ok l -> l <> [] ->
  cycle_body ud cfg o check_expiry expiry_days s =
  (log INFO check_started ;;;
   log INFO (inventory_fetched (List.length l)) ;;;
   h <~ get_history ;;
   cs <~ with_clock (fun t => compare_inventory (clk o) t h l k_latest) ;;
   after_compare l cs) s.
Proof.
  intros F N. unfold cycle_body, get_current_inventory.
  unfold mbind at 1 2. unfold mbind at 4 5. unfold log at 1 3, emit at 1 2.
  cbv beta iota. unfold lift. rewrite F. cbv beta iota.
  destruct l as [|it rest]; [congruence|]. reflexivity.
Qed.

Lemma mbind_snd {A B} (c : M A) (k : A -> M B) s :
  snd (mbind c k s) =
  match c s with
  | (Ok a, s1) => snd (k a s1)
  | (Raise _, s1) => s1
  end.
Proof. unfold mbind. now destruct (c s) as [[a|e] s1]. Qed.

Lemma shipment_block_history l cs : respects same_history (shipment_block l cs).
Proof.
  unfold shipment_block.
  pose proof (notify_shipment_history cfg o cs l).
  pose proof (save_changes_to_sheets_history cfg o cs changes_sheet).
  history_tac.
Qed.

Lemma new_block_history cs : respects same_history (new_block cs).
Proof. unfold new_block. history_tac. Qed.

Lemma expiry_block_history l : respects same_history (expiry_block l).
Proof.
  unfold expiry_block.
  pose proof (notify_expiring_soon_history cfg o).
  history_tac.
Qed.

Lemma new_block_emitted cs : respects (emitted unrelated) (new_block cs).
Proof. unfold new_block. pose proof unrelated_log. emitted_tac. Qed.

Lemma expiry_block_emitted l : respects (emitted unrelated) (expiry_block l).
Proof.
  unfold expiry_block. pose proof unrelated_log.
  pose proof (fun xs => @notify_expiring_soon_emitted unrelated unrelated_log cfg o xs
                expiry_days (fun _ => conj eq_refl eq_refl)
                (fun _ => conj eq_refl eq_refl)).
  emitted_tac.
Qed.

Lemma save_latest_emitted l :
  respects (emitted unrelated) (save_inventory_snapshot cfg o l k_latest).
Proof.
  apply save_inventory_snapshot_emitted.
  - apply unrelated_log.
  - intros; split; reflexivity.
  - intros; split; reflexivity.
Qed.

(** After the comparison the history is as before (an exception came
    first) or holds the fetched listing as the latest snapshot. *)
Lemma after_compare_history l cs s :
  let s' := snd (after_compare l cs s) in
  monitor_history s' = monitor_history s \/
  exists t, monitor_history s' = saved o t l k_latest (monitor_history s).
Proof.
  cbv zeta. unfold after_compare. rewrite mbind_snd.
  pose proof (shipment_block_history l cs s) as H1.
  destruct (shipment_block l cs s) as [[[]|e] s1]; simpl in H1; [|now left].
  rewrite mbind_snd.
  pose proof (new_block_history cs s1) as H2.
  destruct (new_block cs s1) as [[[]|e] s2]; simpl in H2;
    [|left; unfold same_history in *; congruence].
  rewrite mbind_snd.
  destruct (save_inventory_snapshot_state cfg o l k_latest s2) as (R & H3 & _).
  cbv zeta in R, H3.
  destruct (save_inventory_snapshot cfg o l k_latest s2) as [r s3].
  simpl in R, H3. subst r.
  pose proof (expiry_block_history l s3) as H4.
  right. exists (ticks s2). unfold same_history in *. congruence.
Qed.

(** *** The events of the shipment block *)

(** What the events of a cycle say about shipments: the console report
    is there exactly when there is a shipment, no notice is sent without
    one, and rows go to the changes sheet exactly when there is a
    shipment, a Sheets client and a service that takes the rows. *)
Definition shipment_facts (cs : change_set) (evs : list event) : Prop :=
  let shipments := filter is_shipment (changes cs) in
  (existsb is_shipment_notice evs = true <-> shipments <> []) /\
  (shipments <> [] -> In (Print_shipment shipments) evs) /\
  (existsb is_changes_append evs = true <->
   shipments <> [] /\ sheets_client cfg = true /\
   sheet_accepts o changes_sheet = true).

Lemma shipment_block_events l cs s :
  listing_ok l ->
  exists evs s1,
    shipment_block l cs s = (Ok tt, s1) /\
    monitor_history s1 = monitor_history s /\
    trace s1 = trace s ++ evs /\
    shipment_facts cs evs.
Proof.
  intros W. unfold shipment_block, shipment_facts. cbv zeta.
  destruct (filter is_shipment (changes cs)) as [|c0 sh] eqn:F.
  - exists [], s. rewrite app_nil_r. simpl.
    do 3 (split; [reflexivity|]). split; [|split].
    + split; [discriminate | intros H; congruence].
    + intros H; congruence.
    + split; [discriminate | intros (H & _); congruence].
  - assert (NE : filter is_shipment (changes cs) <> []) by (rewrite F; discriminate).
    assert (NC : changes cs <> []).
    { intros E. rewrite E in F. discriminate. }
    unfold mbind at 1. unfold log at 1, emit at 1. cbv beta iota.
    set (s0 := {| trace := _ |}).
    destruct (notify_shipment_reports cfg o cs s0 NE W) as (evN & sN & EN & TN & IN).
    pose proof (@notify_shipment_emitted (fun ev => is_changes_append ev = false)
                  (fun _ _ => eq_refl) cfg o cs l (fun _ _ => eq_refl)
                  (fun _ => eq_refl) (fun _ => eq_refl) s0) as (evN' & TN' & FN).
    pose proof (notify_shipment_history cfg o cs l s0) as HN.
    rewrite EN in TN', HN. simpl in TN', HN. rewrite TN in TN'.
    apply app_inv_head in TN'. subst evN'.
    destruct (save_changes_events cfg o cs sN) as (evS & sS & ES & HS & TS & FS & IS).
    unfold mbind. rewrite EN, ES.
    exists ([Log INFO (shipments_detected (List.length (c0 :: sh)))] ++ evN ++ evS), sS.
    split; [reflexivity|]. split; [rewrite HS, HN; reflexivity|].
    split; [rewrite TS, TN; subst s0; simpl; rewrite <- !app_assoc; reflexivity|].
    rewrite F in IN.
    split; [|split].
    + split; [intros _; discriminate|]. intros _. apply existsb_exists.
      exists (Print_shipment (c0 :: sh)). split; [|reflexivity].
      apply in_or_app; right. apply in_or_app; left. exact IN.
    + intros _. apply in_or_app; right. apply in_or_app; left. exact IN.
    + rewrite !existsb_app, (existsb_false _ FN). simpl. rewrite IS.
      split; [intros (C & A & _) | intros (_ & C & A)];
        repeat match goal with |- _ /\ _ => split end; auto; discriminate.
Qed.

(** On well-typed rows the cycle goes through after the comparison:
    the snapshot is saved, and what is emitted after the shipment block
    has nothing to do with shipments. *)
Lemma after_compare_persists l cs s :
  listing_ok l ->
  exists t evs evs',
    let s' := snd (after_compare l cs s) in
    monitor_history s' = saved o t l k_latest (monitor_history s) /\
    trace s' = trace s ++ evs ++ evs' /\
    shipment_facts cs evs /\
    Forall unrelated evs'.
Proof.
  intros W. cbv zeta. unfold after_compare. rewrite mbind_snd.
  destruct (shipment_block_events cs s W) as (evs & s1 & -> & H1 & T1 & SF).
  rewrite mbind_snd.
  pose proof (new_block_history cs s1) as H2.
  pose proof (new_block_emitted cs s1) as (e2 & T2 & F2).
  assert (R2 : fst (new_block cs s1) = Ok tt).
  { unfold new_block. destruct (new_products cs); reflexivity. }
  destruct (new_block cs s1) as [r2 s2]. simpl in H2, T2, R2. subst r2.
  rewrite mbind_snd.
  destruct (save_inventory_snapshot_state cfg o l k_latest s2) as (R3 & H3 & _).
  pose proof (save_latest_emitted l s2) as (e3 & T3 & F3).
  cbv zeta in R3, H3.
  destruct (save_inventory_snapshot cfg o l k_latest s2) as [r3 s3].
  simpl in R3, H3, T3. subst r3.
  pose proof (expiry_block_history l s3) as H4.
  pose proof (expiry_block_emitted l s3) as (e4 & T4 & F4).
  exists (ticks s2), evs, (e2 ++ e3 ++ e4).
  unfold same_history in *.
  split; [congruence|]. split.
  - rewrite T4, T3, T2, T1. rewrite <- !app_assoc. reflexivity.
  - split; [exact SF|]. repeat (apply Forall_app; split); assumption.
Qed.

(** *** The whole cycle *)

(** The state once the two opening lines are logged and the clock has
    been read [t] times. *)
Definition compared (l : list item) (t : nat) (s : state) : state :=
  {| monitor_history := monitor_history s; file := file s; ticks := t;
     trace := trace s ++ [Log INFO check_started;
                          Log INFO (inventory_fetched (List.length l))] |}.

Lemma cycle_body_compare l s :
  fetch o = Ok l -> l <> [] ->
  cycle_body ud cfg o check_expiry expiry_days s =
  match compare_inventory (clk o) (ticks s) (monitor_history s) l k_latest with
  | Ok (cs, t1) => after_compare l cs (compared l t1 s)
  | Raise e => (Raise e, compared l (ticks s) s)
  end.
Proof.
  intros F N. rewrite (cycle_body_fetched s F N).
  unfold mbind at 1 2 3 4. unfold log, emit, get_history, with_clock, compared.
  cbn [monitor_history file ticks trace]. rewrite <- app_assoc.
  destruct (compare_inventory _ _ _ _ _) as [[cs t1]|e]; reflexivity.
Qed.

Definition logged (evs : list event) (s : state) : state :=
  {| monitor_history := monitor_history s; file := file s; ticks := ticks s;
     trace := trace s ++ evs |}.

Lemma check_fetch_raises e s :
  fetch o = Raise e ->
  check_inventory_once ud cfg o check_expiry expiry_days s =
  (Ok tt, logged [Log INFO check_started; Log ERROR (check_error e)] s).
Proof.
  intros F. unfold check_inventory_once, try_except, cycle_body, mbind,
    get_current_inventory, lift, log, emit, logged.
  rewrite F. cbn [monitor_history file ticks trace]. now rewrite <- app_assoc.
Qed.

Lemma check_fetch_empty s :
  fetch o = Ok [] ->
  check_inventory_once ud cfg o check_expiry expiry_days s =
  (Ok tt, logged [Log INFO check_started; Log WARNING no_inventory] s).
Proof.
  intros F. unfold check_inventory_once, try_except, cycle_body, mbind,
    get_current_inventory, lift, log, emit, logged.
  rewrite F. cbn [monitor_history file ticks trace]. now rewrite <- app_assoc.
Qed.

Lemma try_log_snd (c : M unit) (msg : exn -> message) s :
  snd (try_except c (fun e => log ERROR (msg e)) s) =
  match fst (c s) with
  | Ok _ => snd (c s)
  | Raise e => logged [Log ERROR (msg e)] (snd (c s))
  end.
Proof. unfold try_except. destruct (c s) as [[[]|e] s1]; reflexivity. Qed.

(** Whatever the rows are: after a cycle the history is as before, or
    holds the fetched, non-empty listing as the latest snapshot. *)
Lemma check_history s :
  let s' := snd (check_inventory_once ud cfg o check_expiry expiry_days s) in
  monitor_history s' = monitor_history s \/
  exists l t, fetch o = Ok l /\ l <> [] /\
    monitor_history s' = saved o t l k_latest (monitor_history s).
Proof.
  cbv zeta. destruct (fetch o) as [l|e] eqn:F.
  - destruct l as [|it rest].
    + rewrite (check_fetch_empty s F). now left.
    + set (l := it :: rest) in *. assert (N : l <> []) by discriminate.
      unfold check_inventory_once. rewrite try_log_snd.
      rewrite (cycle_body_compare s F N).
      destruct (compare_inventory _ _ _ _ _) as [[cs t1]|e].
      * pose proof (after_compare_history l cs (compared l t1 s)) as H.
        cbv zeta in H.
        destruct (fst (after_compare l cs (compared l t1 s))); simpl;
          (destruct H as [H | (t & H)]; [left; exact H | right; exists l, t; auto]).
      * now left.
  - rewrite (check_fetch_raises s F). now left.
Qed.

(** On well-typed rows, once the comparison has returned, the cycle
    saves the snapshot. *)
Lemma check_persists l cs t1 s :
  fetch o = Ok l -> l <> [] -> listing_ok l ->
  compare_inventory (clk o) (ticks s) (monitor_history s) l k_latest = Ok (cs, t1) ->
  exists t evs evs',
    let s' := snd (check_inventory_once ud cfg o check_expiry expiry_days s) in
    monitor_history s' = saved o t l k_latest (monitor_history s) /\
    trace s' = trace s ++ [Log INFO check_started;
                           Log INFO (inventory_fetched (List.length l))]
                       ++ evs ++ evs' /\
    shipment_facts cs evs /\
    Forall unrelated evs'.
Proof.
  intros F N W C. cbv zeta.
  unfold check_inventory_once. rewrite try_log_snd.
  rewrite (cycle_body_compare s F N), C.
  destruct (after_compare_persists cs (compared l t1 s) W)
    as (t & evs & evs' & H & T & SF & U).
  cbv zeta in H, T.
  destruct (fst (after_compare l cs (compared l t1 s))) as [[]|e].
  - exists t, evs, evs'. rewrite H, T. simpl. rewrite <- !app_assoc.
    split; [reflexivity|]. split; [reflexivity|]. split; assumption.
  - exists t, evs, (evs' ++ [Log ERROR (check_error e)]). simpl.
    rewrite H, T. simpl. rewrite <- !app_assoc.
    split; [reflexivity|]. split; [reflexivity|]. split; [assumption|].
    apply Forall_app; split; [assumption|].
    constructor; [apply unrelated_log | constructor].
Qed.

End Cycle.


(** *** The latest snapshot *)

Section Claims.
Variable ud : PyStr.unicode_digits.
Variable cfg : config.
Variable check_expiry : bool.
Variable expiry_days : Z.

(** The snapshot held under ['latest']. *)
Definition latest (s : state) : option stored :=
  PyDict.get k_latest (monitor_history s).

Lemma latest_saved o t l h :
  PyDict.get k_latest (saved o t l k_latest h) = Some (Listing l).
Proof.
  unfold saved. rewrite get_set_other by apply key_not_stamp_key.
  apply get_set_same.
Qed.

(** The history holds well-typed rows under ['latest'], if anything. *)
Definition good_history (h : history) : Prop :=
  match PyDict.get k_latest h with
  | Some (Listing l0) => listing_ok l0
  | Some (Stamp _) => False
  | None => True
  end.

(** What the scraper returns, when it returns, is well typed. *)
Definition well_typed_fetch (o : oracle) : Prop :=
  forall l, fetch o = Ok l -> listing_ok l.

(** The latest snapshot after the cycles, read off the fetches: that
    of the last cycle whose fetch returned a non-empty listing. *)
Definition latest_after (cycles : list oracle) (init : option stored)
  : option stored :=
  fold_left
    (fun acc o =>
       match fetch o with
       | Ok (it :: rest) => Some (Listing (it :: rest))
       | _ => acc
       end)
    cycles init.

Lemma cycle_step s o :
  good_history (monitor_history s) -> well_typed_fetch o ->
  let s' := cycle ud cfg check_expiry expiry_days s o in
  good_history (monitor_history s') /\
  latest s' = match fetch o with
              | Ok (it :: rest) => Some (Listing (it :: rest))
              | _ => latest s
              end.
Proof.
  intros G Wf. cbv zeta. unfold cycle, latest.
  destruct (fetch o) as [[|it rest]|e] eqn:F.
  - rewrite (check_fetch_empty ud cfg o check_expiry expiry_days _ F). auto.
  - set (l := it :: rest) in *. assert (N : l <> []) by discriminate.
    pose proof (Wf _ F) as W.
    assert (C : exists cs t1,
      compare_inventory (clk o) (ticks (start_cycle s))
        (monitor_history (start_cycle s)) l k_latest = Ok (cs, t1)).
    { unfold good_history in G. simpl.
      destruct (PyDict.get k_latest (monitor_history s)) as [[l0|]|] eqn:L;
        [| contradiction |].
      - apply (@compare_inventory_ok _ _ _ _ _ l0); auto.
        unfold previous_of. now rewrite L.
      - apply (@compare_inventory_ok _ _ _ _ _ []); auto; [|constructor].
        unfold previous_of. now rewrite L. }
    destruct C as (cs & t1 & C).
    destruct (check_persists ud cfg o check_expiry expiry_days (start_cycle s) F N W C)
      as (t & _ & _ & H & _).
    cbv zeta in H. rewrite H. unfold good_history. rewrite latest_saved. auto.
  - rewrite (check_fetch_raises ud cfg o check_expiry expiry_days _ F). auto.
Qed.

(** C4.  A cycle whose fetch raises or returns an empty listing
    leaves the history and the history file as they are, reads no
    clock (so compares nothing) and only logs two lines.  Whenever a
    cycle changes what is held under ['latest'], its fetch has returned
    a non-empty listing and ['latest'] is that listing.  And over any
    number of cycles on well-typed rows, ['latest'] is the listing of
    the last cycle whose fetch returned a non-empty one (the initial
    value if there is none). *)
Theorem latest_reflects_last_fetch :
  (forall s o,
     fetch o = Ok [] \/ (exists e, fetch o = Raise e) ->
     let s' := cycle ud cfg check_expiry expiry_days s o in
     monitor_history s' = monitor_history s /\ file s' = file s /\
     ticks s' = 0 /\
     exists lvl m, trace s' = trace s ++ [Log INFO check_started; Log lvl m]) /\
  (forall s o,
     let s' := cycle ud cfg check_expiry expiry_days s o in
     latest s' <> latest s ->
     exists l, fetch o = Ok l /\ l <> [] /\ latest s' = Some (Listing l)) /\
  (forall cycles s,
     good_history (monitor_history s) -> Forall well_typed_fetch cycles ->
     latest (run_scheduled_monitoring ud cfg check_expiry expiry_days cycles s) =
     latest_after cycles (latest s)).
Proof.
  split; [|split].
  - intros s o [F | (e & F)]; cbv zeta; unfold cycle.
    + rewrite (check_fetch_empty ud cfg o check_expiry expiry_days _ F). simpl.
      repeat (split; [reflexivity|]). eauto.
    + rewrite (check_fetch_raises ud cfg o check_expiry expiry_days _ F). simpl.
      repeat (split; [reflexivity|]). eauto.
  - intros s o. cbv zeta. unfold cycle, latest.
    destruct (check_history ud cfg o check_expiry expiry_days (start_cycle s))
      as [H | (l & t & F & N & H)]; cbv zeta in H; rewrite H; simpl.
    + congruence.
    + intros _. exists l. rewrite latest_saved. auto.
  - unfold run_scheduled_monitoring, latest_after.
    induction cycles as [|o cycles IH]; intros s G Wf; [reflexivity|].
    inversion Wf as [|? ? Wo Wf']; subst.
    destruct (cycle_step s G Wo) as (G' & L). cbv zeta in G', L.
    simpl. rewrite (IH _ G' Wf'), L. reflexivity.
Qed.

(** C10, as the code has it.  In a cycle that has fetched well-typed
    rows and compared them: a shipment notice (the console report, and
    a mail when mail is configured and delivered) is among the events
    exactly when the change set has a shipment; rows are appended to the
    inventory-changes sheet exactly when it has a shipment and,
    moreover, a Sheets client is configured and the service takes the
    rows; and the fetched listing is saved as the latest snapshot in
    either case. *)
Theorem shipment_notice_and_changes_sheet s o l cs t1 :
  fetch o = Ok l -> l <> [] -> listing_ok l ->
  compare_inventory (clk o) 0 (monitor_history s) l k_latest = Ok (cs, t1) ->
  let s' := cycle ud cfg check_expiry expiry_days s o in
  let shipments := filter is_shipment (changes cs) in
  exists evs,
    trace s' = trace s ++ evs /\
    (existsb is_shipment_notice evs = true <-> shipments <> []) /\
    (shipments <> [] -> In (Print_shipment shipments) evs) /\
    (existsb is_changes_append evs = true <->
     shipments <> [] /\ sheets_client cfg = true /\
     sheet_accepts o changes_sheet = true) /\
    latest s' = Some (Listing l).
Proof.
  intros F N W C. cbv zeta. unfold cycle, latest.
  destruct (check_persists ud cfg o check_expiry expiry_days (start_cycle s) F N W C)
    as (t & evs & evs' & H & T & (S1 & S2 & S3) & U).
  cbv zeta in H, T. rewrite H, T, latest_saved. simpl.
  exists ([Log INFO check_started; Log INFO (inventory_fetched (List.length l))]
            ++ evs ++ evs').
  assert (U1 : existsb is_shipment_notice evs' = false).
  { apply existsb_false. eapply Forall_impl; [|exact U]. now intros ev []. }
  assert (U2 : existsb is_changes_append evs' = false).
  { apply existsb_false. eapply Forall_impl; [|exact U]. now intros ev []. }
  split; [reflexivity|].
  rewrite !existsb_app, U1, U2. simpl. rewrite !orb_false_r.
  split; [exact S1|]. split; [|split; [exact S3 | reflexivity]].
  intros NE. right. right. apply in_or_app. left. now apply S2.
Qed.

End Claims.

End CycleFacts.

(* ================================================================== *)
(** ** The monitor: what a change set holds, and the quiet cycle *)

Module MonitorFacts.

Import Py PyStr PyFacts Model Effects EffectFacts InventoryMonitor InventoryNotifier.
Import MonitorMain DifferFacts ExpiryFacts StoreFacts NotifierFacts CycleFacts.
Local Open Scope Z_scope.

(** *** The events of a change set *)

(** An event as the differ builds it: the difference is that of its two
    quantities, something did change, a shipment took a positive
    quantity off the stock and anything else took nothing. *)
Definition consistent (ev : change_info) : Prop :=
  quantity_diff ev = current_quantity ev - previous_quantity ev /\
  expiry_changed ev = negb (eqb (current_expiry ev) (previous_expiry ev)) /\
  (quantity_diff ev <> 0 \/ current_expiry ev <> previous_expiry ev) /\
  match type ev with
  | shipment =>
      exists q, shipped_quantity ev = Some q /\ 0 < q /\
                current_quantity ev + q = previous_quantity ev
  | increase =>
      shipped_quantity ev = None /\ previous_quantity ev <= current_quantity ev
  end.

Lemma compare_item_consistent clk t k c pv ev :
  compare_item clk t k c pv = Ok (Some ev) -> consistent ev.
Proof.
  unfold compare_item. intros H. do 3 bind_ok H.
  destruct (_ || _) eqn:Ch; [|discriminate].
  apply changed_iff in Ch. inversion H; subst ev; clear H.
  unfold consistent; cbn.
  split; [reflexivity|]. split; [reflexivity|]. split; [exact Ch|].
  destruct (a - a0 <? 0) eqn:L.
  - apply Z.ltb_lt in L. exists (Z.abs (a - a0)). split; [reflexivity | lia].
  - apply Z.ltb_ge in L. split; [reflexivity | lia].
Qed.

Definition reports (p : str) (cs : change_set) : nat :=
  count_named ci_product p (changes cs) +
  count_named np_product p (new_products cs) +
  count_named rp_product p (removed_products cs).

Lemma get_present p l d :
  index_by_product l PyDict.empty = Ok d ->
  PyDict.get p d <> None -> present p l = true.
Proof.
  intros E G. rewrite (index_get _ _ E p) in G. unfold present.
  destruct (last_row p l); [reflexivity|]. now elim G.
Qed.

Lemma get_absent p l d :
  index_by_product l PyDict.empty = Ok d ->
  PyDict.get p d = None -> present p l = false.
Proof.
  intros E G. rewrite (index_get _ _ E p) in G. unfold present.
  destruct (last_row p l); [discriminate | reflexivity].
Qed.

(** Whenever the differ returns, every event is consistent, and a
    product is reported once at most in the three lists together: as a
    change only with a row in both listings, as new only with a row in
    the current listing alone, as removed only with a row in the
    previous listing alone. *)
Lemma change_set_of_run clk t current previous cs t' :
  diff clk t current previous = Ok (cs, t') ->
  Forall consistent (changes cs) /\
  forall p,
    (reports p cs <= 1)%nat /\
    (In p (map ci_product (changes cs)) ->
     present p current = true /\ present p previous = true) /\
    (In p (map np_product (new_products cs)) ->
     present p current = true /\ present p previous = false) /\
    (In p (map rp_product (removed_products cs)) ->
     present p current = false /\ present p previous = true).
Proof.
  intros H. destruct (diff_inv _ _ _ _ H) as (cd & pd & t1 & t2 & Ec & Ep & S1 & S2).
  assert (NDc : NoDup (PyDict.keys cd)).
  { apply (index_NoDup _ _ Ec). constructor. }
  assert (NDp : NoDup (PyDict.keys pd)).
  { apply (index_NoDup _ _ Ep). constructor. }
  destruct (scan_current_spec _ _ _ _ S1) as (A & _ & C & _).
  destruct (scan_current_names _ _ _ _ S1 NDc) as (N1 & N2).
  destruct (scan_previous_spec _ _ _ _ S2) as (R & _ & N3).
  specialize (N3 NDp).
  split.
  { apply Forall_forall. intros ev I.
    destruct (A _ I) as (c & pv & t0 & _ & _ & Cmp).
    exact (compare_item_consistent _ _ _ _ _ Cmp). }
  intros p.
  assert (D1 : In p (map ci_product (changes cs)) ->
               present p current = true /\ present p previous = true).
  { intros I. apply in_map_iff in I. destruct I as (ev & <- & I).
    destruct (A _ I) as (c & pv & t0 & Ic & Gp & _). split.
    - eapply get_present; [exact Ec|]. rewrite (@In_get _ _ _ _ NDc Ic). discriminate.
    - eapply get_present; [exact Ep|]. rewrite Gp. discriminate. }
  assert (D2 : In p (map np_product (new_products cs)) ->
               present p current = true /\ present p previous = false).
  { intros I. apply in_map_iff in I. destruct I as (nw & <- & I).
    destruct (C _ I) as (c & Ic & Gp & _). split.
    - eapply get_present; [exact Ec|]. rewrite (@In_get _ _ _ _ NDc Ic). discriminate.
    - eapply get_absent; [exact Ep | exact Gp]. }
  assert (D3 : In p (map rp_product (removed_products cs)) ->
               present p current = false /\ present p previous = true).
  { intros I. apply in_map_iff in I. destruct I as (rm & <- & I).
    destruct (R _ I) as (pv & Ip & Gc & _). split.
    - eapply get_absent; [exact Ec | exact Gc].
    - eapply get_present; [exact Ep|]. rewrite (@In_get _ _ _ _ NDp Ip). discriminate. }
  split; [|split; [exact D1 | split; [exact D2 | exact D3]]].
  unfold reports.
  pose proof (count_named_le1 ci_product p _ N1) as L1.
  pose proof (count_named_le1 np_product p _ N2) as L2.
  pose proof (count_named_le1 rp_product p _ N3) as L3.
  destruct (in_dec (list_eq_dec N.eq_dec) p (map ci_product (changes cs)))
    as [I1 | I1];
  destruct (in_dec (list_eq_dec N.eq_dec) p (map np_product (new_products cs)))
    as [I2 | I2];
  destruct (in_dec (list_eq_dec N.eq_dec) p (map rp_product (removed_products cs)))
    as [I3 | I3];
  try (destruct (D1 I1); destruct (D2 I2); congruence);
  try (destruct (D1 I1); destruct (D3 I3); congruence);
  try (destruct (D2 I2); destruct (D3 I3); congruence);
  try rewrite (count_named_absent ci_product _ _ I1);
  try rewrite (count_named_absent np_product _ _ I2);
  try rewrite (count_named_absent rp_product _ _ I3); lia.
Qed.

(** X9: the change set of well-typed listings.  The differ returns; each
    of its events is consistent (a shipment has taken a positive
    quantity off the previous stock, an increase none); and no product
    is reported twice, in one list or across the three. *)
Theorem change_set_consistent clk t current previous :
  listing_ok current -> listing_ok previous ->
  exists cs t',
    diff clk t current previous = Ok (cs, t') /\
    Forall consistent (changes cs) /\
    forall p,
      (reports p cs <= 1)%nat /\
      (In p (map ci_product (changes cs)) ->
       present p current = true /\ present p previous = true) /\
      (In p (map np_product (new_products cs)) ->
       present p current = true /\ present p previous = false) /\
      (In p (map rp_product (removed_products cs)) ->
       present p current = false /\ present p previous = true).
Proof.
  intros Wc Wp. destruct (diff_ok clk t Wc Wp) as (cs & t' & H).
  exists cs, t'. split; [exact H|]. exact (change_set_of_run _ _ _ _ H).
Qed.

(** *** A listing compared with itself *)

Lemma scan_current_same clk (d : PyDict.t item) :
  NoDup (PyDict.keys d) ->
  (forall k c, In (k, c) d -> well_typed c = true) ->
  forall its, incl its d ->
  forall t, scan_current clk d its t = Ok ([], [], t).
Proof.
  intros ND W. induction its as [|[k c] its IH]; intros I t; [reflexivity|].
  assert (Ic : In (k, c) d) by (apply I; now left).
  cbn [scan_current]. rewrite (@In_get _ _ _ _ ND Ic).
  destruct (well_typed_fields c (W _ _ Ic)) as (p & q & e & _ & Q & X).
  rewrite (compare_item_inv clk t k c c Q Q X). rewrite X. cbn [get_default].
  rewrite Z.sub_diag, eqb_refl. cbn.
  apply IH. intros x Ix. apply I. now right.
Qed.

Lemma scan_previous_same clk (d : PyDict.t item) :
  NoDup (PyDict.keys d) ->
  forall its, incl its d ->
  forall t, scan_previous clk d its t = Ok ([], t).
Proof.
  intros ND. induction its as [|[k c] its IH]; intros I t; [reflexivity|].
  assert (Ic : In (k, c) d) by (apply I; now left).
  cbn [scan_previous]. unfold PyDict.mem. rewrite (@In_get _ _ _ _ ND Ic).
  apply IH. intros x Ix. apply I. now right.
Qed.

(** The change set that reports nothing. *)
Definition nothing_at (stamp : str) : change_set :=
  {| changes := []; new_products := []; removed_products := [];
     timestamp := stamp |}.

Lemma compare_same clk t h l key :
  listing_ok l -> PyDict.get key h = Some (Listing l) ->
  compare_inventory clk t h l key = Ok (nothing_at (now_iso clk t), S t).
Proof.
  intros W G. unfold compare_inventory. rewrite G. cbn [get_default index_previous].
  assert (P : forall it, In it l -> product it <> None).
  { intros it I. unfold listing_ok in W. rewrite Forall_forall in W.
    destruct (well_typed_fields it (W _ I)) as (p & _ & _ & -> & _).
    discriminate. }
  destruct (index_ok l PyDict.empty P) as [d E]. rewrite E. cbn [Py.bind].
  assert (ND : NoDup (PyDict.keys d)).
  { apply (index_NoDup _ _ E). constructor. }
  assert (V : forall k c, In (k, c) d -> well_typed c = true).
  { intros k c I. destruct (index_values _ _ E _ _ I) as [[] | I'].
    unfold listing_ok in W. rewrite Forall_forall in W. auto. }
  rewrite (scan_current_same clk ND V (incl_refl d)). cbn [Py.bind].
  rewrite (scan_previous_same clk ND (incl_refl d)). reflexivity.
Qed.

Lemma get_saved o t l key h :
  PyDict.get key (saved o t l key h) = Some (Listing l).
Proof.
  unfold saved. rewrite get_set_other by apply key_not_stamp_key.
  apply get_set_same.
Qed.

(** X10: a well-typed listing compared with itself.  Against a history
    that holds the same listing under the key, the differ reports
    nothing and reads the clock once, for the time stamp of the change
    set; and this is what it answers after [save_inventory_snapshot]
    has stored the listing under the key, whatever became of the file
    and of the spreadsheet. *)
Theorem unchanged_listing_reports_nothing (l : list item) :
  listing_ok l ->
  (forall clk t h key,
     PyDict.get key h = Some (Listing l) ->
     compare_inventory clk t h l key = Ok (nothing_at (now_iso clk t), S t)) /\
  (forall cfg o key s clk t,
     let s' := snd (save_inventory_snapshot cfg o l key s) in
     compare_inventory clk t (monitor_history s') l key =
     Ok (nothing_at (now_iso clk t), S t)).
Proof.
  intros W. split.
  - intros clk t h key G. now apply compare_same.
  - intros cfg o key s clk t. cbv zeta.
    destruct (save_inventory_snapshot_state cfg o l key s) as (_ & H & _).
    cbv zeta in H. apply compare_same; [exact W|]. rewrite H. apply get_saved.
Qed.

(** *** The quiet cycle *)

Section Quiet.
Variable ud : unicode_digits.
Variable cfg : config.
Variable check_expiry : bool.
Variable expiry_days : Z.



End Quiet.

(** *** The horizon of the expiry scan *)

Section Horizon.
Variable ud : unicode_digits.

Lemma kept_later c c' it : c <= c' -> kept ud c it = true -> kept ud c' it = true.
Proof.
  unfold kept. destruct (parsed_expiry ud it); [|discriminate].
  rewrite !Z.leb_le. lia.
Qed.

Lemma filter_length_incl {A} (f g : A -> bool) (l : list A) :
  (forall x, f x = true -> g x = true) ->
  (List.length (filter f l) <= List.length (filter g l))%nat.
Proof.
  intros I. induction l as [|x l IH]; cbn; [lia|].
  destruct (f x) eqn:Fx.
  - rewrite (I _ Fx). cbn. lia.
  - destruct (g x); cbn; lia.
Qed.

Lemma expiring_rows clk t inventory days :
  let cutoff_date := Datetime.to_microseconds (clk t) + days * Datetime.DAY in
  Datetime.MIN_US <= cutoff_date <= Datetime.MAX_US ->
  exists out t',
    get_expiring_soon_products ud clk t inventory days = Ok (out, t') /\
    Permutation (map row out) (filter (kept ud cutoff_date) inventory).
Proof.
  intros cutoff_date R.
  unfold get_expiring_soon_products, Datetime.add_days. fold cutoff_date.
  replace ((Datetime.MIN_US <=? cutoff_date) && (cutoff_date <=? Datetime.MAX_US))
    with true by (symmetry; apply andb_true_iff; split; apply Z.leb_le; lia).
  pose proof (scan_expiry_spec ud clk cutoff_date inventory (S t)) as Sp.
  destruct (scan_expiry ud clk cutoff_date inventory (S t)) as [xs t'].
  destruct Sp as (M & _ & _).
  exists (sort_by_days xs), t'. split; [reflexivity|].
  rewrite <- M. apply Permutation_map, Permutation_sym, sort_by_days_perm.
Qed.

(** X12: a longer horizon loses no row.  With the clock read at the same
    time, every row that the scan reports for a horizon is reported for
    a longer one, which reports at least as many rows. *)
Theorem longer_horizon_keeps_rows clk t inventory days days' :
  let now_us := Datetime.to_microseconds (clk t) in
  days <= days' ->
  Datetime.MIN_US <= now_us + days * Datetime.DAY ->
  now_us + days' * Datetime.DAY <= Datetime.MAX_US ->
  exists out t1 out' t2,
    get_expiring_soon_products ud clk t inventory days = Ok (out, t1) /\
    get_expiring_soon_products ud clk t inventory days' = Ok (out', t2) /\
    incl (map row out) (map row out') /\
    (List.length out <= List.length out')%nat.
Proof.
  intros now_us Le Lo Hi.
  assert (D : 0 < Datetime.DAY) by reflexivity.
  assert (Le' : now_us + days * Datetime.DAY <= now_us + days' * Datetime.DAY) by nia.
  destruct (@expiring_rows clk t inventory days) as (out & t1 & E1 & P1);
    [fold now_us; lia|].
  destruct (@expiring_rows clk t inventory days') as (out' & t2 & E2 & P2);
    [fold now_us; lia|].
  fold now_us in P1, P2.
  exists out, t1, out', t2. split; [exact E1|]. split; [exact E2|]. split.
  - intros it I. apply (Permutation_in _ P1) in I. apply filter_In in I.
    destruct I as (I & K).
    apply (Permutation_in _ (Permutation_sym P2)). apply filter_In.
    split; [exact I|]. exact (kept_later _ Le' K).
  - rewrite <- (length_map row out), <- (length_map row out').
    rewrite (Permutation_length P1), (Permutation_length P2).
    apply filter_length_incl. intros x. apply kept_later. exact Le'.
Qed.

End Horizon.

(** *** Mail *)

Definition is_mail (ev : event) : bool :=
  match ev with
  | Mail_shipment _ _ | Mail_expiry _ _ => true
  | _ => false
  end.

(** The notifier can send mail: the address, the user name and the
    password are set and not empty, and the server delivers. *)
Definition mail_ready (cfg : config) (o : oracle) : bool :=
  truthy (notification_email cfg) && truthy (smtp_username cfg) &&
  truthy (smtp_password cfg) && smtp_ok o.

Definition mails (evs : list event) : list event := filter is_mail evs.

Lemma notify_shipment_mails cfg o cs inventory s :
  let shipments := filter is_shipment (changes cs) in
  let '(stock, err) := stock_lines (map ci_product shipments) inventory in
  exists evs,
    trace (snd (notify_shipment cfg o cs inventory s)) = trace s ++ evs /\
    mails evs =
    match shipments, err with
    | _ :: _, None =>
        if mail_ready cfg o then [Mail_shipment shipments stock] else []
    | _, _ => []
    end.
Proof.
  cbv zeta. unfold notify_shipment, mail_ready.
  destruct (filter is_shipment (changes cs)) as [|c0 sh].
  { destruct (stock_lines _ _). exists [Log INFO no_shipment]. split; reflexivity. }
  set (shs := c0 :: sh).
  unfold _send_email_notification, _print_notification, smtp_send.
  destruct (stock_lines (map ci_product shs) inventory) as [stock err] eqn:St.
  unfold try_except, mbind, log, emit, now, raise, ret. cbn.
  destruct (truthy (notification_email cfg)),
           (truthy (smtp_username cfg)), (truthy (smtp_password cfg));
    cbn; rewrite ?St;
    destruct (smtp_ok o), err as [e|], inventory as [|it rest]; cbn;
    rewrite <- ?app_assoc; cbn;
    (eexists; split; [reflexivity|]); reflexivity.
Qed.

Lemma notify_expiring_soon_mails cfg o xs days s :
  let '(ls, err) := expiry_lines xs in
  exists evs,
    trace (snd (notify_expiring_soon cfg o xs days s)) = trace s ++ evs /\
    mails evs =
    match xs, err with
    | _ :: _, None => if mail_ready cfg o then [Mail_expiry ls days] else []
    | _, _ => []
    end.
Proof.
  unfold notify_expiring_soon, mail_ready.
  destruct xs as [|x xs].
  { cbn. exists []. now rewrite app_nil_r. }
  unfold _send_expiry_email, smtp_send.
  destruct (expiry_lines (x :: xs)) as [ls err] eqn:El.
  unfold try_except, mbind, log, emit, now, raise, ret. cbn.
  destruct (truthy (notification_email cfg)),
           (truthy (smtp_username cfg)), (truthy (smtp_password cfg));
    cbn; rewrite ?El;
    destruct (smtp_ok o), err as [e|]; cbn;
    rewrite <- ?app_assoc; cbn;
    (eexists; split; [reflexivity|]); reflexivity.
Qed.

(** X13: when the notifier mails.  A call of [notify_shipment] or of
    [notify_expiring_soon] sends one mail at most.  It sends one exactly
    when there is something to report, the address, the user name and
    the password are all set, the rows of the body have their keys and
    the server delivers; the mail then holds all the shipments (all the
    expiring rows) of the call. *)
Theorem mail_needs_settings cfg o s :
  (forall cs inventory,
     let shipments := filter is_shipment (changes cs) in
     let lines := stock_lines (map ci_product shipments) inventory in
     exists evs,
       trace (snd (notify_shipment cfg o cs inventory s)) = trace s ++ evs /\
       (List.length (mails evs) <= 1)%nat /\
       (mails evs <> [] <->
        shipments <> [] /\ snd lines = None /\ mail_ready cfg o = true) /\
       (forall ev, In ev (mails evs) -> ev = Mail_shipment shipments (fst lines))) /\
  (forall xs days,
     exists evs,
       trace (snd (notify_expiring_soon cfg o xs days s)) = trace s ++ evs /\
       (List.length (mails evs) <= 1)%nat /\
       (mails evs <> [] <->
        xs <> [] /\ snd (expiry_lines xs) = None /\ mail_ready cfg o = true) /\
       (forall ev, In ev (mails evs) ->
                   ev = Mail_expiry (fst (expiry_lines xs)) days)).
Proof.
  split.
  - intros cs inventory. cbv zeta.
    pose proof (notify_shipment_mails cfg o cs inventory s) as H. cbv zeta in H.
    destruct (stock_lines _ inventory) as [stock err].
    destruct H as (evs & T & M). exists evs. split; [exact T|]. rewrite M.
    cbn [fst snd].
    destruct (filter is_shipment (changes cs)) as [|c0 sh];
      [|destruct err as [e|]; [|destruct (mail_ready cfg o)]]; cbn;
      (split; [lia|]);
      (split; [split; [intros N; try now elim N
                      | intros (A & B & C); try congruence; try now elim A]|]);
      try (intros ev []; [now subst | contradiction]);
      try (intros ev []).
    repeat split; discriminate.
  - intros xs days.
    pose proof (notify_expiring_soon_mails cfg o xs days s) as H.
    destruct (expiry_lines xs) as [ls err].
    destruct H as (evs & T & M). exists evs. split; [exact T|]. rewrite M.
    cbn [fst snd].
    destruct xs as [|x xs];
      [|destruct err as [e|]; [|destruct (mail_ready cfg o)]]; cbn;
      (split; [lia|]);
      (split; [split; [intros N; try now elim N
                      | intros (A & B & C); try congruence; try now elim A]|]);
      try (intros ev []; [now subst | contradiction]);
      try (intros ev []).
    repeat split; discriminate.
Qed.

(** *** The rows sent to the spreadsheet *)

Definition is_append (ev : event) : bool :=
  match ev with
  | Sheets_append _ _ => true
  | _ => false
  end.

(** The row of [_save_to_sheets] for an item: its three keys, and the
    time it was scraped at or, failing that, a reading of the clock. *)
Definition row_matches (o : oracle) (it : item) (r : list str) : Prop :=
  exists p q e t,
    product it = Some p /\ quantity it = Some q /\ expiry_date it = Some e /\
    r = [p; of_int q; e; get_default (scraped_at it) (Datetime.isoformat (clk o t))].

Lemma inventory_rows_state o : forall inventory s r s',
  inventory_rows o inventory s = (r, s') ->
  trace s' = trace s /\
  match r with
  | Ok rows => Forall2 (row_matches o) inventory rows
  | Raise e => ~ listing_ok inventory
  end.
Proof.
  induction inventory as [|it rest IH]; intros s r s' E.
  - cbn in E. inversion E; subst. split; [reflexivity | constructor].
  - cbn [inventory_rows] in E. unfold mbind, lift, now, ret in E.
    assert (Bad : well_typed it = false -> ~ listing_ok (it :: rest)).
    { intros B W. inversion W; congruence. }
    unfold well_typed in Bad.
    destruct (product it) as [p|] eqn:P; cbn [getitem] in E;
      [|inversion E; subst; split; [reflexivity | now apply Bad]].
    destruct (quantity it) as [q|] eqn:Q; cbn [getitem] in E;
      [|inversion E; subst; split; [reflexivity | now apply Bad]].
    destruct (expiry_date it) as [e|] eqn:X; cbn [getitem] in E;
      [|inversion E; subst; split; [reflexivity | now apply Bad]].
    match type of E with
    | context [inventory_rows o rest ?s1] =>
        destruct (inventory_rows o rest s1) as [[rows|e'] s2] eqn:E1;
        destruct (IH _ _ _ E1) as (T & R)
    end; inversion E; subst; cbn [trace] in T.
    + split; [exact T|].
      constructor; [|exact R]. exists p, q, e, (ticks s). auto.
    + split; [exact T|]. intros W. apply R. now inversion W.
Qed.

Lemma inventory_rows_run o inventory s :
  trace (snd (inventory_rows o inventory s)) = trace s /\
  match fst (inventory_rows o inventory s) with
  | Ok rows => Forall2 (row_matches o) inventory rows
  | Raise e => ~ listing_ok inventory
  end.
Proof.
  destruct (inventory_rows o inventory s) as [r s'] eqn:E.
  exact (@inventory_rows_state o inventory s r s' E).
Qed.

Lemma Forall2_nil_r {A B} (R : A -> B -> Prop) (l : list A) :
  Forall2 R l [] -> l = [].
Proof. now inversion 1. Qed.

(** X14: the rows of the inventory sheet.  [_save_to_sheets] never raises
    and appends at most once.  What it appends is one row of four
    cells for each item of the listing, in the order of the listing: so
    nothing is appended when an item lacks one of its keys, or when the
    listing is empty.  The header is written only to a sheet whose
    first row is empty or could not be read, and it is the header of the
    four columns.  With a Sheets client, a well-typed listing that is
    not empty, and a service that takes the rows, the rows are
    appended. *)
Theorem inventory_sheet_rows cfg o inventory sheet s :
  exists evs,
    fst (_save_to_sheets cfg o inventory sheet s) = Ok tt /\
    trace (snd (_save_to_sheets cfg o inventory sheet s)) = trace s ++ evs /\
    (List.length (filter is_append evs) <= 1)%nat /\
    (forall sh rows, In (Sheets_append sh rows) evs ->
       sh = sheet /\ Forall2 (row_matches o) inventory rows /\
       inventory <> [] /\
       Forall (fun r => List.length r = List.length inventory_header) rows) /\
    (forall sh hd, In (Sheets_update_header sh hd) evs ->
       sh = sheet /\ hd = inventory_header /\
       (header_row o sheet = Ok [] \/ header_row o sheet = Raise HttpError)) /\
    (sheets_client cfg = false -> evs = []) /\
    (sheets_client cfg = true -> listing_ok inventory -> inventory <> [] ->
     sheet_accepts o sheet = true -> existsb is_append evs = true).
Proof.
  assert (Width : forall rows,
            Forall2 (row_matches o) inventory rows ->
            Forall (fun r => List.length r = List.length inventory_header) rows).
  { intros rows F. induction F as [|it r its rs (p & q & e & t & _ & _ & _ & ->) _ IH];
      constructor; [reflexivity | exact IH]. }
  unfold _save_to_sheets, sheet_accepts.
  destruct (sheets_client cfg); cbn [negb].
  2: { exists []. cbn. rewrite app_nil_r. repeat split; try tauto; try lia. }
  unfold try_except, mbind at 1 2.
  assert (Rows : forall s1,
            trace (snd (inventory_rows o inventory s1)) = trace s1 /\
            match fst (inventory_rows o inventory s1) with
            | Ok rows => Forall2 (row_matches o) inventory rows
            | Raise e => ~ listing_ok inventory
            end) by apply inventory_rows_run.
  unfold get_header_row, update_header.
  destruct (header_row o sheet) as [[|h hs]|[]] eqn:Hd;
    unfold mbind, log, emit, raise, ret; cbn [fst snd trace ticks];
    try destruct (update_ok o sheet) eqn:Up; cbn [fst snd trace ticks];
    try match goal with
        | |- context [inventory_rows o inventory ?s1] =>
            destruct (Rows s1) as (T & R);
            destruct (inventory_rows o inventory s1) as [[[|r rows]|e] s2];
            cbn [fst snd trace ticks] in *;
            unfold append_rows, mbind, log, emit, raise, ret;
            cbn [fst snd trace ticks];
            try destruct (append_ok o sheet) eqn:Ap;
            cbn [fst snd trace ticks]; rewrite ?T; cbn [trace]
        end;
    rewrite <- ?app_assoc; cbn [app];
    (eexists; split; [reflexivity|];
     split; [first [reflexivity | symmetry; apply app_nil_r]|]);
    cbn [filter is_append List.length];
    (split; [lia|]);
    (split; [intros sh rs I; cbn in I;
             repeat (destruct I as [I | I]; try discriminate I);
             try contradiction;
             inversion I; subst;
             (split; [reflexivity|]); (split; [assumption|]);
             (split; [intros ->; inversion R | now apply Width])|]);
    (split; [intros sh hd I; cbn in I;
             repeat (destruct I as [I | I]; try discriminate I);
             try contradiction;
             inversion I; subst; auto|]);
    (split; [discriminate|]);
    intros _ W NE Acc; try discriminate Acc; try reflexivity;
    try (now elim R);
    apply Forall2_nil_r in R; contradiction.
Qed.

(** X15: the rows of the sheet of the changes.  [save_changes_to_sheets]
    never raises and appends at most once: one row of nine cells for
    every change of the change set, an increase as well as a shipment,
    and nothing for a change set without changes.  The rows are appended
    exactly when there is a Sheets client, a change, and a service that
    takes the rows. *)
Theorem changes_sheet_rows cfg o cs sheet s :
  exists evs,
    fst (save_changes_to_sheets cfg o cs sheet s) = Ok tt /\
    trace (snd (save_changes_to_sheets cfg o cs sheet s)) = trace s ++ evs /\
    (List.length (filter is_append evs) <= 1)%nat /\
    (forall sh rows, In (Sheets_append sh rows) evs ->
       sh = sheet /\ rows = map change_row (changes cs) /\
       Forall (fun r => List.length r = List.length changes_header) rows) /\
    (forall sh hd, In (Sheets_update_header sh hd) evs ->
       sh = sheet /\ hd = changes_header /\
       (header_row o sheet = Ok [] \/ header_row o sheet = Raise HttpError)) /\
    (existsb is_append evs = true <->
     sheets_client cfg = true /\ changes cs <> [] /\
     sheet_accepts o sheet = true).
Proof.
  assert (Width : Forall (fun r => List.length r = List.length changes_header)
                         (map change_row (changes cs))).
  { apply Forall_forall. intros r I. apply in_map_iff in I.
    destruct I as (c & <- & _). reflexivity. }
  unfold save_changes_to_sheets, sheet_accepts.
  destruct (sheets_client cfg); cbn [negb].
  2: { exists []. cbn. rewrite app_nil_r. repeat split; try tauto; try lia;
         try discriminate. }
  unfold try_except, get_header_row, update_header, append_rows.
  destruct (header_row o sheet) as [[|h hs]|[]] eqn:Hd;
    unfold mbind, log, emit, raise, ret; cbn [fst snd trace ticks];
    try destruct (update_ok o sheet) eqn:Up; cbn [fst snd trace ticks];
    destruct (changes cs) as [|c0 chs] eqn:Ch; cbn [map];
    cbn [fst snd trace ticks];
    try destruct (append_ok o sheet) eqn:Ap; cbn [fst snd trace ticks];
    rewrite <- ?app_assoc; cbn [app];
    (eexists; split; [reflexivity|];
     split; [first [reflexivity | symmetry; apply app_nil_r]|]);
    cbn [filter is_append List.length existsb orb];
    (split; [lia|]);
    (split; [intros sh rs I; cbn in I;
             repeat (destruct I as [I | I]; try discriminate I);
             try contradiction;
             inversion I; subst;
             (split; [reflexivity|]); (split; [reflexivity|]);
             exact Width|]);
    (split; [intros sh hd I; cbn in I;
             repeat (destruct I as [I | I]; try discriminate I);
             try contradiction;
             inversion I; subst; auto|]);
    split; try discriminate; try (intros _; repeat split; discriminate);
    try (intros (_ & N & A); try discriminate A; now elim N).
Qed.

End MonitorFacts.

(* ================================================================== *)
(** ** The scraper's parsers *)

Module ScraperFacts.

Import Py PyStr Regex RegexFacts MatcherFacts NumeralFacts CalendarFacts Model WebScraper.
Import PyFacts TextFacts.
Local Open Scope Z_scope.

Section WithDigits.
Variable ud : unicode_digits.

Local Abbreviation digits := (ExtractorFacts.digits ud).

(** *** The quantity *)

(** What [_parse_quantity] returns for the first run of digits of the
    text, the commas taken out. *)
Lemma parse_quantity_run text number rest_ :
  number <> [] -> digits number ->
  (exists before, Forall (fun c => digit ud c = false) before /\
     remove_char OrderDataExtractor.c_comma text = before ++ number ++ rest_) ->
  match rest_ with [] => True | c :: _ => digit ud c = false end ->
  _parse_quantity ud text = int_of_run ud number.
Proof.
  intros NE D (before & B & E) R. unfold _parse_quantity. rewrite E. clear E.
  assert (S : search (Plus (digit ud)) (before ++ number ++ rest_) =
              Some {| whole := number; groups := []; rest := rest_ |}).
  { induction B as [|c before C _ IH].
    - cbn [app]. apply search_here. apply match_at_plus; assumption.
    - cbn [app search]. unfold match_at at 1. unfold Plus at 1. cbn [Regex.run].
      rewrite C. exact IH. }
  destruct (findall_head _ _ S) as [more ->]. reflexivity.
Qed.

(** [_parse_quantity] returns a natural number, or raises
    [ValueError] on a text of more than 4300 characters. *)
Lemma parse_quantity_cases (text : str) :
  (exists n, _parse_quantity ud text = Ok n /\ 0 <= n) \/
  (_parse_quantity ud text = Raise ValueError /\
   (int_max_str_digits < List.length text)%nat).
Proof.
  unfold _parse_quantity.
  destruct (search (Plus (digit ud))
              (remove_char OrderDataExtractor.c_comma text)) as [m|] eqn:S.
  - destruct (findall_head _ _ S) as [more ->].
    destruct (search_inside _ _ S) as [before E].
    apply search_sound, matches_plus in S. destruct S as (NE & D & _).
    assert (L : (List.length (whole m) <= List.length text)%nat).
    { pose proof (remove_char_length OrderDataExtractor.c_comma text) as L.
      rewrite E, !length_app in L. lia. }
    unfold int_of_run.
    destruct (int_max_str_digits <? List.length (whole m))%nat eqn:Lim.
    + right. apply Nat.ltb_lt in Lim. split; [reflexivity | lia].
    + left. destruct (ExtractorFacts.int_digits_ok D NE) as (n & -> & Bn).
      exists n. split; [reflexivity | lia].
  - left. rewrite (findall_none _ _ S). exists 0. split; [reflexivity | lia].
Qed.

(** X1.  [_parse_quantity] returns a natural number, and zero for a text
    without a digit; it raises only for a text of more than 4300
    characters ([int] refuses that many digits).  A text that, its
    commas taken out, starts with the decimal numeral of [n] followed
    by something that is not a digit, is read as [n]. *)
Theorem parse_quantity_reads_number (text : str) :
  ((exists n, _parse_quantity ud text = Ok n /\ 0 <= n) \/
   (_parse_quantity ud text = Raise ValueError /\
    (int_max_str_digits < List.length text)%nat)) /\
  (Forall (fun c => digit ud c = false) text -> _parse_quantity ud text = Ok 0) /\
  (forall n suffix,
     0 <= n -> (List.length (of_int n) <= int_max_str_digits)%nat ->
     remove_char OrderDataExtractor.c_comma text = of_int n ++ suffix ->
     match suffix with [] => True | c :: _ => digit ud c = false end ->
     _parse_quantity ud text = Ok n).
Proof.
  split; [apply parse_quantity_cases | split].
  - intros F. unfold _parse_quantity.
    rewrite findall_none; [reflexivity|].
    apply search_plus_none. now apply remove_char_Forall.
  - intros n suffix N L E R.
    destruct (@of_int_numeral ud n N) as (NE & D & I).
    rewrite (@parse_quantity_run text (of_int n) suffix NE D); [|exists []; auto | exact R].
    unfold int_of_run. rewrite I.
    replace (int_max_str_digits <? List.length (of_int n))%nat with false
      by (symmetry; apply Nat.ltb_ge; exact L).
    reflexivity.
Qed.

(** *** The expiry date *)

(** What the patterns of [_parse_expiry_date] capture: a year of four
    digits, a month and a day of one or two. *)
Lemma expiry_pattern_groups p text m :
  In p (expiry_patterns ud) -> search p text = Some m ->
  ExtractorFacts.date_groups ud (groups m).
Proof.
  intros I H. apply search_sound in H. revert H.
  generalize (whole m) (groups m). intros w gs.
  cbv [expiry_patterns Seqs Times Upto2 Opt Lit] in I.
  destruct I as [<- | [<- | []]]; intros H; match_cases; simpl;
    unfold ExtractorFacts.date_groups; do 3 eexists; (split; [reflexivity|]);
    repeat match goal with |- _ /\ _ => split end;
    try (repeat (apply Forall_cons; [assumption|]); apply Forall_nil);
    simpl; lia.
Qed.

(** The date that a pattern yields: that of its leftmost match, when
    it is a date of the calendar. *)
Definition dated (p : re) (text : str) : option str :=
  match search p text with
  | Some m =>
      match groups m with
      | [year; month; day] => date_text ud year month day
      | _ => None
      end
  | None => None
  end.

Fixpoint first_dated (ps : list re) (text : str) : option str :=
  match ps with
  | [] => None
  | p :: rest_ =>
      match dated p text with
      | Some s => Some s
      | None => first_dated rest_ text
      end
  end.

Lemma parse_expiry_from_spec text : forall ps,
  (forall p, In p ps -> In p (expiry_patterns ud)) ->
  parse_expiry_from ud ps text =
  Ok (match first_dated ps text with
      | Some s => s
      | None => strip text
      end).
Proof.
  induction ps as [|p ps IH]; intros Sub; [reflexivity|].
  assert (IH' : parse_expiry_from ud ps text =
                Ok (match first_dated ps text with
                    | Some s => s
                    | None => strip text
                    end)).
  { apply IH. intros q I. apply Sub. now right. }
  cbn [parse_expiry_from first_dated]. unfold dated.
  destruct (search p text) as [m|] eqn:S; [|exact IH'].
  destruct (@expiry_pattern_groups p text m (Sub p (or_introl eq_refl)) S)
    as (year & month & day & -> & _).
  destruct (date_text ud year month day); [reflexivity | exact IH'].
Qed.















(** *** The rows of the page *)

Lemma parse_expiry_date_returns text :
  exists s, _parse_expiry_date ud text = Ok s.
Proof.
  unfold _parse_expiry_date.
  rewrite (parse_expiry_from_spec text (expiry_patterns ud)) by auto. eauto.
Qed.

(** A scraped row has the three keys of the data model, a stripped
    product name and a natural number as its quantity. *)
Definition scraped (it : item) : Prop :=
  DifferFacts.well_typed it = true /\
  (exists p, product it = Some p /\ strip p = p) /\
  (exists q, Model.quantity it = Some q /\ 0 <= q).

Lemma scrape_row_cases clk t r :
  match scrape_row ud clk t r with
  | Ok (Some it) =>
      scraped it /\
      product_text r <> None /\ quantity_text r <> None /\ expiry_text r <> None
  | Ok None =>
      product_text r = None \/ quantity_text r = None \/ expiry_text r = None
  | Raise e =>
      e = ValueError /\
      exists q, quantity_text r = Some q /\
        (int_max_str_digits < List.length q)%nat
  end.
Proof.
  unfold scrape_row.
  destruct (product_text r) as [p|]; [|auto].
  destruct (quantity_text r) as [q|]; [|auto].
  destruct (expiry_text r) as [e|]; [|auto].
  destruct (parse_quantity_cases (strip q)) as [(n & -> & N) | (-> & L)];
    cbn [bind].
  - destruct (parse_expiry_date_returns (strip e)) as [s ->]. cbn [bind].
    split; [|repeat split; discriminate].
    unfold scraped. cbn [product Model.quantity]. split; [reflexivity|].
    split; [exists (strip p); split; [reflexivity | apply strip_strip]|].
    exists n. auto.
  - split; [reflexivity|]. exists q. split; [reflexivity|].
    pose proof (strip_length q). lia.
Qed.

Lemma scrape_rows_cases clk : forall rows t,
  match scrape_rows ud clk rows t with
  | Ok (l, t') =>
      Forall scraped l /\ (List.length l <= List.length rows)%nat /\
      (t' = t + List.length l)%nat
  | Raise e =>
      e = ValueError /\
      exists r q, In r rows /\ quantity_text r = Some q /\
        (int_max_str_digits < List.length q)%nat
  end.
Proof.
  induction rows as [|r rows IH]; intros t; cbn [scrape_rows].
  - split; [constructor | split; simpl; lia].
  - pose proof (scrape_row_cases clk t r) as C.
    destruct (scrape_row ud clk t r) as [[it|]|e]; cbn [bind].
    + specialize (IH (S t)).
      destruct (scrape_rows ud clk rows (S t)) as [[l t']|e]; cbn [bind].
      * destruct IH as (F & L & T), C as (Sc & _).
        split; [now constructor | split; simpl; lia].
      * destruct IH as (E & r0 & q & I & Q & L).
        split; [exact E|]. exists r0, q. split; [now right | auto].
    + specialize (IH t).
      destruct (scrape_rows ud clk rows t) as [[l t']|e].
      * destruct IH as (F & L & T). split; [exact F | split; simpl; lia].
      * destruct IH as (E & r0 & q & I & Q & L).
        split; [exact E|]. exists r0, q. split; [now right | auto].
    + destruct C as (E & q & Q & L).
      split; [exact E|]. exists r, q. split; [now left | auto].
Qed.

Lemma scraped_listing_ok clk p t l t' :
  _scrape_with_requests ud clk p t = Ok (l, t') -> DifferFacts.listing_ok l.
Proof.
  destruct p as [e| |rows]; cbn [_scrape_with_requests]; intros H.
  - discriminate.
  - inversion H; subst. constructor.
  - pose proof (scrape_rows_cases clk rows t) as A. rewrite H in A.
    destruct A as (F & _). unfold DifferFacts.listing_ok.
    eapply Forall_impl; [|exact F]. now intros it (Wt & _).
Qed.

(** X3.  The listing that the scraper builds from a page is well typed,
    whatever the page holds: every item has the keys that the differ
    reads, a natural number as quantity and a stripped product name;
    there is at most one item for a row of the table, and none for a
    page without the table.  Apart from a failure of the request, the
    scraper raises only through [int], for a quantity of more than 4300
    characters.  Hence the differ, which would raise [KeyError] on a row
    without its keys, never raises on two scraped listings. *)
Theorem scraped_listing_well_typed clk p t :
  (forall l t', _scrape_with_requests ud clk p t = Ok (l, t') ->
     Forall scraped l /\ (t' = t + List.length l)%nat /\
     match p with
     | Table rows => (List.length l <= List.length rows)%nat
     | _ => l = []
     end) /\
  (forall e, _scrape_with_requests ud clk p t = Raise e ->
     p = Http_fails e \/
     (e = ValueError /\
      exists rows r q, p = Table rows /\ In r rows /\ quantity_text r = Some q /\
        (int_max_str_digits < List.length q)%nat)) /\
  (forall l t' clk0 p0 t0 l0 t0' clk' u,
     _scrape_with_requests ud clk p t = Ok (l, t') ->
     _scrape_with_requests ud clk0 p0 t0 = Ok (l0, t0') ->
     exists cs u', InventoryMonitor.diff clk' u l l0 = Ok (cs, u')).
Proof.
  split; [|split].
  - destruct p as [e| |rows]; cbn [_scrape_with_requests]; intros l t' H.
    + discriminate.
    + inversion H; subst. split; [constructor | split; [simpl; lia | reflexivity]].
    + pose proof (scrape_rows_cases clk rows t) as A. rewrite H in A. tauto.
  - destruct p as [e0| |rows]; cbn [_scrape_with_requests]; intros e H.
    + left. congruence.
    + discriminate.
    + right. pose proof (scrape_rows_cases clk rows t) as A. rewrite H in A.
      destruct A as (E & r & q & A). split; [exact E|]. exists rows, r, q. tauto.
  - intros l t' clk0 p0 t0 l0 t0' clk' u H H0.
    apply DifferFacts.diff_ok; eapply scraped_listing_ok; eauto.
Qed.

End WithDigits.

End ScraperFacts.

(* ================================================================== *)
(** ** The order: customer, items and the spreadsheet row *)

Module OrderFacts.

Import Py PyStr Regex RegexFacts MatcherFacts Model.
Import OrderDataExtractor OrderDocument PyFacts TextFacts.

(** *** Matches of the label patterns *)

Lemma matches_word w : forall t cs, matches (Word w) t cs -> t = w /\ cs = [].
Proof.
  induction w as [|c w IH]; simpl; intros t cs M.
  - inversion M; subst. auto.
  - inversion M as [| |? ? w1 w2 c1 c2 M1 M2| | | | |]; subst.
    inversion M1 as [? ? P| | | | | | |]; subst.
    apply N.eqb_eq in P. subst.
    destruct (IH _ _ M2) as (-> & ->). auto.
Qed.

(** A match of [label[：:\s]*([class]+)]: it starts with the label, and
    its group is a run of the class that is not empty. *)
Lemma label_match (label : str) (p : char -> bool) text m :
  search (Seqs [Word label; Star label_sep; Group (Plus p)]) text = Some m ->
  (exists more, whole m = label ++ more) /\
  group1 m <> [] /\ Forall (fun c => p c = true) (group1 m).
Proof.
  intros H. apply search_sound in H. revert H. unfold group1.
  generalize (whole m) (groups m). intros w gs.
  cbv [Seqs]. intros H.
  inversion H as [| |? ? w1 w2 c1 c2 M1 M2| | | | |]; subst; clear H.
  destruct (matches_word _ M1) as (-> & ->).
  split; [eauto|].
  inversion M2 as [| |? ? w3 w4 c3 c4 M3 M4| | | | |]; subst; clear M2.
  inversion M3; subst; clear M3.
  inversion M4 as [| |? ? w5 w6 c5 c6 M5 M6| | | | |]; subst; clear M4.
  inversion M6; subst; clear M6.
  inversion M5; subst; clear M5.
  match goal with
  | M : matches (Plus p) _ _ |- _ => destruct (matches_plus M) as (NE & F & ->)
  end.
  simpl. auto.
Qed.

Section WithDigits.
Variable ud : unicode_digits.

(** *** The customer name *)

Definition single_line (s : str) : Prop := Forall (fun c => c <> 10%N) s.

Lemma not_newline_single s :
  Forall (fun c => not_newline c = true) s -> single_line s.
Proof.
  apply Forall_impl. intros c H E. subst. discriminate.
Qed.

Lemma drop_honorifics_Forall (P : char -> Prop) s :
  Forall P s -> Forall P (drop_honorifics s).
Proof.
  unfold drop_honorifics. rewrite !Forall_forall. intros F x I.
  apply filter_In in I. now apply F.
Qed.

Lemma drop_honorifics_none s :
  Forall (fun c => honorific c = false) (drop_honorifics s).
Proof.
  unfold drop_honorifics. apply Forall_forall. intros x I.
  apply filter_In in I. destruct I as (_ & H).
  now apply negb_true_iff in H.
Qed.

Lemma labelled_name_shape text : forall labels name,
  labelled_name labels text = Some name ->
  name <> [] /\ strip name = name /\ single_line name /\
  Forall (fun c => honorific c = false) name.
Proof.
  induction labels as [|label labels IH]; simpl; intros name H; [discriminate|].
  destruct (search (customer_pattern label) text) as [m|] eqn:S; [|auto].
  destruct (strip (drop_honorifics (strip (group1 m)))) as [|c n] eqn:E; [auto|].
  inversion H; subst name. rewrite <- E.
  destruct (label_match _ _ _ S) as (_ & _ & F).
  split; [rewrite E; discriminate|]. split; [apply strip_strip|].
  split.
  - apply strip_Forall, drop_honorifics_Forall, strip_Forall.
    now apply not_newline_single.
  - apply strip_Forall, drop_honorifics_none.
Qed.

Lemma first_name_line_shape : forall lines name,
  Forall single_line lines ->
  first_name_line ud lines = Some name ->
  name <> [] /\ strip name = name /\ single_line name /\
  (2 < List.length name < 50)%nat /\ rmatch (digits_only ud) name = None.
Proof.
  induction lines as [|raw lines IH]; simpl; intros name F H; [discriminate|].
  inversion F as [|? ? F1 F2]; subst.
  destruct (_ && _) eqn:B; [|auto].
  destruct (rmatch (digits_only ud) (strip raw)) eqn:R; [auto|].
  inversion H; subst name.
  rewrite !andb_true_iff in B. destruct B as ((B0 & B1) & B2).
  apply Nat.ltb_lt in B1, B2.
  split; [destruct (strip raw); [discriminate B0 | discriminate]|].
  split; [apply strip_strip|]. split; [now apply strip_Forall|].
  split; [lia | exact R].
Qed.

(** No label can be found in a text of white space. *)
Lemma labelled_name_blank text : spaces text ->
  labelled_name customer_labels text = None.
Proof.
  intros B.
  assert (A : forall label c more, label = c :: more -> is_space c = false ->
            search (customer_pattern label) text = None).
  { intros label c more -> C.
    destruct (search (customer_pattern (c :: more)) text) as [m|] eqn:S;
      [|reflexivity].
    destruct (search_inside _ _ S) as [before E].
    destruct (label_match _ _ _ S) as ((rest_ & W) & _).
    unfold spaces in B. rewrite Forall_forall in B.
    rewrite (B c) in C; [discriminate|].
    rewrite E, W. apply in_or_app; right. now left. }
  unfold customer_labels. cbn [labelled_name].
  repeat (erewrite A; [|reflexivity | reflexivity]). reflexivity.
Qed.

Lemma split_spaces sep s : spaces s -> Forall spaces (split sep s).
Proof.
  induction 1 as [|c s C _ IH]; simpl; [repeat constructor|].
  destruct (N.eqb c sep).
  - constructor; [constructor | exact IH].
  - destruct (split sep s) as [|w ws]; [repeat constructor; assumption|].
    inversion IH; subst. constructor; [now constructor | assumption].
Qed.

Lemma first_name_line_blank : forall lines,
  Forall spaces lines -> first_name_line ud lines = None.
Proof.
  induction 1 as [|raw lines B _ IH]; simpl; [reflexivity|].
  now rewrite (strip_spaces B).
Qed.

Lemma Forall_firstn {A} (P : A -> Prop) n (l : list A) :
  Forall P l -> Forall P (firstn n l).
Proof.
  intros F. rewrite <- (firstn_skipn n l) in F.
  now apply Forall_app in F.
Qed.

(** X4.  A name returned by [extract_customer_name] is never empty, has no
    white space at either end and lies on one line.  A name found after
    a label comes first and has no honorific character left in it;
    otherwise the name is one of the first five lines, of three to
    forty-nine characters, and not made of digits, white space and
    commas only.  A text of white space has no name. *)
Theorem customer_name_shape (text : str) :
  (forall name, extract_customer_name ud text = Some name ->
     name <> [] /\ strip name = name /\ single_line name) /\
  (forall name, labelled_name customer_labels text = Some name ->
     extract_customer_name ud text = Some name /\
     Forall (fun c => honorific c = false) name) /\
  (forall name, labelled_name customer_labels text = None ->
     extract_customer_name ud text = Some name ->
     (exists raw, In raw (firstn 5 (split 10%N text)) /\ name = strip raw) /\
     (2 < List.length name < 50)%nat /\ rmatch (digits_only ud) name = None) /\
  (spaces text -> extract_customer_name ud text = None).
Proof.
  assert (L : Forall single_line (firstn 5 (split 10%N text))).
  { apply Forall_firstn, split_lines. }
  unfold extract_customer_name. split; [|split; [|split]].
  - intros name H.
    destruct (labelled_name customer_labels text) as [n|] eqn:E.
    + inversion H; subst n. destruct (labelled_name_shape _ _ E) as (? & ? & ? & _).
      auto.
    + destruct (@first_name_line_shape _ name L H) as (? & ? & ? & _). auto.
  - intros name E. rewrite E. split; [reflexivity|].
    now destruct (labelled_name_shape _ _ E) as (_ & _ & _ & ?).
  - intros name E H. rewrite E in H.
    destruct (@first_name_line_shape _ name L H) as (_ & _ & _ & B & R).
    split; [|auto].
    clear - H. induction (firstn 5 (split 10%N text)) as [|raw lines IH];
      simpl in H; [discriminate|].
    destruct (_ && _).
    + destruct (rmatch (digits_only ud) (strip raw)).
      * destruct (IH H) as (r & I & ->). exists r. split; [now right | reflexivity].
      * inversion H; subst. exists raw. split; [now left | reflexivity].
    + destruct (IH H) as (r & I & ->). exists r. split; [now right | reflexivity].
  - intros B. rewrite (labelled_name_blank B).
    apply first_name_line_blank, Forall_firstn, split_spaces, B.
Qed.

(** *** The fields of the item *)

(** A text of digits. *)
Definition numeral (s : str) : Prop := Forall (fun c => digit ud c = true) s.

Lemma remove_comma_numeral w :
  Forall (fun c => number_char ud c = true) w -> numeral (remove_char c_comma w).
Proof.
  unfold numeral, remove_char. rewrite !Forall_forall. intros F x I.
  apply filter_In in I. destruct I as (I & NC).
  specialize (F x I). unfold number_char in F.
  apply orb_true_iff in F. destruct F as [F | F]; [exact F|].
  rewrite F in NC. discriminate.
Qed.

Lemma amount_numeral line first more :
  findall (amount_pattern ud) line = first :: more ->
  numeral (remove_char c_yen (remove_char c_comma first)).
Proof.
  intros H. pose proof (findall_first (amount_pattern ud) line) as F.
  rewrite H in F. simpl in F.
  destruct (search (amount_pattern ud) line) as [m|] eqn:S; [|discriminate].
  inversion F; subst first. apply search_sound in S. revert S.
  generalize (whole m) (groups m). intros w gs. unfold amount_pattern.
  intros M. inversion M as [| |? ? w1 w2 c1 c2 M1 M2| | | | |]; subst; clear M.
  destruct (matches_plus M1) as (_ & F1 & _).
  assert (W2 : Forall (fun c => c = c_yen) w2).
  { unfold Opt, Lit in M2. inversion M2; subst.
    - match goal with
      | M : matches (Chr _) _ _ |- _ => inversion M; subst
      end.
      constructor; [|constructor].
      match goal with
      | P : N.eqb _ _ = true |- _ => apply N.eqb_eq in P; now subst
      end.
    - match goal with
      | M : matches Eps _ _ |- _ => inversion M; subst
      end.
      constructor. }
  unfold numeral, remove_char. rewrite !Forall_forall in *. intros x I.
  apply filter_In in I. destruct I as (I & NY).
  apply filter_In in I. destruct I as (I & NC).
  apply in_app_or in I. destruct I as [I | I].
  - specialize (F1 x I). unfold number_char in F1.
    apply orb_true_iff in F1. destruct F1 as [D | C]; [exact D|].
    rewrite C in NC. discriminate.
  - rewrite (W2 x I), N.eqb_refl in NY. discriminate.
Qed.

(** The fields of an item: the numbers are digits only (the commas
    and the yen sign are taken out), the product name is a stripped
    line of more than two characters that is not made of digits, white
    space, commas and yen signs only. *)
Definition item_shape (it : order_item) : Prop :=
  (forall q, quantity it = Some q -> numeral q) /\
  (forall p, unit_price it = Some p -> numeral p) /\
  (forall a, amount it = Some a -> numeral a) /\
  (forall n, product_name it = Some n ->
     strip n = n /\ (2 < List.length n)%nat /\ single_line n /\
     rmatch (numeric_line ud) n = None).

Lemma scan_line_shape it raw :
  single_line raw -> item_shape it -> item_shape (scan_line ud it raw).
Proof.
  intros L (Q & P & A & N). unfold scan_line.
  destruct (strip raw) as [|c0 line0] eqn:E;
    [exact (conj Q (conj P (conj A N)))|].
  rewrite <- E.
  assert (Lq : forall m, search (quantity_pattern ud) (strip raw) = Some m ->
                 numeral (remove_char c_comma (group1 m))).
  { intros m S. apply remove_comma_numeral.
    now destruct (ExtractorFacts.label_pattern_group _ _ _ S) as (_ & F & _). }
  assert (Lp : forall m, search (unit_price_pattern ud) (strip raw) = Some m ->
                 numeral (remove_char c_comma (group1 m))).
  { intros m S. apply remove_comma_numeral.
    now destruct (ExtractorFacts.label_pattern_group _ _ _ S) as (_ & F & _). }
  pose proof (@amount_numeral (strip raw)) as La.
  assert (Ln : strip (strip raw) = strip raw /\ single_line (strip raw)).
  { split; [apply strip_strip | now apply strip_Forall]. }
  destruct (search (quantity_pattern ud) (strip raw)) as [mq|];
    destruct (search (unit_price_pattern ud) (strip raw)) as [mp|];
    destruct (findall (amount_pattern ud) (strip raw)) as [|first more];
    cbn [product_name quantity unit_price amount];
    destruct (amount it) as [a0|] eqn:Ea;
    cbn [product_name quantity unit_price amount];
    destruct (rmatch (numeric_line ud) (strip raw)) eqn:R;
    destruct (product_name it) as [n0|] eqn:En;
    try destruct (2 <? List.length (strip raw))%nat eqn:B;
    cbn [product_name quantity unit_price amount];
    rewrite ?Ea, ?En;
    (split; [|split; [|split]]);
    intros x Hx; rewrite ?Ea, ?En in Hx; try discriminate;
    try (inversion Hx; subst x);
    try (now apply Q); try (now apply P); try (now apply A); try (now apply N);
    try (now apply Lq); try (now apply Lp); try (now eapply La);
    try (apply Nat.ltb_lt in B; destruct Ln; repeat split; assumption).
Qed.

Lemma scan_lines_shape : forall lines it,
  Forall single_line lines -> item_shape it ->
  item_shape (fold_left (scan_line ud) lines it).
Proof.
  induction lines as [|raw lines IH]; simpl; intros it F S; [exact S|].
  inversion F; subst. apply IH; [assumption|]. now apply scan_line_shape.
Qed.

(** X5.  In the item that [extract_items] returns, the quantity, the
    unit price and the amount are made of digits only (possibly none),
    and the product name is stripped, lies on one line, has more than
    two characters and is not made of digits, white space, commas and
    yen signs only. *)
Theorem extract_items_fields (text : str) :
  forall it, In it (extract_items ud text) -> item_shape it.
Proof.
  unfold extract_items. intros it I.
  destruct (nonempty _); [|destruct I].
  destruct I as [<- | []].
  apply scan_lines_shape; [apply split_lines|].
  repeat split; discriminate.
Qed.

End WithDigits.

End OrderFacts.

(* ================================================================== *)
(** ** An order file from the scan to the spreadsheet *)

Module OrderMainFacts.

Import Py PyStr Model OrderDataExtractor OrderDocument OrderMain.
Import PyFacts TextFacts.
Local Open Scope order_scope.

Section WithDigits.
Variable ud : unicode_digits.

(** The order that [extract_order_data] builds when the clock shows
    [n]. *)
Definition order_of (text filename : str) (n : Datetime.datetime) : order_data :=
  {| OrderDocument.date :=
       Some (or_empty (ExtractorFacts.first_accepted ud (date_patterns ud) text));
     customer_name := Some (or_empty (extract_customer_name ud text));
     OrderDocument.items := Some (extract_items ud text);
     OrderDocument.filename := Some filename;
     processed_at := Some (strftime_ymd_hms n);
     raw_text := Some (firstn 500 text) |}.

Lemma extract_order_data_run w text filename s :
  extract_order_data ud w text filename s =
  (Ok (order_of text filename (clk w (ticks s))),
   {| ticks := S (ticks s);
      trace := trace s ++
        [Log Effects.INFO (extraction_started filename);
         Log Effects.INFO
           (extraction_done
              (ExtractorFacts.first_accepted ud (date_patterns ud) text)
              (extract_customer_name ud text)
              (List.length (extract_items ud text)))] |}).
Proof.
  unfold extract_order_data, mbind, log, emit, lift, now, ret, extract_date.
  rewrite (@ExtractorFacts.extract_date_from_spec ud text (date_patterns ud))
    by auto.
  cbn [ticks trace]. unfold order_of. f_equal. f_equal.
  symmetry. apply (app_assoc (trace s) [_] [_]).
Qed.

(** The rows of an extracted order: one, of nine cells. *)
Lemma format_order_rows text filename n :
  exists row,
    format_for_sheets (order_of text filename n) = [row] /\
    List.length row = List.length expected_headers /\
    nth 0 row [] = or_empty (ExtractorFacts.first_accepted ud (date_patterns ud) text) /\
    nth 1 row [] = or_empty (extract_customer_name ud text) /\
    nth 7 row [] = strftime_ymd_hms n /\
    nth 8 row [] = filename.
Proof.
  unfold format_for_sheets, order_of. cbn [OrderDocument.items].
  unfold extract_items. destruct (nonempty _).
  - eexists. split; [reflexivity|]. repeat split.
  - eexists. split; [reflexivity|]. repeat split.
Qed.

Definition is_append (ev : event) : bool :=
  match ev with
  | Sheets_append _ _ => true
  | _ => false
  end.

(** What the end of [process_file] does with the rows: whether they
    were appended, and the events. *)
Definition appended (w : world) (file_path : str) (rows : list (list str))
  : bool * list event :=
  match append_raises w with
  | None =>
      (true, [Sheets_append sheet1 rows;
              Log Effects.INFO (rows_appended (List.length rows) sheet1);
              Log Effects.INFO (processing_done file_path)])
  | Some e =>
      (false, match e with
              | HttpError => [Log Effects.ERROR (append_error sheet1)]
              | _ => []
              end ++ [Log Effects.ERROR (processing_error file_path e)])
  end.

(** What [process_file] returns and does, read off the answers of the
    world; [tk] is the reading of the clock at which it starts. *)
Definition outcome (w : world) (file_path : str) (manual_review : bool) (tk : nat)
  : bool * list event :=
  let started := Log Effects.INFO (processing_started file_path) in
  match ocr w with
  | Raise e => (false, [started; Log Effects.ERROR (processing_error file_path e)])
  | Ok text =>
      match strip text with
      | [] => (false, [started; Log Effects.WARNING (no_text file_path)])
      | _ =>
          let filename := basename file_path in
          let order := order_of text filename (clk w tk) in
          let extracted :=
            [started;
             Log Effects.INFO (extraction_started filename);
             Log Effects.INFO
               (extraction_done
                  (ExtractorFacts.first_accepted ud (date_patterns ud) text)
                  (extract_customer_name ud text)
                  (List.length (extract_items ud text)))] in
          let last_part := appended w file_path (format_for_sheets order) in
          if manual_review then
            match answer w with
            | Raise e =>
                (false, extracted ++
                        [Print_review order; Prompt;
                         Log Effects.ERROR (processing_error file_path e)])
            | Ok response =>
                if is_yes response then
                  (fst last_part,
                   extracted ++ [Print_review order; Prompt] ++ snd last_part)
                else
                  (false, extracted ++
                          [Print_review order; Prompt; Log Effects.INFO cancelled])
            end
          else (fst last_part, extracted ++ snd last_part)
      end
  end.

Lemma process_file_state w file_path manual_review s :
  exists tk,
    process_file ud w file_path manual_review s =
    (Ok (fst (outcome w file_path manual_review (ticks s))),
     {| ticks := tk;
        trace := trace s ++ snd (outcome w file_path manual_review (ticks s)) |}).
Proof.
  unfold process_file, outcome, try_except.
  unfold mbind at 1. unfold log at 1, emit at 1. cbv beta iota zeta.
  unfold mbind at 1. unfold lift at 1. cbv beta iota zeta.
  destruct (ocr w) as [text|e].
  2: { unfold mbind, log, emit, ret. cbn [fst snd trace ticks].
       rewrite <- app_assoc. eexists. reflexivity. }
  destruct (strip text) as [|c0 t0].
  { unfold mbind, log, emit, ret. cbn [fst snd trace ticks].
    rewrite <- app_assoc. eexists. reflexivity. }
  unfold mbind at 1. rewrite extract_order_data_run. cbv beta iota zeta.
  cbn [ticks trace].
  set (order := order_of text (basename file_path) (clk w (ticks s))).
  assert (Fin : forall tk pre, exists tk',
    match
      (append_rows w sheet1 (format_for_sheets order) ;;;
       log Effects.INFO (processing_done file_path) ;;; ret true)
        {| ticks := tk; trace := pre |}
    with
    | (Ok a, s') => (Ok a, s')
    | (Raise e, s') =>
        (log Effects.ERROR (processing_error file_path e) ;;; ret false) s'
    end =
    (Ok (fst (appended w file_path (format_for_sheets order))),
     {| ticks := tk';
        trace := pre ++ snd (appended w file_path (format_for_sheets order)) |})).
  { intros tk pre. unfold append_rows, appended.
    destruct (append_raises w) as [[]|];
      unfold mbind, log, emit, ret, raise; cbn [fst snd trace ticks app];
      rewrite <- ?app_assoc; eexists; reflexivity. }
  destruct manual_review.
  - unfold mbind at 1 2 3 4. unfold emit at 1 2, lift at 1. cbv beta iota zeta.
    cbn [ticks trace].
    destruct (answer w) as [response|e].
    + destruct (is_yes response).
      * unfold ret at 1. cbv beta iota zeta.
        match goal with
        | |- context [{| ticks := ?tk; trace := ?pre |}] =>
            destruct (Fin tk pre) as (tk' & F)
        end.
        rewrite F. exists tk'. cbn [fst snd]. rewrite <- !app_assoc. reflexivity.
      * unfold mbind, log, emit, ret. cbn [fst snd trace ticks].
        rewrite <- !app_assoc. eexists. reflexivity.
    + unfold mbind, log, emit, ret. cbn [fst snd trace ticks].
      rewrite <- !app_assoc. eexists. reflexivity.
  - unfold mbind at 1. unfold ret at 1. cbv beta iota zeta.
    match goal with
    | |- context [{| ticks := ?tk; trace := ?pre |}] =>
        destruct (Fin tk pre) as (tk' & F)
    end.
    rewrite F. exists tk'. cbn [fst snd]. rewrite <- !app_assoc. reflexivity.
Qed.

Lemma process_file_run w file_path manual_review s :
  fst (process_file ud w file_path manual_review s) =
    Ok (fst (outcome w file_path manual_review (ticks s))) /\
  trace (snd (process_file ud w file_path manual_review s)) =
    trace s ++ snd (outcome w file_path manual_review (ticks s)).
Proof.
  destruct (process_file_state w file_path manual_review s) as (tk & ->).
  split; reflexivity.
Qed.

(** The answer that lets a reviewed file through. *)
Definition confirmed (w : world) (manual_review : bool) : Prop :=
  manual_review = true ->
  exists response, answer w = Ok response /\ is_yes response = true.

Lemma appended_facts w file_path rows :
  let r := appended w file_path rows in
  (fst r = true <-> append_raises w = None) /\
  (fst r = true <-> existsb is_append (snd r) = true) /\
  filter is_append (snd r) = (if fst r then [Sheets_append sheet1 rows] else []) /\
  (forall sheet header, ~ In (Sheets_update_header sheet header) (snd r)).
Proof.
  unfold appended. destruct (append_raises w) as [[]|]; cbn;
    (split; [split; intros; (reflexivity || discriminate)|]);
    (split; [split; intros; (reflexivity || discriminate)|]);
    (split; [reflexivity|]); intros sheet header I;
    intuition discriminate.
Qed.

(** X6.  [process_file] never raises.  It returns [True] exactly when the
    scan gave a text that is not blank, the reviewer (if any) answered
    [y] or [Y], and the spreadsheet took the rows; it is then, and only
    then, that rows are appended: once, to [Sheet1], a single row with
    as many cells as the header has columns.  The header is never
    written by [process_file]. *)
Theorem process_file_appends_one_row w file_path manual_review s :
  exists b evs,
    fst (process_file ud w file_path manual_review s) = Ok b /\
    trace (snd (process_file ud w file_path manual_review s)) = trace s ++ evs /\
    (b = true <->
     (exists text, ocr w = Ok text /\ strip text <> []) /\
     confirmed w manual_review /\ append_raises w = None) /\
    (b = true <-> existsb is_append evs = true) /\
    (List.length (filter is_append evs) <= 1)%nat /\
    (forall sheet rows, In (Sheets_append sheet rows) evs ->
       sheet = sheet1 /\
       exists row, rows = [row] /\
         List.length row = List.length expected_headers) /\
    (forall sheet header, ~ In (Sheets_update_header sheet header) evs).
Proof.
  destruct (process_file_run w file_path manual_review s) as (R1 & R2).
  exists (fst (outcome w file_path manual_review (ticks s))),
         (snd (outcome w file_path manual_review (ticks s))).
  split; [exact R1|]. split; [exact R2|]. clear R1 R2.
  assert (In_filter : forall evs sheet rows,
            In (Sheets_append sheet rows) evs ->
            In (Sheets_append sheet rows) (filter is_append evs)).
  { intros evs sheet rows I. apply filter_In. auto. }
  unfold outcome. cbv zeta.
  destruct (ocr w) as [text|e] eqn:O.
  2: { cbn. repeat split; try discriminate; try lia;
         try (intros; intuition discriminate).
       intros ((t & T & _) & _). discriminate. }
  destruct (strip text) as [|c0 t0] eqn:St.
  { cbn. repeat split; try discriminate; try lia;
      try (intros; intuition discriminate).
    intros ((t & T & NB) & _). inversion T; subst. congruence. }
  assert (NB : exists text0, Ok text = Ok text0 /\ strip text0 <> []).
  { exists text. rewrite St. split; [reflexivity | discriminate]. }
  set (order := order_of text (basename file_path) (clk w (ticks s))).
  destruct (format_order_rows text (basename file_path) (clk w (ticks s)))
    as (row & FR & LR & _).
  fold order in FR. rewrite FR.
  destruct (appended_facts w file_path [row]) as (A1 & A2 & A3 & A4).
  cbv zeta in A1, A2, A3, A4.
  set (last_part := appended w file_path [row]) in *.
  assert (Rows : forall sheet rows,
            In (Sheets_append sheet rows) (filter is_append (snd last_part)) ->
            sheet = sheet1 /\
            exists row0, rows = [row0] /\
              List.length row0 = List.length expected_headers).
  { intros sheet rows I. rewrite A3 in I.
    destruct (fst last_part); [|destruct I].
    destruct I as [I | []]. inversion I; subst. eauto. }
  assert (Len : (List.length (filter is_append (snd last_part)) <= 1)%nat).
  { rewrite A3. destruct (fst last_part); simpl; lia. }
  destruct manual_review.
  - destruct (answer w) as [response|e] eqn:An.
    + destruct (is_yes response) eqn:Y.
      * cbn [fst snd]. split; [|split; [|split; [|split]]].
        -- rewrite A1. split.
           ++ intros A. split; [exact NB|]. split; [|exact A].
              intros _. exists response. auto.
           ++ tauto.
        -- rewrite A2. cbn. reflexivity.
        -- cbn. exact Len.
        -- intros sheet rows I. apply In_filter in I. cbn in I. now apply Rows.
        -- intros sheet header I. cbn in I.
           destruct I as [I | [I | [I | [I | [I | I]]]]]; try discriminate.
           now apply A4 in I.
      * cbn. repeat split; try discriminate; try lia;
          try (intros; intuition discriminate).
        intros (_ & C & _).
        destruct (C eq_refl) as (r & R & Y'). rewrite An in R.
        inversion R; subst. congruence.
    + cbn. repeat split; try discriminate; try lia;
        try (intros; intuition discriminate).
      intros (_ & C & _). destruct (C eq_refl) as (r & R & _).
      rewrite An in R. discriminate.
  - cbn [fst snd]. split; [|split; [|split; [|split]]].
    + rewrite A1. split.
      * intros A. split; [exact NB|]. split; [|exact A]. intros; discriminate.
      * tauto.
    + rewrite A2. cbn. reflexivity.
    + cbn. exact Len.
    + intros sheet rows I. apply In_filter in I. cbn in I. now apply Rows.
    + intros sheet header I. cbn in I.
      destruct I as [I | [I | [I | I]]]; try discriminate.
      now apply A4 in I.
Qed.

(** *** The header of the order sheet *)

Lemma same_row_eq a b : same_row a b = true <-> a = b.
Proof.
  revert b. induction a as [|x a IH]; intros [|y b]; cbn;
    try (split; [discriminate | congruence]); try tauto.
  rewrite andb_true_iff, eqb_eq, IH. split; [intros (-> & ->) | intros [= -> ->]]; auto.
Qed.

Definition is_header_update (ev : event) : bool :=
  match ev with
  | Sheets_update_header _ _ => true
  | _ => false
  end.

(** What [create_header_if_needed] returns and does, read off the
    answers of the world. *)
Definition header_outcome (w : world) (sheet : str) : result unit * list event :=
  let write (pre : list event) :=
    if update_ok w then
      (Ok tt, pre ++ [Sheets_update_header sheet expected_headers;
                      Log Effects.INFO (header_created sheet)])
    else (Raise HttpError, pre) in
  match header_row w with
  | Ok headers =>
      if same_row headers expected_headers then (Ok tt, []) else write []
  | Raise HttpError => write [Log Effects.ERROR (header_error sheet)]
  | Raise e => (Raise e, [])
  end.

Lemma create_header_run w sheet s :
  create_header_if_needed w sheet s =
  (fst (header_outcome w sheet),
   {| ticks := ticks s; trace := trace s ++ snd (header_outcome w sheet) |}).
Proof.
  unfold create_header_if_needed, header_outcome, get_header_row.
  destruct s as [tk tr].
  destruct (header_row w) as [headers|e].
  - unfold mbind at 1, ret at 1. cbv beta iota.
    destruct (same_row headers expected_headers) eqn:Same.
    + apply same_row_eq in Same. subst headers. cbn. now rewrite app_nil_r.
    + cbn [negb]. rewrite orb_true_r.
      unfold mbind, log, emit, raise, ret.
      destruct (update_ok w); cbn [fst snd trace ticks];
        rewrite <- ?app_assoc, ?app_nil_r; reflexivity.
  - destruct e; unfold mbind, log, emit, raise, ret; cbn [fst snd trace ticks orb];
      try destruct (update_ok w); cbn [fst snd trace ticks];
      rewrite <- ?app_assoc, ?app_nil_r; reflexivity.
Qed.

(** X7: the header of the order sheet.  [create_header_if_needed] leaves
    a sheet alone whose first row is the expected header: it writes
    nothing, so a second call after a successful one does nothing.
    For any other first row, an empty one, or one that could not be
    read, it writes the expected header, once; when that write fails
    the error is not caught.  It returns only with the header in
    place, and it appends no row. *)
Theorem header_written_when_needed w sheet s :
  let r := create_header_if_needed w sheet s in
  exists evs,
    trace (snd r) = trace s ++ evs /\
    (header_row w = Ok expected_headers -> r = (Ok tt, s)) /\
    filter is_header_update evs =
      (if update_ok w then
         match header_row w with
         | Ok headers =>
             if same_row headers expected_headers then []
             else [Sheets_update_header sheet expected_headers]
         | Raise HttpError => [Sheets_update_header sheet expected_headers]
         | Raise _ => []
         end
       else []) /\
    (fst r = Ok tt ->
     header_row w = Ok expected_headers \/
     In (Sheets_update_header sheet expected_headers) evs) /\
    (forall e, fst r = Raise e ->
       header_row w <> Ok expected_headers /\
       (header_row w = Raise e \/ (e = HttpError /\ update_ok w = false))) /\
    filter is_append evs = [].
Proof.
  cbv zeta. rewrite create_header_run. cbn [fst snd trace].
  exists (snd (header_outcome w sheet)). split; [reflexivity|].
  unfold header_outcome.
  destruct (header_row w) as [headers|e] eqn:Hd.
  - destruct (same_row headers expected_headers) eqn:Same.
    + apply same_row_eq in Same. subst headers. cbn [fst snd].
      rewrite app_nil_r. destruct s. cbn.
      repeat split; auto; try discriminate. now destruct (update_ok w).
    + assert (NE : Ok headers <> Ok expected_headers).
      { intros [= E]. apply same_row_eq in E. congruence. }
      destruct (update_ok w); cbn; repeat split; auto; try congruence;
        try discriminate.
      right. split; [congruence | reflexivity].
  - assert (NE : Raise e <> Ok expected_headers) by discriminate.
    destruct e; try destruct (update_ok w) eqn:Up; cbn;
      repeat split; auto; try congruence; try discriminate;
      try (left; congruence); try (right; split; [congruence | reflexivity]).
Qed.

(** *** The files of a run *)

(** The file succeeds: the scan gave a text that is not blank, the
    reviewer (if any) answered [y] or [Y], and the spreadsheet took the
    rows. *)
Definition succeeds (manual_review : bool) (j : job) : bool :=
  match ocr (answers j) with
  | Ok text =>
      match strip text with
      | [] => false
      | _ =>
          (if manual_review then
             match answer (answers j) with
             | Ok response => is_yes response
             | Raise _ => false
             end
           else true) &&
          match append_raises (answers j) with
          | None => true
          | Some _ => false
          end
      end
  | Raise _ => false
  end.

Definition is_move (ev : event) : bool :=
  match ev with
  | Move _ => true
  | _ => false
  end.

Lemma outcome_facts manual_review j tk :
  let r := outcome (answers j) (path j) manual_review tk in
  fst r = succeeds manual_review j /\
  List.length (filter is_append (snd r)) = (if fst r then 1 else 0)%nat /\
  filter is_move (snd r) = [].
Proof.
  cbv zeta. unfold outcome, succeeds, appended.
  destruct (ocr (answers j)) as [text|e]; [|cbn; auto].
  destruct (strip text) as [|c0 t0]; [cbn; auto|].
  destruct manual_review;
    [destruct (answer (answers j)) as [response|e];
       [destruct (is_yes response)|]|];
    destruct (append_raises (answers j)) as [[]|]; cbn; auto.
Qed.

(** The files that are moved: those that succeed, were found in the
    input folder and can be renamed. *)
Definition is_moved (manual_review : bool) (j : job) : bool :=
  succeeds manual_review j && is_path j && rename_ok j.

Lemma process_files_run manual_review : forall jobs count s,
  exists evs s',
    process_files ud jobs manual_review count s =
      (Ok (count + List.length (filter (succeeds manual_review) jobs))%nat, s') /\
    trace s' = trace s ++ evs /\
    List.length (filter is_append evs) =
      List.length (filter (succeeds manual_review) jobs) /\
    filter is_move evs =
      map (fun j => Move (path j)) (filter (is_moved manual_review) jobs) /\
    filter is_header_update evs = [].
Proof.
  induction jobs as [|j jobs IH]; intros count s.
  - exists [], s. cbn. rewrite app_nil_r, Nat.add_0_r. auto.
  - cbn [process_files]. unfold mbind at 1.
    destruct (process_file_state (answers j) (path j) manual_review s) as (tk & ->).
    destruct (outcome_facts manual_review j (ticks s)) as (O1 & O2 & O3).
    cbv zeta in O1, O2, O3.
    assert (O4 : filter is_header_update
                   (snd (outcome (answers j) (path j) manual_review (ticks s))) = []).
    { clear. unfold outcome, appended.
      destruct (ocr (answers j)) as [text|e]; [|reflexivity].
      destruct (strip text) as [|c0 t0]; [reflexivity|].
      destruct manual_review;
        [destruct (answer (answers j)) as [response|e];
           [destruct (is_yes response)|]|];
        destruct (append_raises (answers j)) as [[]|]; reflexivity. }
    set (out := outcome (answers j) (path j) manual_review (ticks s)) in *.
    cbn [filter]. unfold is_moved at 1. rewrite <- O1.
    destruct (fst out); cbv beta iota.
    + unfold mbind at 1, move_processed.
      destruct (is_path j && rename_ok j) eqn:Mv;
        unfold mbind, log, emit; cbn [fst snd trace ticks];
        match goal with
        | |- context [process_files ud jobs manual_review ?c ?s1] =>
            destruct (IH c s1) as (evs & s' & -> & T & A & M & H)
        end;
        cbn [trace] in T; rewrite <- ?app_assoc in T; cbn [andb];
        eexists _, s'; (split; [f_equal; f_equal; cbn; lia|]);
        (split; [exact T|]);
        rewrite !filter_app, !length_app, O2, O3, O4; cbn;
        rewrite A, M, H, Mv; auto.
    + destruct (IH count {| ticks := tk; trace := trace s ++ snd out |})
        as (evs & s' & -> & T & A & M & H).
      cbn [trace] in T. rewrite <- app_assoc in T. cbn [andb].
      eexists _, s'. split; [reflexivity|].
      split; [exact T|].
      rewrite !filter_app, !length_app, O2, O3, O4. cbn.
      rewrite A, M, H. auto.
Qed.

(** X8: the count of a run.  The loop of [main] over the files never
    raises.  The number of successes it reports is the number of files
    that succeed, and also the number of times rows were appended to
    the sheet; the files moved to the processed folder are, in order,
    the successful ones that were found in the input folder and could
    be renamed (the file named by [--file] is never moved); the header
    is not written. *)
Theorem success_count_is_appends (jobs : list job) (manual_review : bool) s :
  let n := List.length (filter (succeeds manual_review) jobs) in
  exists evs,
    fst (run_files ud jobs manual_review s) = Ok tt /\
    trace (snd (run_files ud jobs manual_review s)) =
      trace s ++ [Log Effects.INFO (files_found (List.length jobs))] ++ evs ++
                 [Log Effects.INFO (run_done n (List.length jobs))] /\
    List.length (filter is_append evs) = n /\
    filter is_move evs =
      map (fun j => Move (path j)) (filter (is_moved manual_review) jobs) /\
    filter is_header_update evs = [] /\
    (n <= List.length jobs)%nat.
Proof.
  cbv zeta. destruct (run_files ud jobs manual_review s) as [r s2] eqn:E.
  cbn [fst snd]. unfold run_files, mbind, log, emit in E. cbn [trace ticks] in E.
  match type of E with
  | context [process_files ud jobs manual_review ?c ?s1] =>
      destruct (process_files_run manual_review jobs c s1)
        as (evs & s' & P & T & A & M & H)
  end.
  rewrite P in E. cbn [trace Nat.add] in T, E. inversion E; subst r s2.
  cbn [trace]. exists evs. split; [reflexivity|]. split.
  { rewrite T, <- !app_assoc. reflexivity. }
  split; [exact A|]. split; [exact M|]. split; [exact H|].
  apply filter_length_le.
Qed.

End WithDigits.

End OrderMainFacts.

(* ================================================================== *)
(** ** Scenarios *)

(** The theorems above at concrete listings, clocks and cycles, and the
    inputs at which the code parts from what the specification says. *)
Module Scenarios.

Import Py Model Effects PyFacts DifferFacts ExpiryFacts ExtractorFacts.
Import EffectFacts StoreFacts CycleFacts.
Import InventoryMonitor InventoryNotifier MonitorMain OrderDataExtractor.
Local Open Scope Z_scope.

Definition an_item (name : string) (q : Z) (expiry : string) : item :=
  {| product := Some (u name); Model.quantity := Some q;
     expiry_date := Some (u expiry); scraped_at := None |}.

(** The clock at 2024-01-10, [h] o'clock, one second per reading. *)
Definition clock_at (h : Z) : clock :=
  fun n => {| Datetime.year := 2024; Datetime.month := 1; Datetime.day := 10;
              Datetime.hour := h; Datetime.minute := 0;
              Datetime.second := Z.of_nat n; Datetime.microsecond := 0 |}.

Definition stock_before : list item :=
  [an_item "A" 100 "2024-01-20"; an_item "C" 7 "2024-01-01"; an_item "D" 1 "2024-03-01"].

Definition stock_now : list item :=
  [an_item "A" 60 "2024-01-20"; an_item "B" 5 "N/A"; an_item "C" 7 "2024-06-01"].

(** The change set and the next clock index of a run that returned. *)
Definition observed (r : result (change_set * nat)) : change_set :=
  match r with
  | Ok (cs, _) => cs
  | Raise _ => {| changes := []; new_products := []; removed_products := [];
                  timestamp := [] |}
  end.

Definition next_tick (r : result (change_set * nat)) : nat :=
  match r with
  | Ok (_, t) => t
  | Raise _ => 0
  end.

Definition run_noon := diff (clock_at 12) 0 stock_now stock_before.

Lemma diff_change_event_witness :
  listing_ok stock_now /\ listing_ok stock_before /\
  exists cs t',
    run_noon = Ok (cs, t') /\
    forall p c pv,
      last_row p stock_now = Some c ->
      last_row p stock_before = Some pv ->
      exists cq pq ce,
        Model.quantity c = Some cq /\ Model.quantity pv = Some pq /\
        expiry_date c = Some ce /\
        let pe := get_default (expiry_date pv) [] in
        let d := cq - pq in
        ((exists ev, In ev (changes cs) /\ ci_product ev = p) <-> (d <> 0 \/ ce <> pe)) /\
        (forall ev, In ev (changes cs) -> ci_product ev = p ->
           quantity_diff ev = d /\
           previous_quantity ev = pq /\ current_quantity ev = cq /\
           previous_expiry ev = pe /\ current_expiry ev = ce /\
           expiry_changed ev = negb (PyStr.eqb ce pe) /\
           (d < 0 -> type ev = shipment /\ shipped_quantity ev = Some (Z.abs d)) /\
           (0 <= d -> type ev = increase /\ shipped_quantity ev = None)) /\
        (count_named ci_product p (changes cs) <= 1)%nat.
Proof.
  assert (H1 : listing_ok stock_now) by (repeat constructor).
  assert (H2 : listing_ok stock_before) by (repeat constructor).
  split; [exact H1|]. split; [exact H2|].
  exact (@diff_change_event (clock_at 12) 0%nat stock_now stock_before H1 H2).
Defined.

(** The run at noon: forty of A shipped, and C, whose quantity stayed
    and whose expiry moved, reported as an increase of zero. *)
Example run_noon_changes :
  map (fun ev => (ci_product ev, type ev, quantity_diff ev,
                  shipped_quantity ev, expiry_changed ev))
      (changes (observed run_noon)) =
  [(u"A", shipment, -40, Some 40, false); (u"C", increase, 0, None, true)].
Proof. vm_compute. reflexivity. Qed.

Lemma listing_ok_now : listing_ok stock_now.
Proof. repeat constructor. Qed.

Lemma listing_ok_before : listing_ok stock_before.
Proof. repeat constructor. Qed.

Lemma diff_new_and_removed_witness :
  listing_ok stock_now /\ listing_ok stock_before /\
  exists cs t',
    diff (clock_at 12) 0 stock_now stock_before = Ok (cs, t') /\
    (forall p, count_named np_product p (new_products cs) =
               if present p stock_now && negb (present p stock_before)
               then 1 else 0)%nat /\
    (forall nw, In nw (new_products cs) ->
       exists c, last_row (np_product nw) stock_now = Some c /\
         Model.quantity c = Some (np_quantity nw) /\
         expiry_date c = Some (np_expiry_date nw)) /\
    (forall p, count_named rp_product p (removed_products cs) =
               if present p stock_before && negb (present p stock_now)
               then 1 else 0)%nat /\
    (forall rm, In rm (removed_products cs) ->
       exists pv, last_row (rp_product rm) stock_before = Some pv /\
         Model.quantity pv = Some (rp_previous_quantity rm)) /\
    (stock_before = [] -> changes cs = [] /\ removed_products cs = []) /\
    (stock_now = [] -> changes cs = [] /\ new_products cs = []).
Proof.
  split; [exact listing_ok_now|]. split; [exact listing_ok_before|].
  exact (@diff_new_and_removed (clock_at 12) 0%nat stock_now stock_before
           listing_ok_now listing_ok_before).
Defined.

(** The same listings compared at noon and at eleven at night: the
    change sets differ (in their timestamps). *)
Lemma diff_timestamps_differ :
  match diff (clock_at 12) 0 stock_now stock_before,
        diff (clock_at 23) 0 stock_now stock_before with
  | Ok (cs1, _), Ok (cs2, _) => cs1 <> cs2
  | _, _ => False
  end.
Proof. vm_compute. intros E. discriminate E. Qed.

Lemma diff_deterministic_up_to_clock_witness :
  listing_ok stock_now /\ listing_ok stock_before /\
  content (diff (clock_at 12) 0 stock_now stock_before) =
  content (diff (clock_at 23) 0 stock_now stock_before) /\
  exists cs t', diff (clock_at 12) 0 stock_now stock_before = Ok (cs, t').
Proof.
  split; [exact listing_ok_now|]. split; [exact listing_ok_before|].
  destruct (@diff_deterministic_up_to_clock (clock_at 12) 0%nat (clock_at 23) 0%nat
              stock_now stock_before) as [E H].
  split; [exact E | exact (H listing_ok_now listing_ok_before)].
Defined.

(** *** The expiry scan *)

Definition due_in_31_days : item := an_item "A" 60 "2024-02-10".

(** At noon of 2024-01-10 the row expiring on 2024-02-10 is 30 days and
    12 hours away: its [days_until_expiry] would be 30, within a
    horizon of 30, but its expiry is after the cutoff and the scan
    drops it.  And a horizon that takes the cutoff past year 9999
    raises. *)
Lemma expiry_scan_drops_day_30 :
  get_expiring_soon_products PyStr.ascii_only (clock_at 12) 0 [due_in_31_days] 30
    = Ok ([], 1%nat) /\
  (exists e, parsed_expiry PyStr.ascii_only due_in_31_days = Some e /\
     Datetime.delta_days e (Datetime.to_microseconds (clock_at 12 0%nat)) = 30) /\
  get_expiring_soon_products PyStr.ascii_only (clock_at 12) 0 [due_in_31_days] 10000000
    = Raise OverflowError.
Proof.
  split; [vm_compute; reflexivity|]. split; [|vm_compute; reflexivity].
  exists 63843206400000000. split; vm_compute; reflexivity.
Qed.

Lemma expiring_soon_spec_witness :
  let cutoff_date :=
    Datetime.to_microseconds (clock_at 12 0%nat) + 30 * Datetime.DAY in
  Datetime.MIN_US <= cutoff_date <= Datetime.MAX_US /\
  exists out xs t',
    get_expiring_soon_products PyStr.ascii_only (clock_at 12) 0 stock_now 30
      = Ok (out, t') /\
    map row xs = filter (kept PyStr.ascii_only cutoff_date) stock_now /\
    Permutation xs out /\
    StronglySorted by_days out /\
    (forall d, filter (with_days d) out = filter (with_days d) xs) /\
    (forall x, In x out ->
       exists e tx, (0 < tx)%nat /\
         parsed_expiry PyStr.ascii_only (Model.row x) = Some e /\
         e <= cutoff_date /\
         days_until_expiry x =
           Datetime.delta_days e (Datetime.to_microseconds (clock_at 12 tx)) /\
         (Datetime.to_microseconds (clock_at 12 0%nat)
            <= Datetime.to_microseconds (clock_at 12 tx) ->
          days_until_expiry x <= 30)).
Proof.
  assert (R : Datetime.MIN_US
              <= Datetime.to_microseconds (clock_at 12 0%nat) + 30 * Datetime.DAY
              <= Datetime.MAX_US) by (vm_compute; split; discriminate).
  split; [exact R|].
  exact (@expiring_soon_spec PyStr.ascii_only (clock_at 12) 0%nat stock_now 30 R).
Defined.

(** *** The snapshot store *)

Definition no_services : config :=
  {| sheets_client := false; notification_email := None;
     smtp_username := None; smtp_password := None |}.

Definition all_services : config :=
  {| sheets_client := true; notification_email := Some (u"staff@example.com");
     smtp_username := Some (u"monitor"); smtp_password := Some (u"secret") |}.

(** A world in which everything works, given what the scraper returns
    and how the write of the history file ends. *)
Definition world (f : result (list item)) (w : write_outcome) : oracle :=
  {| clk := clock_at 12; fetch := f; write := w;
     header_row := fun _ => Ok []; update_ok := fun _ => true;
     append_ok := fun _ => true; smtp_ok := true |}.

Definition history_before : history := [(u"latest", Listing stock_before)].

(** The monitor with yesterday's snapshot, safely on disk. *)
Definition monitor_before : state :=
  {| monitor_history := history_before;
     file := Content (Json.dumps history_before); ticks := 0; trace := [] |}.

(** A save interrupted just after the file was opened leaves an empty
    file: the snapshot that was on disk is gone, and the new one is
    not there. *)
Lemma interrupted_save_loses_snapshot :
  let r := save_inventory_snapshot no_services (world (Ok stock_now) (Write_fails 0))
             stock_now k_latest monitor_before in
  file monitor_before = Content (Json.dumps (monitor_history monitor_before)) /\
  file (snd r) = Content [] /\
  file (snd r) <> file monitor_before /\
  file (snd r) <> Content (Json.dumps (monitor_history (snd r))) /\
  partly_written (monitor_history (snd r)) 0 = Content [].
Proof.
  cbv zeta. split; [reflexivity|]. split; [vm_compute; reflexivity|].
  split; [vm_compute; intros E; discriminate E|].
  split; [vm_compute; intros E; discriminate E | reflexivity].
Qed.

Lemma save_inventory_snapshot_spec_witness :
  let o := world (Ok stock_now) Written in
  let r := save_inventory_snapshot all_services o stock_now k_latest monitor_before in
  let h' := monitor_history (snd r) in
  write o = Written /\
  fst r = Ok tt /\
  PyDict.get k_latest h' = Some (Listing stock_now) /\
  PyDict.get (k_latest ++ k_timestamp_suffix) h' =
    Some (Stamp (u"2024-01-10T12:00:00")) /\
  file (snd r) = Content (Json.dumps h').
Proof.
  cbv zeta.
  destruct (@save_inventory_snapshot_spec all_services (world (Ok stock_now) Written)
              stock_now k_latest monitor_before) as (R & L & T & _ & W & _).
  split; [reflexivity|]. split; [exact R|]. split; [exact L|].
  split; [exact T | exact (W eq_refl)].
Defined.




(** *** The cycle *)

Definition cycles_of_a_day : list oracle :=
  [world (Ok stock_now) Written; world (Raise FetchError) Written;
   world (Ok []) Written].

Lemma well_typed_cycles : Forall well_typed_fetch cycles_of_a_day.
Proof.
  repeat constructor; intros l E; simpl in E; inversion E; subst;
    repeat constructor.
Qed.

Lemma good_history_before : good_history (monitor_history monitor_before).
Proof. exact listing_ok_before. Qed.

Lemma latest_reflects_last_fetch_witness :
  good_history (monitor_history monitor_before) /\
  Forall well_typed_fetch cycles_of_a_day /\
  latest (run_scheduled_monitoring PyStr.ascii_only all_services true 30
            cycles_of_a_day monitor_before) = Some (Listing stock_now).
Proof.
  split; [exact good_history_before|]. split; [exact well_typed_cycles|].
  destruct (latest_reflects_last_fetch PyStr.ascii_only all_services true 30)
    as (_ & _ & H).
  rewrite (H cycles_of_a_day monitor_before good_history_before well_typed_cycles).
  reflexivity.
Defined.

Definition compared_now :=
  compare_inventory (clock_at 12) 0 history_before stock_now k_latest.

(** A cycle that detects a shipment while no Sheets client is
    configured: the notice is sent, nothing goes to the changes sheet. *)
Lemma shipment_without_changes_sheet :
  let s' := cycle PyStr.ascii_only no_services true 30 monitor_before
              (world (Ok stock_now) Written) in
  filter is_shipment (changes (observed compared_now)) <> [] /\
  existsb is_shipment_notice (trace s') = true /\
  existsb is_changes_append (trace s') = false.
Proof.
  cbv zeta. split; [vm_compute; intros E; discriminate E|].
  split; vm_compute; reflexivity.
Qed.

Lemma shipment_notice_and_changes_sheet_witness :
  let o := world (Ok stock_now) Written in
  let s' := cycle PyStr.ascii_only all_services true 30 monitor_before o in
  let shipments := filter is_shipment (changes (observed compared_now)) in
  fetch o = Ok stock_now /\ stock_now <> [] /\ listing_ok stock_now /\
  compared_now = Ok (observed compared_now, next_tick compared_now) /\
  exists evs,
    trace s' = trace monitor_before ++ evs /\
    (existsb is_shipment_notice evs = true <-> shipments <> []) /\
    (shipments <> [] -> In (Print_shipment shipments) evs) /\
    (existsb is_changes_append evs = true <->
     shipments <> [] /\ sheets_client all_services = true /\
     sheet_accepts o changes_sheet = true) /\
    latest s' = Some (Listing stock_now).
Proof.
  cbv zeta.
  assert (N : stock_now <> []) by discriminate.
  assert (C : compared_now = Ok (observed compared_now, next_tick compared_now))
    by (vm_compute; reflexivity).
  split; [reflexivity|]. split; [exact N|]. split; [exact listing_ok_now|].
  split; [exact C|].
  exact (@shipment_notice_and_changes_sheet PyStr.ascii_only all_services true 30
           monitor_before (world (Ok stock_now) Written) stock_now
           (observed compared_now) (next_tick compared_now)
           eq_refl N listing_ok_now C).
Defined.

(** *** The extractor *)

(** The three dates of the specification. *)
Example extract_date_kanji :
  extract_date PyStr.ascii_only (u"注文日 2024年3月5日") = Ok (Some (u"2024-03-05")).
Proof. vm_compute. reflexivity. Qed.

Example extract_date_two_digit_year :
  extract_date PyStr.ascii_only (u"24/3/5") = Ok (Some (u"2024-03-05")) /\
  extract_date PyStr.ascii_only (u"31/12/25") = Ok (Some (u"1931-12-25")).
Proof. split; vm_compute; reflexivity. Qed.

Example extract_date_month_13 :
  extract_date PyStr.ascii_only (u"2024-13-01") = Ok None.
Proof. vm_compute. reflexivity. Qed.


(** Two items on the form, one record out: the first product name, the
    last quantity. *)
Definition two_item_form : str :=
  u"りんごジュース
数量: 1,200
みかんジュース
数量: 30".

Example extract_items_two_item_form :
  extract_items PyStr.ascii_only two_item_form =
  [{| product_name := Some (u"りんごジュース"); quantity := Some (u"30");
      unit_price := None; amount := Some (u"1200") |}].
Proof. vm_compute. reflexivity. Qed.

Lemma extract_items_at_most_one_witness :
  In (fold_left (scan_line PyStr.ascii_only) (PyStr.split 10%N two_item_form) empty_item)
     (extract_items PyStr.ascii_only two_item_form) /\
  (List.length (extract_items PyStr.ascii_only two_item_form) <= 1)%nat /\
  nonempty (fold_left (scan_line PyStr.ascii_only)
              (PyStr.split 10%N two_item_form) empty_item) = true.
Proof.
  assert (I : In (fold_left (scan_line PyStr.ascii_only)
                    (PyStr.split 10%N two_item_form) empty_item)
                 (extract_items PyStr.ascii_only two_item_form))
    by (vm_compute; left; reflexivity).
  destruct (extract_items_at_most_one PyStr.ascii_only two_item_form) as (L & H & _).
  split; [exact I|]. split; [exact L|]. exact (proj2 (H _ I)).
Defined.

End Scenarios.

(* ================================================================== *)
(** ** Scenarios of the monitor *)

Module MonitorScenarios.

Import Py Model Effects PyFacts DifferFacts ExpiryFacts.
Import EffectFacts StoreFacts CycleFacts MonitorFacts ScraperFacts.
Import InventoryMonitor InventoryNotifier MonitorMain WebScraper Scenarios.
Local Open Scope Z_scope.

(** *** The scraper *)

Lemma parse_quantity_reads_number_witness :
  _parse_quantity PyStr.ascii_only (u"1,200個") = Ok 1200 /\
  _parse_quantity PyStr.ascii_only (u"在庫なし") = Ok 0.
Proof.
  split.
  - destruct (parse_quantity_reads_number PyStr.ascii_only (u"1,200個"))
      as (_ & _ & H).
    apply (H 1200 (u"個")); [lia | cbn; unfold int_max_str_digits; lia
                            | reflexivity | reflexivity].
  - destruct (parse_quantity_reads_number PyStr.ascii_only (u"在庫なし"))
      as (_ & H & _).
    apply H. repeat constructor.
Defined.


(** A table of two rows, the second without its quantity. *)
Definition a_page : page :=
  Table [ {| product_text := Some (u" りんごジュース ");
             quantity_text := Some (u"1,200個");
             expiry_text := Some (u"2024/3/5") |};
          {| product_text := Some (u"みかんジュース");
             quantity_text := None;
             expiry_text := Some (u"2024/4/1") |} ].

Definition listing_of (r : result (list item * nat)) : list item :=
  match r with
  | Ok (l, _) => l
  | Raise _ => []
  end.

Definition a_scrape := _scrape_with_requests PyStr.ascii_only (clock_at 12) a_page 0.

Lemma scraped_listing_well_typed_witness :
  a_scrape = Ok (listing_of a_scrape, 1%nat) /\
  Forall scraped (listing_of a_scrape) /\
  map (fun it => (product it, Model.quantity it, expiry_date it))
      (listing_of a_scrape) =
  [(Some (u"りんごジュース"), Some 1200, Some (u"2024-03-05"))].
Proof.
  assert (E : a_scrape = Ok (listing_of a_scrape, 1%nat))
    by (vm_compute; reflexivity).
  split; [exact E|]. split; [|vm_compute; reflexivity].
  destruct (scraped_listing_well_typed PyStr.ascii_only (clock_at 12) a_page 0)
    as (H & _).
  exact (proj1 (H _ _ E)).
Defined.

(** *** The differ *)

Lemma change_set_consistent_witness :
  listing_ok stock_now /\ listing_ok stock_before /\
  exists cs t',
    diff (clock_at 12) 0 stock_now stock_before = Ok (cs, t') /\
    Forall consistent (changes cs) /\
    forall p,
      (reports p cs <= 1)%nat /\
      (In p (map ci_product (changes cs)) ->
       present p stock_now = true /\ present p stock_before = true) /\
      (In p (map np_product (new_products cs)) ->
       present p stock_now = true /\ present p stock_before = false) /\
      (In p (map rp_product (removed_products cs)) ->
       present p stock_now = false /\ present p stock_before = true).
Proof.
  split; [exact listing_ok_now|]. split; [exact listing_ok_before|].
  exact (@change_set_consistent (clock_at 12) 0%nat stock_now stock_before
           listing_ok_now listing_ok_before).
Defined.

(** The run at noon reports A and C as changes, B as new and D as
    removed: each once. *)
Example run_noon_reports :
  map (fun p => reports (u p) (observed run_noon)) ["A"; "B"; "C"; "D"; "E"]%string =
  [1; 1; 1; 1; 0]%nat.
Proof. vm_compute. reflexivity. Qed.

Definition history_now : history := [(u"latest", Listing stock_now)].

Lemma unchanged_listing_reports_nothing_witness :
  listing_ok stock_now /\
  compare_inventory (clock_at 12) 0 history_now stock_now k_latest =
  Ok (nothing_at (now_iso (clock_at 12) 0), 1%nat).
Proof.
  split; [exact listing_ok_now|].
  destruct (@unchanged_listing_reports_nothing stock_now listing_ok_now) as (H & _).
  apply H. reflexivity.
Defined.

(** *** The cycle *)




(** *** The expiry scan *)

Lemma longer_horizon_keeps_rows_witness :
  exists out t1 out' t2,
    get_expiring_soon_products PyStr.ascii_only (clock_at 12) 0 stock_now 7
      = Ok (out, t1) /\
    get_expiring_soon_products PyStr.ascii_only (clock_at 12) 0 stock_now 30
      = Ok (out', t2) /\
    incl (map row out) (map row out') /\
    (List.length out <= List.length out')%nat.
Proof.
  apply (@longer_horizon_keeps_rows PyStr.ascii_only (clock_at 12) 0%nat stock_now 7 30).
  - lia.
  - vm_compute. discriminate.
  - vm_compute. discriminate.
Defined.

(** *** Mail *)

Lemma mail_needs_settings_witness :
  exists evs,
    trace (snd (notify_shipment all_services (world (Ok stock_now) Written)
                  (observed run_noon) stock_now monitor_before))
      = trace monitor_before ++ evs /\
    List.length (mails evs) = 1%nat.
Proof.
  destruct (mail_needs_settings all_services (world (Ok stock_now) Written)
              monitor_before) as (H & _).
  destruct (H (observed run_noon) stock_now) as (evs & T & L & M & _).
  exists evs. split; [exact T|].
  assert (N : mails evs <> []).
  { apply M. split; [vm_compute; discriminate|]. split; vm_compute; reflexivity. }
  destruct (mails evs) as [|m [|m' ms]]; [now elim N | reflexivity | cbn in L; lia].
Defined.

(** Without a password nothing is mailed. *)
Example no_password_no_mail :
  let cfg := {| sheets_client := true;
                notification_email := Some (u"staff@example.com");
                smtp_username := Some (u"monitor"); smtp_password := Some [] |} in
  mail_ready cfg (world (Ok stock_now) Written) = false /\
  mails (trace (snd (notify_shipment cfg (world (Ok stock_now) Written)
                       (observed run_noon) stock_now monitor_before))) = [].
Proof. split; vm_compute; reflexivity. Qed.

(** *** The spreadsheet *)

Lemma inventory_sheet_rows_witness :
  exists evs,
    trace (snd (_save_to_sheets all_services (world (Ok stock_now) Written)
                  stock_now k_latest monitor_before))
      = trace monitor_before ++ evs /\
    existsb MonitorFacts.is_append evs = true /\
    forall sh rows, In (Sheets_append sh rows) evs ->
      sh = k_latest /\ List.length rows = List.length stock_now.
Proof.
  destruct (inventory_sheet_rows all_services (world (Ok stock_now) Written)
              stock_now k_latest monitor_before)
    as (evs & _ & T & _ & A & _ & _ & Acc).
  exists evs. split; [exact T|]. split.
  - apply Acc; [reflexivity | exact listing_ok_now | discriminate | reflexivity].
  - intros sh rows I. destruct (A _ _ I) as (E & F & _).
    split; [exact E|]. symmetry. exact (Forall2_length F).
Defined.

(** A row without its quantity: nothing is appended. *)
Example incomplete_row_no_append :
  let broken := {| product := Some (u"E"); Model.quantity := None;
                   expiry_date := Some (u"2024-05-01"); scraped_at := None |} in
  filter MonitorFacts.is_append
    (trace (snd (_save_to_sheets all_services (world (Ok stock_now) Written)
                   (stock_now ++ [broken]) k_latest monitor_before))) = [].
Proof. vm_compute. reflexivity. Qed.

Lemma changes_sheet_rows_witness :
  exists evs,
    trace (snd (save_changes_to_sheets all_services (world (Ok stock_now) Written)
                  (observed run_noon) changes_sheet monitor_before))
      = trace monitor_before ++ evs /\
    existsb MonitorFacts.is_append evs = true /\
    forall sh rows, In (Sheets_append sh rows) evs ->
      rows = map change_row (changes (observed run_noon)) /\
      List.length rows = 2%nat.
Proof.
  destruct (changes_sheet_rows all_services (world (Ok stock_now) Written)
              (observed run_noon) changes_sheet monitor_before)
    as (evs & _ & T & _ & A & _ & Acc).
  exists evs. split; [exact T|]. split.
  - apply Acc. split; [reflexivity|]. split; [vm_compute; discriminate | reflexivity].
  - intros sh rows I. destruct (A _ _ I) as (_ & E & _).
    split; [exact E|]. rewrite E. vm_compute. reflexivity.
Defined.

End MonitorScenarios.

(* ================================================================== *)
(** ** Scenarios of the order files *)

Module OrderScenarios.

Import Py PyStr Model OrderDataExtractor OrderDocument OrderMain.
Import PyFacts TextFacts OrderFacts OrderMainFacts.
Local Open Scope order_scope.

Definition an_order : str :=
  u"注文書
得意先: 山田商店 御中
りんごジュース
数量: 1,200
2024年3月5日".

Lemma customer_name_shape_witness :
  extract_customer_name ascii_only an_order = Some (u"山田商店") /\
  Forall (fun c => honorific c = false) (u"山田商店") /\
  extract_customer_name ascii_only (u"
 ") = None.
Proof.
  destruct (customer_name_shape ascii_only an_order) as (_ & B & _).
  assert (L : labelled_name customer_labels an_order = Some (u"山田商店"))
    by (vm_compute; reflexivity).
  destruct (B _ L) as (E & H). split; [exact E|]. split; [exact H|].
  destruct (customer_name_shape ascii_only (u"
 ")) as (_ & _ & _ & S).
  apply S. repeat constructor.
Defined.

(** Without a label, the first line that can be a name. *)
Example customer_name_fallback :
  extract_customer_name ascii_only (u"12,000
山田商店
東京都") = Some (u"山田商店").
Proof. vm_compute. reflexivity. Qed.

Definition the_item : order_item :=
  {| product_name := Some (u"注文書"); quantity := Some (u"1200");
     unit_price := None; amount := Some (u"1200") |}.

Lemma extract_items_fields_witness :
  In the_item (extract_items ascii_only an_order) /\
  item_shape ascii_only the_item.
Proof.
  assert (I : In the_item (extract_items ascii_only an_order))
    by (vm_compute; left; reflexivity).
  split; [exact I|].
  exact (@extract_items_fields ascii_only an_order the_item I).
Defined.

(** *** One file *)

Definition noon : clock :=
  fun n => {| Datetime.year := 2024; Datetime.month := 3; Datetime.day := 6;
              Datetime.hour := 12; Datetime.minute := 0;
              Datetime.second := Z.of_nat n; Datetime.microsecond := 0 |}.

(** A world in which the scan gives [text], the reviewer answers
    [response] and the spreadsheet works. *)
Definition office (text : result str) (response : string) : world :=
  {| clk := noon; ocr := text; answer := Ok (u response);
     header_row := Ok []; update_ok := true; append_raises := None |}.

Definition start : state := {| ticks := 0; trace := [] |}.

Lemma process_file_appends_one_row_witness :
  fst (process_file ascii_only (office (Ok an_order) "Y") (u"input/fax01.pdf")
         true start) = Ok true /\
  fst (process_file ascii_only (office (Ok an_order) "yes") (u"input/fax01.pdf")
         true start) = Ok false.
Proof.
  split.
  - destruct (process_file_appends_one_row ascii_only (office (Ok an_order) "Y")
                (u"input/fax01.pdf") true start)
      as (b & evs & E & _ & B & _).
    rewrite E. f_equal. apply B. split.
    + exists an_order. split; [reflexivity | vm_compute; discriminate].
    + split; [|reflexivity]. intros _. exists (u"Y"). split; reflexivity.
  - destruct (process_file_appends_one_row ascii_only (office (Ok an_order) "yes")
                (u"input/fax01.pdf") true start)
      as (b & evs & E & _ & B & _).
    rewrite E. f_equal. destruct b; [|reflexivity].
    destruct (proj1 B eq_refl) as (_ & C & _).
    destruct (C eq_refl) as (r & R & Y). inversion R; subst r.
    vm_compute in Y. discriminate Y.
Defined.

(** The row that goes to the sheet for the order. *)
Example the_row_of_an_order :
  filter OrderMainFacts.is_append
    (trace (snd (process_file ascii_only (office (Ok an_order) "y")
                   (u"input/fax01.pdf") false start))) =
  [Sheets_append sheet1
     [[u"2024-03-05"; u"山田商店"; u"注文書"; u"1200"; []; u"1200"; [];
       u"2024-03-06 12:00:00"; u"fax01.pdf"]]].
Proof. vm_compute. reflexivity. Qed.

(** *** The header *)

Lemma header_written_when_needed_witness :
  exists evs,
    trace (snd (create_header_if_needed (office (Ok an_order) "y") sheet1 start))
      = trace start ++ evs /\
    filter is_header_update evs = [Sheets_update_header sheet1 expected_headers] /\
    create_header_if_needed
      {| clk := noon; ocr := Ok an_order; answer := Ok (u"y");
         header_row := Ok expected_headers; update_ok := true;
         append_raises := None |} sheet1 start = (Ok tt, start).
Proof.
  destruct (header_written_when_needed (office (Ok an_order) "y") sheet1 start)
    as (evs & T & _ & U & _).
  exists evs. split; [exact T|]. split; [exact U|].
  destruct (header_written_when_needed
              {| clk := noon; ocr := Ok an_order; answer := Ok (u"y");
                 header_row := Ok expected_headers; update_ok := true;
                 append_raises := None |} sheet1 start)
    as (_ & _ & Same & _).
  apply Same. reflexivity.
Defined.

(** *** A run *)

(** Three files: a good one from the folder, one whose scan is blank,
    and a good one named on the command line. *)
Definition three_jobs : list job :=
  [ {| path := u"input/fax01.pdf"; is_path := true;
       answers := office (Ok an_order) "y"; rename_ok := true |};
    {| path := u"input/fax02.png"; is_path := true;
       answers := office (Ok (u"  ")) "y"; rename_ok := true |};
    {| path := u"fax03.pdf"; is_path := false;
       answers := office (Ok an_order) "y"; rename_ok := true |} ].

Lemma success_count_is_appends_witness :
  exists evs,
    trace (snd (run_files ascii_only three_jobs false start)) =
      trace start ++ [Log Effects.INFO (files_found 3)] ++ evs ++
                     [Log Effects.INFO (run_done 2 3)] /\
    List.length (filter OrderMainFacts.is_append evs) = 2%nat /\
    filter is_move evs = [Move (u"input/fax01.pdf")].
Proof.
  destruct (success_count_is_appends ascii_only three_jobs false start)
    as (evs & _ & T & A & M & _).
  exists evs. split; [exact T|]. split; [exact A | exact M].
Defined.

End OrderScenarios.
